(** * CADET-Process: events on a cyclic time axis

    A shallow embedding of [CADETProcess/common/event.py] (classes
    [EventHandler], [Event] and [Duration]) and the properties of its time
    resolver, its aggregate views, its timeline builder and its
    [parameters] getter/setter pair.

    Modelling conventions.
    - Python objects are shared and mutable: every [Event] lives in an
      object store ([heap]) and is named by a reference; the handler's
      [_events] and an event's [_dependencies] hold references, so a write
      to one event is seen by every event that depends on it.
    - The numbers of the handler model are integers ([Z]); on them the
      operator [%] is floor-modulo, whose result takes the sign of the
      divisor, which is [Z.modulo]; a zero divisor raises. Python computes
      with floats, which agree with the integers as long as these are held
      exactly ([exact_world]); the remainder of floats itself is
      [py_float_mod], on binary64, and [Event_time_float] reads the time of
      an independent event with it.
    - The handler binds every event and duration to its name as an
      attribute; [__dict__] holds these attributes, and [object_setattr]
      tells the names that the class keeps for itself from the others.
    - A raised exception is a value of [exn]; a mutator returns the store it
      leaves behind together with its outcome, because a Python exception
      does not undo the writes made before it.
    - [Event.time] recurses through the dependencies; the recursion depth is
      bounded by [fuel], Python's recursion limit, and exceeding it raises
      [RecursionError]. *)

From Stdlib Require Import ZArith Lia Ascii Floats.
From stdpp Require Import base gmap strings list sorting.

Local Open Scope string_scope.
Local Open Scope Z_scope.
Local Open Scope list_scope.

(** ** Values, exceptions and results *)

(** The Python values that flow through the event code. A state or a time
    is a number or a sequence of numbers (a component-wise or polynomial
    state); what is assigned to a [parameters] attribute is such a value or
    a dictionary of them, with string keys in insertion order. *)
Inductive pyval : Type :=
| VNum (z : Z)
| VSeq (l : list Z).

Inductive pyparam : Type :=
| PVal (v : pyval)
| PDict (d : list (string * pyval)).

(** The exceptions of the event code. [InvalidReference] stands for a
    reference to an object that the store does not hold; a Python reference
    always denotes a live object, so no program raises it. [NotModelled]
    stands for a step that Python takes and whose effect the data model
    cannot hold, such as binding the attribute [_events] of the handler to an
    event; no program raises it either. *)
Inductive exn : Type :=
| CADETProcessError (msg : string)
| KeyError (key : string)
| TypeError (msg : string)
| ValueError (msg : string)
| AttributeError (msg : string)
| ZeroDivisionError
| RecursionError
| InvalidReference
| NotModelled.

Inductive result (A : Type) : Type :=
| Ok (a : A)
| Raise (e : exn).
Arguments Ok {A} a.
Arguments Raise {A} e.

Definition rbind {A B} (m : result A) (k : A → result B) : result B :=
  match m with
  | Ok a => k a
  | Raise e => Raise e
  end.

Notation "'let*' x ':=' m 'in' k" := (rbind m (fun x => k))
  (at level 10, x pattern, m at level 100, k at level 200).

Fixpoint mapR {A B} (f : A → result B) (l : list A) : result (list B) :=
  match l with
  | [] => Ok []
  | x :: l' =>
      let* y := f x in
      let* ys := mapR f l' in
      Ok (y :: ys)
  end.

(** ** Python primitives *)

(** [a % c] on integers. *)
Definition py_mod (a c : Z) : result Z :=
  if decide (c = 0) then Raise ZeroDivisionError else Ok (a mod c).

(** [np.dot(xs, fs)] on two one-dimensional sequences. *)
Fixpoint dot (xs fs : list Z) : Z :=
  match xs, fs with
  | x :: xs', f :: fs' => x * f + dot xs' fs'
  | _, _ => 0
  end.

Definition np_dot (xs fs : list Z) : result Z :=
  if decide (length xs = length fs) then Ok (dot xs fs)
  else Raise (ValueError "shapes not aligned").

(** [sorted(l, key=key)] and [l.sort()]: a stable sort. An element is put in
    front of the first element of the sorted rest whose key is not smaller,
    so elements with equal keys keep their order. *)
Fixpoint insert_by {A} (key : A → Z) (x : A) (l : list A) : list A :=
  match l with
  | [] => [x]
  | y :: l' => if (key x <=? key y)%Z then x :: l else y :: insert_by key x l'
  end.

Definition py_sorted {A} (key : A → Z) (l : list A) : list A :=
  foldr (insert_by key) [] l.

(** The order that [sorted] establishes. *)
Definition key_le {A} (key : A → Z) (x y : A) : Prop := key x ≤ key y.

(** A [dict] in insertion order: [d[k] = v] replaces the value of a key that
    is present, in place, and appends a new key at the end. *)
Fixpoint dict_set {V} (k : string) (v : V) (d : list (string * V))
  : list (string * V) :=
  match d with
  | [] => [(k, v)]
  | (k', v') :: d' =>
      if decide (k' = k) then (k, v) :: d' else (k', v') :: dict_set k v d'
  end.

Fixpoint dict_get {V} (k : string) (d : list (string * V)) : option V :=
  match d with
  | [] => None
  | (k', v') :: d' => if decide (k' = k) then Some v' else dict_get k d'
  end.

(** [d.update(other)] and [{**d, **other}]. *)
Definition dict_update {V} (d other : list (string * V)) : list (string * V) :=
  foldl (fun acc kv => dict_set kv.1 kv.2 acc) d other.

(** A dict display or comprehension [{k: v for ...}]. *)
Definition dict_of {V} (kvs : list (string * V)) : list (string * V) :=
  dict_update [] kvs.

Fixpoint dict_remove {V} (k : string) (d : list (string * V))
  : list (string * V) :=
  match d with
  | [] => []
  | (k', v') :: d' =>
      if decide (k' = k) then d' else (k', v') :: dict_remove k d'
  end.

(** ** The data model *)

Definition ref := nat.

(** [Event]; a [Duration] is an [Event] with [start_event] and [end_event]
    and with [_parameters = ['time']]. *)
Record Event : Type := mkEvent {
  name : string;
  parameter_path : string;
  component_index : option nat;
  _state : pyval;
  _time : Z;
  _dependencies : list ref;
  _factors : list Z;
  _parameters : list string;
  start_event : option ref;
  end_event : option ref
}.

(** [EventHandler]. [section_dependent_parameters] and
    [polynomial_parameters] are abstract in the source and supplied by the
    process model: the valid parameter paths and the polynomial ones.
    [__dict__] is the part of the instance dictionary that [add_event] and
    [add_duration] fill and [remove_event] and [remove_duration] empty: the
    events and durations that are attributes of the handler, by name. *)
Record EventHandler : Type := mkHandler {
  cycle_time : Z;
  _events : list ref;
  _durations : list ref;
  section_dependent_parameters : list string;
  polynomial_parameters : list string;
  __dict__ : gmap string ref
}.

(** The object store, the handler, and the parameter tree of the process
    model that event states are written through to. *)
Record World : Type := mkWorld {
  heap : gmap ref Event;
  handler : EventHandler;
  model : gmap string pyval
}.

Definition deref (w : World) (r : ref) : result Event :=
  match heap w !! r with
  | Some e => Ok e
  | None => Raise InvalidReference
  end.

Definition with_time (e : Event) (t : Z) : Event :=
  mkEvent (name e) (parameter_path e) (component_index e) (_state e) t
          (_dependencies e) (_factors e) (_parameters e)
          (start_event e) (end_event e).

Definition with_state (e : Event) (s : pyval) : Event :=
  mkEvent (name e) (parameter_path e) (component_index e) s (_time e)
          (_dependencies e) (_factors e) (_parameters e)
          (start_event e) (end_event e).

Definition with_dependencies (e : Event) (ds : list ref) (fs : list Z) : Event :=
  mkEvent (name e) (parameter_path e) (component_index e) (_state e) (_time e)
          ds fs (_parameters e) (start_event e) (end_event e).

Definition with_heap (w : World) (h : gmap ref Event) : World :=
  mkWorld h (handler w) (model w).

Definition with_handler (w : World) (h : EventHandler) : World :=
  mkWorld (heap w) h (model w).

Definition with_model (w : World) (m : gmap string pyval) : World :=
  mkWorld (heap w) (handler w) m.

Definition store_event (w : World) (r : ref) (e : Event) : World :=
  with_heap w (<[r := e]> (heap w)).

(** ** Event: the time resolver *)

(** [Event.isIndependent]. *)
Definition isIndependent (e : Event) : bool :=
  bool_decide (length (_dependencies e) = 0%nat).

(** [Event.time] (getter). *)
Fixpoint Event_time (fuel : nat) (w : World) (r : ref) : result Z :=
  match fuel with
  | O => Raise RecursionError
  | S n =>
      let* e := deref w r in
      let* time :=
        (if isIndependent e then Ok (_time e)
         else
           let* ts := mapR (Event_time n w) (_dependencies e) in
           np_dot ts (_factors e)) in
      py_mod time (cycle_time (handler w))
  end.

(** ** Mutators: a state and exception monad over [World] *)

Definition M (A : Type) : Type := World → World * result A.

Definition sret {A} (a : A) : M A := fun w => (w, Ok a).

Definition sraise {A} (e : exn) : M A := fun w => (w, Raise e).

Definition sbind {A B} (m : M A) (k : A → M B) : M B :=
  fun w =>
    match m w with
    | (w', Ok a) => k a w'
    | (w', Raise e) => (w', Raise e)
    end.

(** A read of the current state. *)
Definition sread {A} (f : World → result A) : M A := fun w => (w, f w).

Notation "'do*' x ':=' m 'in' k" := (sbind m (fun x => k))
  (at level 10, x pattern, m at level 100, k at level 200).

Fixpoint sfor {A} (l : list A) (body : A → M unit) : M unit :=
  match l with
  | [] => sret tt
  | x :: l' => do* _ := body x in sfor l' body
  end.

(** [try: ... except AttributeError: raise e'] *)
Definition except_AttributeError {A} (m : result A) (e' : exn) : result A :=
  match m with
  | Raise (AttributeError _) => Raise e'
  | _ => m
  end.

(** [try: ... except KeyError: raise e'] *)
Definition except_KeyError {A} (m : result A) (e' : exn) : result A :=
  match m with
  | Raise (KeyError _) => Raise e'
  | _ => m
  end.

(** [d[k]] on a plain dict. *)
Definition dict_item {V} (d : list (string * V)) (k : string) : result V :=
  match dict_get k d with
  | Some v => Ok v
  | None => Raise (KeyError k)
  end.

(** [k in d] *)
Definition dict_mem {V} (k : string) (d : list (string * V)) : bool :=
  bool_decide (is_Some (dict_get k d)).

(** An argument that is a name or an object: [x in l] and [l[x]] compare and
    index with whatever they are given. Objects have no [__eq__], so two
    objects are equal when they are the same object, and a string is never
    equal to an object. *)
Inductive pyobj : Type :=
| OStr (s : string)
| ORef (r : ref).

Definition py_eq (a b : pyobj) : bool :=
  match a, b with
  | OStr s, OStr t => bool_decide (s = t)
  | ORef r, ORef r' => bool_decide (r = r')
  | _, _ => false
  end.

Definition py_in (a : pyobj) (l : list pyobj) : bool := existsb (py_eq a) l.

(** [l[i]] where [i] is a string or an object: list indices must be
    integers. *)
Definition py_list_item {A} (l : list A) (i : pyobj) : result A :=
  Raise (TypeError "list indices must be integers or slices").

(** [l(x)]: a list is not callable. *)
Definition py_call_list {A} (l : list A) (x : pyobj) : result nat :=
  Raise (TypeError "'list' object is not callable").

(** ** Event: dependencies *)

(** [Event.add_dependency] *)
Definition Event_add_dependency (self dependency : ref) (factor : Z) : M unit :=
  do* e := sread (fun w => deref w self) in
  if bool_decide (dependency ∈ _dependencies e)
  then sraise (CADETProcessError "Dependency already exists")
  else fun w =>
    (store_event w self
       (with_dependencies e (_dependencies e ++ [dependency])
                            (_factors e ++ [factor])), Ok tt).

(** [Event.remove_dependency] *)
Definition Event_remove_dependency (self : ref) (dependency : pyobj) : M unit :=
  do* e := sread (fun w => deref w self) in
  if py_in dependency (ORef <$> _dependencies e)
  then sraise (CADETProcessError "Dependency not found")
  else
    do* index := sread (fun _ => py_call_list (_dependencies e) dependency) in
    fun w =>
      (store_event w self
         (with_dependencies e (delete index (_dependencies e))
                              (delete index (_factors e))), Ok tt).

(** [Event.time] (setter) *)
Definition Event_set_time (self : ref) (time : pyval) : M unit :=
  match time with
  | VNum t =>
      do* e := sread (fun w => deref w self) in
      if isIndependent e
      then fun w => (store_event w self (with_time e t), Ok tt)
      else sraise (CADETProcessError "Cannot set time for dependent events")
  | VSeq _ => sraise (TypeError "Expected <class 'float'>")
  end.

(** ** EventHandler: aggregate views *)

(** [EventHandler.events] *)
Definition events (fuel : nat) (w : World) : result (list ref) :=
  let* keyed :=
    mapR (fun evt => let* t := Event_time fuel w evt in Ok (t, evt))
         (_events (handler w)) in
  Ok ((py_sorted fst keyed).*2).

(** [EventHandler.durations] *)
Definition durations (w : World) : list ref := _durations (handler w).

Definition named (w : World) (l : list ref) : result (list (string * ref)) :=
  mapR (fun r => let* e := deref w r in Ok (name e, r)) l.

(** [EventHandler.events_dict] *)
Definition events_dict (fuel : nat) (w : World) : result (list (string * ref)) :=
  let* evs := events fuel w in
  let* evts := named w evs in
  let* durs := named w (durations w) in
  Ok (dict_update (dict_of evts) (dict_of durs)).

Definition filter_events (p : Event → bool) (w : World) (l : list ref)
  : result (list ref) :=
  let* es := mapR (fun r => let* e := deref w r in Ok (r, e)) l in
  Ok ((filter (fun re => p re.2 = true) es).*1).

(** [EventHandler.independent_events] *)
Definition independent_events (fuel : nat) (w : World) : result (list ref) :=
  let* evs := events fuel w in
  filter_events isIndependent w evs.

(** [EventHandler.dependent_events] *)
Definition dependent_events (fuel : nat) (w : World) : result (list ref) :=
  let* evs := events fuel w in
  filter_events (fun e => negb (isIndependent e)) w evs.

(** [EventHandler.independent_durations] *)
Definition independent_durations (w : World) : result (list ref) :=
  filter_events isIndependent w (durations w).

(** [EventHandler.dependent_durations] *)
Definition dependent_durations (w : World) : result (list ref) :=
  filter_events (fun e => negb (isIndependent e)) w (durations w).

(** [EventHandler.event_times]: the set of the times, as a sorted list. *)
Definition event_times (fuel : nat) (w : World) : result (list Z) :=
  let* evs := events fuel w in
  let* ts := mapR (Event_time fuel w) evs in
  Ok (py_sorted id (elements (list_to_set ts : gset Z))).

(** [EventHandler.section_times] *)
Definition section_times (fuel : nat) (w : World) : result (list Z) :=
  let* ets := event_times fuel w in
  if bool_decide (length ets = 0%nat) then Ok [0; cycle_time (handler w)]
  else
    let section_times := ets in
    let section_times :=
      if bool_decide (head section_times ≠ Some 0)
      then [0] ++ section_times else section_times in
    let section_times :=
      if bool_decide (last section_times ≠ Some (cycle_time (handler w)))
      then section_times ++ [cycle_time (handler w)] else section_times in
    Ok section_times.

(** [EventHandler.n_sections] *)
Definition n_sections (fuel : nat) (w : World) : result Z :=
  let* st := section_times fuel w in
  Ok (Z.of_nat (length st) - 1).

(** ** Timeline builder *)

(** [Section(start, end, coeffs)]; [polynomial] tells a [PolynomialSection]
    from a plain [Section]. *)
Record Section : Type := mkSection {
  polynomial : bool;
  start : Z;
  end_ : Z;
  coeffs : pyval
}.

Definition TimeLine : Type := list Section.

(** Modelled from the spec: [TimeLine.add_section] of
    [CADETProcess.common], which is not among the sources. The spec describes
    a timeline as "the ordered sequence of sections covering one full cycle",
    "a closed sequence of time-ordered sections": the section is appended and
    the sections are kept sorted by their start. *)
Definition add_section (tl : TimeLine) (s : Section) : TimeLine :=
  py_sorted start (tl ++ [s]).

(** [parameter_events[evt.parameter_path].append(evt)] on a
    [defaultdict(list)]. *)
Definition group_event (d : list (string * list ref)) (re : ref * Event)
  : list (string * list ref) :=
  dict_set (parameter_path re.2)
           (default [] (dict_get (parameter_path re.2) d) ++ [re.1]) d.

(** [EventHandler.parameter_events]: filled in the order of [events]. *)
Definition parameter_events (fuel : nat) (w : World)
  : result (list (string * list ref)) :=
  let* evs := events fuel w in
  let* es := mapR (fun r => let* e := deref w r in Ok (r, e)) evs in
  Ok (foldl group_event [] es).

(** The body of the loop [for index, evt in enumerate(events)] of
    [parameter_timelines], on the time and the state of each event: the
    sections that one turn adds, in the order in which it adds them. *)
Definition section_step (SectionClass : bool) (cycle_time : Z)
    (events : list (Z * pyval)) (index : nat) (evt : Z * pyval) : list Section :=
  let section_start := evt.1 in
  if bool_decide (Z.of_nat index < Z.of_nat (length events) - 1)
  then
    let section_end := (default evt (events !! S index)).1 in
    [mkSection SectionClass section_start section_end evt.2]
  else
    let section_end := cycle_time in
    mkSection SectionClass section_start section_end evt.2 ::
    (if bool_decide ((default evt (events !! 0%nat)).1 ≠ 0)
     then [mkSection SectionClass 0 (default evt (events !! 0%nat)).1 evt.2]
     else []).

(** The sections of one parameter, in the order in which the loop adds
    them. *)
Definition event_sections (SectionClass : bool) (cycle_time : Z)
    (events : list (Z * pyval)) : list Section :=
  concat (imap (section_step SectionClass cycle_time events) events).

(** One turn of the outer loop of [parameter_timelines]: the timeline of the
    parameter [evt_parameter], which is the [parameter_path] of each of its
    [events]. An event's time and state are pure reads, so they are read once
    for each event. *)
Definition parameter_timeline (fuel : nat) (w : World) (evt_parameter : string)
    (events : list ref) : result TimeLine :=
  let is_polynomial :=
    bool_decide (evt_parameter ∈ polynomial_parameters (handler w)) in
  let* evs :=
    mapR (fun r =>
            let* e := deref w r in
            let* t := Event_time fuel w r in
            Ok (t, _state e)) events in
  Ok (foldl add_section []
            (event_sections is_polynomial (cycle_time (handler w)) evs)).

(** [EventHandler.parameter_timelines] *)
Definition parameter_timelines (fuel : nat) (w : World)
  : result (list (string * TimeLine)) :=
  let* pe := parameter_events fuel w in
  mapR (fun pevs =>
          let* tl := parameter_timeline fuel w pevs.1 pevs.2 in
          Ok (pevs.1, tl)) pe.

(** ** The [parameters] views *)

(** [getattr(self, param)] for the names an event lists in [_parameters]. *)
Definition Event_getattr (fuel : nat) (w : World) (self : ref) (param : string)
  : result pyval :=
  let* e := deref w self in
  if decide (param = "time") then
    let* t := Event_time fuel w self in Ok (VNum t)
  else if decide (param = "state") then Ok (_state e)
  else Raise (AttributeError param).

(** [Event.parameters] (getter) *)
Definition Event_parameters (fuel : nat) (w : World) (self : ref)
  : result (list (string * pyval)) :=
  let* e := deref w self in
  let* kvs :=
    mapR (fun param =>
            let* v := Event_getattr fuel w self param in Ok (param, v))
         (_parameters e) in
  Ok (dict_of kvs).

Definition named_parameters (fuel : nat) (w : World) (l : list ref)
  : result (list (string * pyparam)) :=
  mapR (fun r =>
          let* e := deref w r in
          let* p := Event_parameters fuel w r in
          Ok (name e, PDict p)) l.

(** [EventHandler.parameters] (getter) *)
Definition EventHandler_parameters (fuel : nat) (w : World)
  : result (list (string * pyparam)) :=
  let parameters := [] in
  let* ievs := independent_events fuel w in
  let* events := named_parameters fuel w ievs in
  let parameters := dict_update parameters (dict_of events) in
  let* idurs := independent_durations w in
  let* durations := named_parameters fuel w idurs in
  let parameters := dict_update parameters (dict_of durations) in
  Ok (dict_set "cycle_time" (PVal (VNum (cycle_time (handler w)))) parameters).

(** Modelled from the spec: the descriptor [UnsignedFloat] of
    [CADETProcess.common], which is not among the sources: [cycle_time] is a
    real number that is not negative. *)
Definition set_cycle_time (v : pyparam) : M unit :=
  match v with
  | PVal (VNum c) =>
      if bool_decide (0 ≤ c)
      then fun w =>
        let h := handler w in
        (with_handler w
           (mkHandler c (_events h) (_durations h)
                      (section_dependent_parameters h)
                      (polynomial_parameters h) (__dict__ h)), Ok tt)
      else sraise (ValueError "Value exceeds lower bound")
  | _ => sraise (TypeError "Expected float")
  end.

(** Modelled from the spec: the parameter tree of the process model ("a
    queryable/settable nested parameter store (get/set by dot-path)"), which
    [get_nested_value(self.event_handler.parameters, path)] reads and the
    assignment [self.event_handler.parameters = generate_nested_dict(path,
    state)] writes. Both go through the [parameters] property of the
    concrete process class, which extends [EventHandler.parameters] by its
    own tree: the read evaluates [EventHandler.parameters] and looks the path
    up in the tree; the write stores the value in the tree and passes nothing
    on to the setter of [EventHandler]. The tree takes every value: the
    [TypeError] or [ValueError] of a process model that refuses a value,
    which [Event.state] raises again as [CADETProcessError], does not
    occur. *)
Definition model_get (fuel : nat) (path : string) : M pyval :=
  do* _ := sread (EventHandler_parameters fuel) in
  sread (fun w =>
           match model w !! path with
           | Some v => Ok v
           | None => Raise (KeyError path)
           end).

Definition model_set (path : string) (v : pyval) : M unit :=
  fun w => (with_model w (<[path := v]> (model w)), Ok tt).

(** The body of [Event.state] (setter), up to the value it stores in
    [_state]. The attribute [current_state] is defined nowhere. *)
Definition write_state (fuel : nat) (parameter_path : string)
    (component_index : option nat) (state : pyval) : M pyval :=
  do* current_value := model_get fuel parameter_path in
  do* _ :=
    match component_index with
    | Some _ =>
        sraise (AttributeError "'Event' object has no attribute 'current_state'")
    | None => model_set parameter_path state
    end in
  model_get fuel parameter_path.

(** [Event.state] (setter) *)
Definition Event_set_state (fuel : nat) (self : ref) (state : pyval) : M unit :=
  do* e := sread (fun w => deref w self) in
  do* v := write_state fuel (parameter_path e) (component_index e) state in
  do* e := sread (fun w => deref w self) in
  fun w => (store_event w self (with_state e v), Ok tt).

(** [setattr(self, param, value)]: [time] and [state] are properties; any
    other name would bind an attribute that the model does not hold. *)
Definition Event_setattr (fuel : nat) (self : ref) (param : string)
    (value : pyval) : M unit :=
  if decide (param = "time") then Event_set_time self value
  else if decide (param = "state") then Event_set_state fuel self value
  else sret tt.

(** One turn of the loop [for param, value in parameters.items()] of the
    setter of [Event.parameters]. *)
Definition set_parameter (fuel : nat) (self : ref) (pv : string * pyval)
  : M unit :=
  do* e := sread (fun w => deref w self) in
  if bool_decide (pv.1 ∈ _parameters e)
  then Event_setattr fuel self pv.1 pv.2
  else sraise (CADETProcessError "Not a valid parameter").

(** [Event.parameters] (setter) *)
Definition Event_set_parameters (fuel : nat) (self : ref) (parameters : pyparam)
  : M unit :=
  match parameters with
  | PVal (VNum t) => Event_set_time self (VNum t)
  | PVal (VSeq _) =>
      sraise (AttributeError "'list' object has no attribute 'items'")
  | PDict d => sfor d (set_parameter fuel self)
  end.

(** One turn of the loop [for evt_name, evt_parameters in
    parameters.items()] of the setter of [EventHandler.parameters]. The
    message of the second error interpolates [str(evt)]; the model keeps the
    name of the event. *)
Definition set_parameters_item (fuel : nat) (kv : string * pyparam) : M unit :=
  let evt_name := kv.1 in
  let evt_parameters := kv.2 in
  do* evt :=
    sread (fun w =>
             except_AttributeError
               (let* d := events_dict fuel w in dict_item d evt_name)
               (CADETProcessError "Not a valid event")) in
  do* valid :=
    sread (fun w =>
             let* ievs := independent_events fuel w in
             let* idurs := independent_durations w in
             Ok (ievs ++ idurs)) in
  if bool_decide (evt ∈ valid)
  then Event_set_parameters fuel evt evt_parameters
  else
    do* e := sread (fun w => deref w evt) in
    sraise (CADETProcessError (name e +:+ " is not a valid event")).

(** [EventHandler.parameters] (setter) *)
Definition EventHandler_set_parameters (fuel : nat)
    (parameters : list (string * pyparam)) : M unit :=
  do* _ :=
    match dict_get "cycle_time" parameters with
    | Some v => set_cycle_time v
    | None => sret tt
    end in
  let parameters := dict_remove "cycle_time" parameters in
  sfor parameters (set_parameters_item fuel).

(** ** Construction *)

(** [Event.component_index] (setter), before the attribute is stored. *)
Definition check_component_index (fuel : nat) (parameter_path : string)
    (component_index : option nat) : M unit :=
  match component_index with
  | None => sret tt
  | Some i =>
      do* parameter := model_get fuel parameter_path in
      match parameter with
      | VSeq l =>
          if bool_decide (Z.of_nat i > Z.of_nat (length l) - 1)
          then sraise (CADETProcessError "Index exceeds components")
          else sret tt
      | VNum _ => sraise (TypeError "object of type 'float' has no len()")
      end
  end.

(** [Event.__init__]: the new object, not yet known to the handler. *)
Definition Event_init (fuel : nat) (name parameter_path : string)
    (state time : pyval) (component_index : option nat) : M Event :=
  do* h := sread (fun w => Ok (handler w)) in
  if negb (bool_decide (parameter_path ∈ section_dependent_parameters h))
  then sraise (CADETProcessError "Not a valid event parameter")
  else
    do* _ := check_component_index fuel parameter_path component_index in
    do* st := write_state fuel parameter_path component_index state in
    match time with
    | VNum t =>
        sret (mkEvent name parameter_path component_index st t [] []
                      ["time"; "state"] None None)
    | VSeq _ => sraise (TypeError "Expected <class 'float'>")
    end.

Definition as_duration (e : Event) (start_event end_event : ref) : Event :=
  mkEvent (name e) (parameter_path e) (component_index e)
          (_state e) (_time e) (_dependencies e) (_factors e)
          ["time"] (Some start_event) (Some end_event).

(** [Duration.__init__] *)
Definition Duration_init (fuel : nat) (name : string) (start_event end_event : ref)
    (time : pyval) : M Event :=
  do* s := sread (fun w => deref w start_event) in
  do* e := Event_init fuel name (parameter_path s) (_state s) time
                      (component_index s) in
  sret (as_duration e start_event end_event).

Definition alloc (e : Event) : M ref :=
  fun w =>
    let r := fresh (dom (heap w)) in
    (store_event w r e, Ok r).

Definition append_event (r : ref) : M unit :=
  fun w =>
    let h := handler w in
    (with_handler w
       (mkHandler (cycle_time h) (_events h ++ [r]) (_durations h)
                  (section_dependent_parameters h) (polynomial_parameters h)
                  (__dict__ h)),
     Ok tt).

Definition append_duration (r : ref) : M unit :=
  fun w =>
    let h := handler w in
    (with_handler w
       (mkHandler (cycle_time h) (_events h) (_durations h ++ [r])
                  (section_dependent_parameters h) (polynomial_parameters h)
                  (__dict__ h)),
     Ok tt).

(** The properties that the class [EventHandler] defines without a
    setter. *)
Definition read_only_properties : list string :=
  ["events"; "events_dict"; "durations"; "independent_events";
   "dependent_events"; "independent_durations"; "dependent_durations";
   "event_times"; "event_parameters"; "event_performers"; "section_times";
   "n_sections"; "section_states"; "parameter_events"; "parameter_timelines";
   "performer_events"; "performer_timelines"].

(** The attributes of the handler that the model holds in fields of their
    own: the two lists of the instance, and the two parameter sets that the
    process class supplies. *)
Definition own_attributes : list string :=
  ["_events"; "_durations"; "section_dependent_parameters";
   "polynomial_parameters"].

(** The attributes of every object that take an assignment for themselves
    and refuse an event. *)
Definition object_attributes : list string :=
  ["__class__"; "__dict__"; "__weakref__"].

(** The names that [EventHandler] uses itself. The process class that
    completes it adds its own, which are not among the sources. *)
Definition reserved_names : list string :=
  read_only_properties ++ ["parameters"; "cycle_time"] ++ own_attributes
  ++ object_attributes.

(** [super().__setattr__(name, value)] in a method of the handler, which is
    [object.__setattr__], for an event as value. A data descriptor of the
    class takes the assignment for itself: a property without a setter
    refuses it; the setter of [parameters] calls [pop] on the event, which
    has no such attribute; and [cycle_time] accepts numbers only (the
    descriptor [UnsignedFloat], see [set_cycle_time]); [__class__] and
    [__dict__] take a class and a dictionary only, and [__weakref__] cannot
    be written. A name that the model holds in a field of its own would
    replace or hide what that field stands for, which the model cannot
    express. Every other name, also that of a method, is bound in the
    instance dictionary. *)
Definition object_setattr (name : string) (value : ref) : M unit :=
  if bool_decide (name ∈ read_only_properties)
  then sraise (AttributeError "can't set attribute")
  else if decide (name = "parameters")
  then sraise (AttributeError "'Event' object has no attribute 'pop'")
  else if decide (name = "cycle_time")
  then sraise (TypeError "Expected float")
  else if decide (name = "__class__")
  then sraise (TypeError "__class__ must be set to a class, not 'Event' object")
  else if decide (name = "__dict__")
  then sraise (TypeError "__dict__ must be set to a dictionary, not a 'Event'")
  else if decide (name = "__weakref__")
  then sraise (AttributeError "attribute '__weakref__' is not writable")
  else if bool_decide (name ∈ own_attributes) then sraise NotModelled
  else fun w =>
    let h := handler w in
    (with_handler w
       (mkHandler (cycle_time h) (_events h) (_durations h)
                  (section_dependent_parameters h) (polynomial_parameters h)
                  (<[name := value]> (__dict__ h))),
     Ok tt).

(** [EventHandler.add_event] *)
Definition add_event (fuel : nat) (name parameter_path : string)
    (state time : pyval) (component_index : option nat) : M ref :=
  do* d := sread (events_dict fuel) in
  if dict_mem name d then sraise (CADETProcessError "Event already exists")
  else
    do* e := Event_init fuel name parameter_path state time component_index in
    do* evt := alloc e in
    do* _ := append_event evt in
    do* _ := object_setattr name evt in
    sret evt.

(** [EventHandler.add_duration] *)
Definition add_duration (fuel : nat) (name start_event end_event : string)
    (time : pyval) : M unit :=
  do* d := sread (events_dict fuel) in
  if dict_mem name d then sraise (CADETProcessError "Duration already exists")
  else
    do* start_event :=
      sread (fun w =>
               except_KeyError
                 (let* d := events_dict fuel w in dict_item d start_event)
                 (CADETProcessError "Start event does not exist")) in
    do* end_event :=
      sread (fun w =>
               except_KeyError
                 (let* d := events_dict fuel w in dict_item d end_event)
                 (CADETProcessError "End event does not exist")) in
    do* s := sread (fun w => deref w start_event) in
    do* e := sread (fun w => deref w end_event) in
    if bool_decide (parameter_path s ≠ parameter_path e)
    then sraise (CADETProcessError "Event parameters don't match")
    else
      do* d := Duration_init fuel name start_event end_event time in
      do* dur := alloc d in
      do* _ := append_duration dur in
      object_setattr name dur.

(** ** Dependencies between registered events *)

(** [EventHandler.add_event_dependency]. [independent_events] and [factors]
    are lists: the source wraps a single name or factor into one. *)
Definition add_event_dependency (fuel : nat) (dependent_event : string)
    (independent_events : list string) (factors : option (list Z)) : M unit :=
  do* evt :=
    sread (fun w =>
             except_KeyError
               (let* d := events_dict fuel w in dict_item d dependent_event)
               (CADETProcessError "Cannot find dependent Event")) in
  do* d := sread (events_dict fuel) in
  if negb (forallb (fun indep => dict_mem indep d) independent_events)
  then sraise (CADETProcessError "Cannot find one or more independent events")
  else
    let factors :=
      match factors with
      | None => replicate (length independent_events) 1
      | Some fs => fs
      end in
    if bool_decide (length factors ≠ length independent_events)
    then sraise (CADETProcessError
                   "Length of factors must be equal to length of independent Events")
    else
      sfor (zip independent_events factors) (fun indep_fac =>
        do* indep :=
          sread (fun w =>
                   let* d := events_dict fuel w in dict_item d indep_fac.1) in
        Event_add_dependency evt indep indep_fac.2).

(** [EventHandler.remove_event_dependency] *)
Definition remove_event_dependency (fuel : nat) (dependent_event : pyobj)
    (independent_events : list string) : M unit :=
  do* evs := sread (events fuel) in
  if negb (py_in dependent_event (ORef <$> evs))
  then sraise (CADETProcessError "Cannot find dependent Event")
  else
    do* d := sread (events_dict fuel) in
    if negb (forallb (fun evt => dict_mem evt d) independent_events)
    then sraise (CADETProcessError "Cannot find one or more independent events")
    else
      sfor independent_events (fun indep =>
        do* evt :=
          sread (fun w =>
                   let* evs := events fuel w in
                   py_list_item evs dependent_event) in
        Event_remove_dependency evt (OStr indep)).

(** ** Example handlers *)

(** The world that a mutator leaves behind. *)
Definition exec {A} (m : M A) (w : World) : World := (m w).1.

(** A handler without events, with cycle time 10, over a process model with
    two section-dependent parameters. *)
Definition empty_world : World :=
  mkWorld ∅
          (mkHandler 10 [] [] ["unit.flow_rate"; "unit.c"] [] ∅)
          (<["unit.flow_rate" := VNum 0]> (<["unit.c" := VNum 0]> ∅)).

(** Events [X] (time 12) and [Y] (time 5) on one parameter, [D] on the
    other. *)
Definition world_XYD : World :=
  exec (add_event 5 "D" "unit.c" (VNum 3) (VNum 0) None)
    (exec (add_event 5 "Y" "unit.flow_rate" (VNum 2) (VNum 5) None)
       (exec (add_event 5 "X" "unit.flow_rate" (VNum 1) (VNum 12) None)
          empty_world)).

(** [D] depends on [X] and [Y] with factors [1] and [-1]. *)
Definition world_dependent : World :=
  exec (add_event_dependency 5 "D" ["X"; "Y"] (Some [1; -1])) world_XYD.

(** ** The timeline, in the words of the specification *)

(** "Each consecutive pair [(evt_i, evt_{i+1})] yields one section
    [[evt_i.time, evt_{i+1}.time)] holding [evt_i.state]." *)
Fixpoint pair_sections (SectionClass : bool) (events : list (Z * pyval))
  : list Section :=
  match events with
  | evt :: (next :: _) as rest =>
      mkSection SectionClass evt.1 next.1 evt.2
        :: pair_sections SectionClass rest
  | _ => []
  end.

(** "The last event yields a section [[last.time, cycle_time)] holding
    [last.state]; additionally, if the first event's time is not [0], a
    wrap-around section [[0, first.time)] holding the last event's state is
    also added." The sections are listed in the order of time. *)
Definition timeline_of (SectionClass : bool) (cycle_time : Z)
    (events : list (Z * pyval)) : TimeLine :=
  match head events, last events with
  | Some first, Some final =>
      (if bool_decide (first.1 ≠ 0)
       then [mkSection SectionClass 0 first.1 final.2] else [])
      ++ pair_sections SectionClass events
      ++ [mkSection SectionClass final.1 cycle_time final.2]
  | _, _ => []
  end.

(** The events of [evs] that change the parameter [path]. *)
Definition events_of_parameter (w : World) (path : string) (evs : list ref)
  : list ref :=
  filter (fun r => parameter_path <$> heap w !! r = Some path) evs.

(** Three events on one parameter at the times 2, 5 and 8. *)
Definition world_258 : World :=
  exec (add_event 5 "third" "unit.flow_rate" (VNum 30) (VNum 8) None)
    (exec (add_event 5 "second" "unit.flow_rate" (VNum 20) (VNum 5) None)
       (exec (add_event 5 "first" "unit.flow_rate" (VNum 10) (VNum 2) None)
          empty_world)).

(** The time of an event whose time can be read. *)
Definition time_of (fuel : nat) (w : World) (r : ref) : Z :=
  match Event_time fuel w r with
  | Ok t => t
  | Raise _ => 0
  end.

(** ** Statements about whole calls *)

(** A call of [add_event_dependency] is atomic when, if it raises, it leaves
    the store as it found it. *)
Definition add_event_dependency_atomic (fuel : nat) (dependent_event : string)
    (independent_events : list string) (factors : option (list Z))
    (w : World) : Prop :=
  ∀ e,
    (add_event_dependency fuel dependent_event independent_events factors w).2
      = Raise e →
    (add_event_dependency fuel dependent_event independent_events factors w).1
      = w.

(** The factors that [add_event_dependency] works with. *)
Definition effective_factors (independent_events : list string)
    (factors : option (list Z)) : list Z :=
  match factors with
  | None => replicate (length independent_events) 1
  | Some fs => fs
  end.

(** ** The round trip through [parameters] *)

(** What the round trip does to an event that it writes: the stored time
    becomes the resolved time. *)
Definition normalise (c : Z) (S : list ref) (r : ref) (e : Event) : Event :=
  if bool_decide (r ∈ S) then with_time e (_time e mod c) else e.

(** The world in which the events [S] have been written back and the
    parameter tree of the process model is [m]. *)
Definition norm_world (S : list ref) (m : gmap string pyval) (w : World) : World :=
  mkWorld (map_imap (fun r e => Some (normalise (cycle_time (handler w)) S r e))
                    (heap w))
          (handler w) m.

(** The events and durations that the handler holds, and their names. *)
Definition registered (w : World) : list ref :=
  _events (handler w) ++ _durations (handler w).

Definition name_of (w : World) (r : ref) : string :=
  default "" (name <$> heap w !! r).



Definition rmap {A B} (f : A → B) (m : result A) : result B :=
  match m with
  | Ok a => Ok (f a)
  | Raise e => Raise e
  end.


(** ** Removal *)

(** [l.remove(x)]: the list without the first occurrence of [x]; a
    [ValueError] when there is none. *)
Fixpoint remove_first (x : ref) (l : list ref) : option (list ref) :=
  match l with
  | [] => None
  | y :: l' =>
      if decide (y = x) then Some l' else (y ::.) <$> remove_first x l'
  end.

Definition py_list_remove (x : ref) (l : list ref) : result (list ref) :=
  match remove_first x l with
  | Some l' => Ok l'
  | None => Raise (ValueError "list.remove(x): x not in list")
  end.

Definition set_events (l : list ref) : M unit :=
  fun w =>
    let h := handler w in
    (with_handler w
       (mkHandler (cycle_time h) l (_durations h)
                  (section_dependent_parameters h) (polynomial_parameters h)
                  (__dict__ h)),
     Ok tt).

Definition set_durations (l : list ref) : M unit :=
  fun w =>
    let h := handler w in
    (with_handler w
       (mkHandler (cycle_time h) (_events h) l
                  (section_dependent_parameters h) (polynomial_parameters h)
                  (__dict__ h)),
     Ok tt).

(** The attributes that the instance dictionary of the Python object holds
    and that the model keeps in fields of their own: the two lists, and the
    cycle time, which its descriptor stores for the instance. *)
Definition instance_attributes : list string :=
  ["_events"; "_durations"; "cycle_time"].

(** [self.__dict__.pop(name)]: the attribute is taken out of the instance
    dictionary, and a name that is not in it raises [KeyError]. The model
    cannot express the removal of an attribute that it keeps in a field of
    its own. *)
Definition dict_pop (name : string) : M unit :=
  if bool_decide (name ∈ instance_attributes) then sraise NotModelled
  else fun w =>
    let h := handler w in
    match __dict__ h !! name with
    | Some _ =>
        (with_handler w
           (mkHandler (cycle_time h) (_events h) (_durations h)
                      (section_dependent_parameters h)
                      (polynomial_parameters h)
                      (delete name (__dict__ h))),
         Ok tt)
    | None => (w, Raise (KeyError name))
    end.

(** [EventHandler.remove_event] *)
Definition remove_event (fuel : nat) (evt_name : string) : M unit :=
  do* evt :=
    sread (fun w =>
             except_KeyError
               (let* d := events_dict fuel w in dict_item d evt_name)
               (CADETProcessError "Event does not exist")) in
  do* l := sread (fun w => py_list_remove evt (_events (handler w))) in
  do* _ := set_events l in
  dict_pop evt_name.

(** [EventHandler.remove_duration] *)
Definition remove_duration (fuel : nat) (duration_name : string) : M unit :=
  do* dur :=
    sread (fun w =>
             except_KeyError
               (let* d := events_dict fuel w in dict_item d duration_name)
               (CADETProcessError "Duration does not exist")) in
  do* l := sread (fun w => py_list_remove dur (_durations (handler w))) in
  do* _ := set_durations l in
  dict_pop duration_name.

(** [EventHandler.event_parameters]: the set of the parameter paths of the
    events, as a list. *)
Definition event_parameters (fuel : nat) (w : World) : result (list string) :=
  let* evs := events fuel w in
  let* es := mapR (fun r => let* e := deref w r in Ok (r, e)) evs in
  Ok (elements (list_to_set ((fun re => parameter_path re.2) <$> es)
                  : gset string)).

(** ** The carousel builder *)

(** [CarouselBuilder.unit_index], on one carousel position, an integer: on
    the array of positions that [add_events] passes, the remainder is taken
    for each position. *)
Definition unit_index (n_columns carousel_position carousel_state : Z)
  : result Z :=
  py_mod (carousel_position + carousel_state) n_columns.

(** ** Relations between the worlds before and after a call *)

(** The event [e'] is [e] with dependencies and as many factors added at the
    end. *)
Definition extends (e e' : Event) : Prop :=
  ∃ ds fs,
    length ds = length fs
    ∧ e' = with_dependencies e (_dependencies e ++ ds) (_factors e ++ fs)
    ∧ (NoDup (_dependencies e) → NoDup (_dependencies e')).

(** The world [w'] is [w] with dependencies added to some events. *)
Definition grows (w w' : World) : Prop :=
  handler w' = handler w
  ∧ model w' = model w
  ∧ ∀ r, option_Forall2 extends (heap w !! r) (heap w' !! r).

(** Every event pairs its dependencies with its factors, and names no
    dependency twice. *)
Definition paired (w : World) : Prop :=
  map_Forall (fun _ e =>
                length (_dependencies e) = length (_factors e)
                ∧ NoDup (_dependencies e)) (heap w).

(** The elements of [l] whose key is [k], in their order. *)
Definition with_key {A} (key : A → Z) (k : Z) (l : list A) : list A :=
  filter (fun x => key x = k) l.

(** The event [r] names [d] among its dependencies. *)
Definition depends_on (w : World) (r d : ref) : Prop :=
  ∃ e, heap w !! r = Some e ∧ d ∈ _dependencies e.

(** The handler of [world_XYD] with a duration between [X] and [Y]. *)
Definition world_duration : World :=
  exec (add_duration 5 "span" "X" "Y" (VNum 3)) world_XYD.

(** ** What the constructors leave behind *)

(** The event that [Event.__init__] returns without a component index. *)
Definition new_event (name parameter_path : string) (state : pyval) (time : Z)
  : Event :=
  mkEvent name parameter_path None state time [] [] ["time"; "state"] None None.

(** The world after [obj] was created at [r], with the handler [h] and with
    [state] written to the process model at [path]. *)
Definition constructed (w : World) (r : ref) (obj : Event) (h : EventHandler)
    (path : string) (state : pyval) : World :=
  mkWorld (<[r := obj]> (heap w)) h (<[path := state]> (model w)).

(** ** The performer of an event *)

(** [s.split(sep)] for a separator of one character. *)
Fixpoint py_split (sep : Ascii.ascii) (s : string) : list string :=
  match s with
  | EmptyString => [EmptyString]
  | String c s' =>
      if decide (c = sep) then EmptyString :: py_split sep s'
      else match py_split sep s' with
           | [] => [String c EmptyString]
           | x :: l => String c x :: l
           end
  end.

(** [sep.join(l)] *)
Fixpoint py_join (sep : string) (l : list string) : string :=
  match l with
  | [] => EmptyString
  | x :: l' =>
      match l' with
      | [] => x
      | _ => x +:+ sep +:+ py_join sep l'
      end
  end.

(** [Event.parameter_sequence] *)
Definition parameter_sequence (e : Event) : list string :=
  py_split "."%char (parameter_path e).

(** [Event.performer] *)
Definition performer (e : Event) : string :=
  if bool_decide (length (parameter_sequence e) = 1%nat)
  then default EmptyString (head (parameter_sequence e))
  else py_join "." (removelast (parameter_sequence e)).

(** [c in s] for a character. *)
Fixpoint occurs (c : Ascii.ascii) (s : string) : bool :=
  match s with
  | EmptyString => false
  | String c' s' => bool_decide (c' = c) || occurs c s'
  end.

(** ** Numbers: integers and floats *)

(** The numbers of the handler model are integers. Python keeps a time as it
    is given, an [int] or a [float], and the cycle time as a [float], so the
    remainder in [Event.time] is the remainder of floats. On integers that a
    float holds exactly, those of magnitude up to [2 ^ 53], the operations of
    the event code on floats are exact and agree with those on integers; on
    other floats they round. [exact_world] says that every number that
    reading a time computes is such an integer: the cycle time, the stored
    times, and the linear combinations, which the cycle time times the sum of
    the magnitudes of the factors bounds. *)
Definition exact (z : Z) : bool := (- 2 ^ 53 <=? z) && (z <=? 2 ^ 53).

Definition sum_abs (fs : list Z) : Z := foldr (fun f s => Z.abs f + s) 0 fs.

Definition exact_event (c : Z) (e : Event) : bool :=
  exact (_time e) && exact (c * sum_abs (_factors e)).

Definition exact_world (w : World) : Prop :=
  exact (cycle_time (handler w)) = true
  ∧ map_Forall (fun _ e => exact_event (cycle_time (handler w)) e = true)
               (heap w).

(** [math.fmod(x, y)] of C on binary64, which [float.__mod__] calls: the
    remainder of the division whose quotient is rounded towards zero. It has
    the sign of [x] and is computed without rounding. *)
Definition fmod (x y : float) : float :=
  match Prim2SF x, Prim2SF y with
  | S754_nan, _ | _, S754_nan | S754_infinity _, _ | _, S754_zero _ => nan
  | S754_zero _, _ | _, S754_infinity _ => x
  | S754_finite sx mx ex, S754_finite _ my ey =>
      let e := Z.min ex ey in
      let r := (Zpos mx * 2 ^ (ex - e)) mod (Zpos my * 2 ^ (ey - e)) in
      SF2Prim (binary_normalize prec emax (if sx then - r else r) e sx)
  end.

(** [a % c] on floats: [fmod], moved by [c] when it is not zero and its sign
    is not that of [c]; the sum is rounded. *)
Definition py_float_mod (a c : float) : result float :=
  if (c =? 0)%float then Raise ZeroDivisionError
  else
    let mod_ := fmod a c in
    if (mod_ =? 0)%float
    then Ok (if (c <? 0)%float then (- 0)%float else 0%float)
    else if xorb (c <? 0)%float (mod_ <? 0)%float
         then Ok (mod_ + c)%float
         else Ok mod_.

(** [Event.time] (getter) of an event without dependencies whose stored time
    and whose cycle time are floats. *)
Definition Event_time_float (stored_time cycle_time : float) : result float :=
  let time := stored_time in
  py_float_mod time cycle_time.

(** The integer [z] as a float. *)
Definition float_of_Z (z : Z) : float :=
  SF2Prim (binary_normalize prec emax z 0 false).


(** * Properties *)

(** ** Results and loops *)

Lemma rbind_Ok {A B} (m : result A) (k : A → result B) (b : B) :
  rbind m k = Ok b ↔ ∃ a, m = Ok a ∧ k a = Ok b.
Proof.
  destruct m as [a|e]; simpl; split.
  - intros H. by exists a.
  - by intros (a' & [= <-] & H).
  - discriminate.
  - by intros (a' & [=] & _).
Qed.

Lemma mapR_Ok {A B} (f : A → result B) (l : list A) (k : list B) :
  mapR f l = Ok k ↔ Forall2 (fun x y => f x = Ok y) l k.
Proof.
  revert k. induction l as [|x l IH]; intros k; simpl.
  - split; [intros [= <-]; constructor | by inversion 1].
  - rewrite rbind_Ok. split.
    + intros (y & Hy & H). apply rbind_Ok in H as (ys & Hys & [= <-]).
      constructor; [done | by apply IH].
    + inversion 1 as [|? y ? ys Hy Hys]; subst. exists y. split; [done |].
      apply rbind_Ok. exists ys. split; [by apply IH | done].
Qed.

Lemma mapR_ext {A B} (f g : A → result B) (l : list A) :
  (∀ x, x ∈ l → f x = g x) → mapR f l = mapR g l.
Proof.
  induction l as [|x l IH]; intros H; simpl; [done |].
  rewrite (H x) by left. rewrite IH; [done |].
  intros y Hy. apply H. by right.
Qed.

Lemma mapR_length {A B} (f : A → result B) (l : list A) (k : list B) :
  mapR f l = Ok k → length k = length l.
Proof. rewrite mapR_Ok. intros H. symmetry. by eapply Forall2_length. Qed.

(** ** The time resolver *)

Lemma py_mod_Ok (a c t : Z) : py_mod a c = Ok t ↔ c ≠ 0 ∧ t = a mod c.
Proof.
  unfold py_mod. destruct (decide (c = 0)); split.
  - discriminate.
  - by intros [? _].
  - by intros [= <-].
  - by intros [_ ->].
Qed.

Lemma Event_time_unfold (fuel : nat) (w : World) (r : ref) :
  Event_time (S fuel) w r =
    let* e := deref w r in
    let* time :=
      (if isIndependent e then Ok (_time e)
       else
         let* ts := mapR (Event_time fuel w) (_dependencies e) in
         np_dot ts (_factors e)) in
    py_mod time (cycle_time (handler w)).
Proof. reflexivity. Qed.

Lemma Event_time_nonzero (fuel : nat) (w : World) (r : ref) (t : Z) :
  Event_time fuel w r = Ok t → cycle_time (handler w) ≠ 0.
Proof.
  destruct fuel as [|n]; [discriminate |]. rewrite Event_time_unfold.
  intros H. apply rbind_Ok in H as (e & _ & H).
  apply rbind_Ok in H as (time & _ & H). by apply py_mod_Ok in H as [? _].
Qed.

Lemma Event_time_bounds (fuel : nat) (w : World) (r : ref) (t : Z) :
  0 < cycle_time (handler w) →
  Event_time fuel w r = Ok t →
  0 ≤ t < cycle_time (handler w).
Proof.
  intros Hc. destruct fuel as [|n]; [discriminate |]. rewrite Event_time_unfold.
  intros H. apply rbind_Ok in H as (e & _ & H).
  apply rbind_Ok in H as (time & _ & H). apply py_mod_Ok in H as [_ ->].
  by apply Z.mod_pos_bound.
Qed.

Lemma deref_Some (w : World) (r : ref) (e : Event) :
  heap w !! r = Some e → deref w r = Ok e.
Proof. unfold deref. by intros ->. Qed.

Lemma deref_Ok (w : World) (r : ref) (e : Event) :
  deref w r = Ok e ↔ heap w !! r = Some e.
Proof.
  unfold deref. destruct (heap w !! r); split; intros H; by inversion H.
Qed.

Lemma isIndependent_true (e : Event) :
  isIndependent e = true ↔ _dependencies e = [].
Proof.
  unfold isIndependent. rewrite bool_decide_eq_true. by destruct (_dependencies e).
Qed.

Lemma isIndependent_false (e : Event) :
  isIndependent e = false ↔ _dependencies e ≠ [].
Proof.
  unfold isIndependent. rewrite bool_decide_eq_false. by destruct (_dependencies e).
Qed.

Lemma Event_time_independent (fuel : nat) (w : World) (r : ref) (e : Event) :
  heap w !! r = Some e →
  _dependencies e = [] →
  cycle_time (handler w) ≠ 0 →
  Event_time (S fuel) w r = Ok (_time e mod cycle_time (handler w)).
Proof.
  intros Hr Hd Hc. rewrite Event_time_unfold, (deref_Some _ _ _ Hr). simpl.
  apply isIndependent_true in Hd. rewrite Hd. simpl.
  by apply py_mod_Ok.
Qed.

Lemma Event_time_linear (fuel : nat) (w : World) (r : ref) (e : Event)
    (ts : list Z) :
  heap w !! r = Some e →
  _dependencies e ≠ [] →
  length (_factors e) = length (_dependencies e) →
  Forall2 (fun d t => Event_time fuel w d = Ok t) (_dependencies e) ts →
  Event_time (S fuel) w r = Ok (dot ts (_factors e) mod cycle_time (handler w)).
Proof.
  intros Hr Hd Hlen Hts.
  assert (cycle_time (handler w) ≠ 0) as Hc.
  { destruct Hts as [|d t ds ts' Ht _]; [done |]. by eapply Event_time_nonzero. }
  rewrite Event_time_unfold, (deref_Some _ _ _ Hr). simpl.
  apply isIndependent_false in Hd. rewrite Hd.
  apply mapR_Ok in Hts as Hmap. rewrite Hmap. simpl.
  unfold np_dot. rewrite decide_True.
  - simpl. by apply py_mod_Ok.
  - apply Forall2_length in Hts. lia.
Qed.

(** Fuel only bounds the depth: a read that returns keeps its value when
    more depth is allowed. *)
Lemma Event_time_mono (n m : nat) (w : World) (r : ref) (t : Z) :
  (n ≤ m)%nat → Event_time n w r = Ok t → Event_time m w r = Ok t.
Proof.
  revert m r t. induction n as [|n IH]; intros m r t Hle; [discriminate |].
  destruct m as [|m]; [lia |]. rewrite !Event_time_unfold.
  intros H. apply rbind_Ok in H as (e & He & H). rewrite He. simpl.
  apply rbind_Ok in H as (time & Htime & H).
  destruct (isIndependent e).
  - by rewrite Htime.
  - apply rbind_Ok in Htime as (ts & Hts & Hdot).
    assert (mapR (Event_time m w) (_dependencies e) = Ok ts) as ->.
    { apply mapR_Ok. apply mapR_Ok in Hts.
      eapply Forall2_impl; [exact Hts |]. intros d t' Hd. apply IH; [lia | done]. }
    simpl. by rewrite Hdot.
Qed.

(** Setting the time of an independent event. *)
Lemma Event_set_time_independent (w : World) (X : ref) (ex : Event) (t : Z) :
  heap w !! X = Some ex →
  _dependencies ex = [] →
  Event_set_time X (VNum t) w = (store_event w X (with_time ex t), Ok tt).
Proof.
  intros HX Hd. unfold Event_set_time, sbind, sread.
  rewrite (deref_Some _ _ _ HX). apply isIndependent_true in Hd. by rewrite Hd.
Qed.

Lemma Forall2_exists_r {A B} (P Q : A → B → Prop) (l : list A) (k : list B) :
  Forall2 P l k →
  (∀ x y, P x y → ∃ y', Q x y') →
  ∃ k', Forall2 Q l k'.
Proof.
  intros H HPQ. induction H as [|x y l k Hxy _ [k' IH]].
  - by exists [].
  - destruct (HPQ x y Hxy) as [y' Hy']. exists (y' :: k'). by constructor.
Qed.

(** A write to the time of an independent event changes the values that
    reads return, never whether they return. *)
Lemma set_time_keeps_resolution (fuel : nat) (w : World) (X : ref) (ex : Event)
    (t' : Z) (d : ref) (t : Z) :
  heap w !! X = Some ex →
  _dependencies ex = [] →
  Event_time fuel w d = Ok t →
  ∃ t2, Event_time fuel (store_event w X (with_time ex t')) d = Ok t2.
Proof.
  intros HX Hdx. revert d t.
  induction fuel as [|n IH]; intros d t; [discriminate |].
  intros H. pose proof (Event_time_nonzero _ _ _ _ H) as Hc.
  rewrite Event_time_unfold in H. apply rbind_Ok in H as (e & He & H).
  apply deref_Ok in He. apply rbind_Ok in H as (time & Htime & _).
  destruct (decide (d = X)) as [-> | Hne].
  - eexists. apply Event_time_independent with (e := with_time ex t').
    + simpl. apply lookup_insert_eq.
    + done.
    + done.
  - assert (heap (store_event w X (with_time ex t')) !! d = Some e) as He'.
    { simpl. by rewrite lookup_insert_ne. }
    destruct (isIndependent e) eqn:Hi.
    + eexists. apply Event_time_independent with (e := e); [done | | done].
      by apply isIndependent_true.
    + apply rbind_Ok in Htime as (ts & Hts & Hdot).
      apply mapR_Ok in Hts.
      destruct (Forall2_exists_r _
                  (fun d t => Event_time n (store_event w X (with_time ex t')) d = Ok t)
                  _ _ Hts IH) as [ts' Hts'].
      eexists. apply Event_time_linear with (e := e) (ts := ts').
      * done.
      * by apply isIndependent_false.
      * unfold np_dot in Hdot. case_decide; [|discriminate].
        apply Forall2_length in Hts. lia.
      * done.
Qed.

(** C1. A dependent event with dependencies [d_1..d_n] and factors
    [f_1..f_n] reads its time as the sum of [f_k * d_k.time] modulo the
    cycle time, where every [d_k.time] is itself a read; for dependencies
    [X, Y] and factors [1, -1] that is [(X.time - Y.time) mod cycle_time];
    and after the time of an independent [X] is set, the very next read of
    the dependent event returns the value for the new time of [X]. *)
Theorem dependent_time_is_linear_combination
    (fuel : nat) (w : World) (r : ref) (e : Event) (ts : list Z) :
  heap w !! r = Some e →
  _dependencies e ≠ [] →
  length (_factors e) = length (_dependencies e) →
  Forall2 (fun d t => Event_time fuel w d = Ok t) (_dependencies e) ts →
  Event_time (S fuel) w r = Ok (dot ts (_factors e) mod cycle_time (handler w))
  ∧ (∀ X Y tx ty,
       _dependencies e = [X; Y] → _factors e = [1; -1] → ts = [tx; ty] →
       Event_time (S fuel) w r = Ok ((tx - ty) mod cycle_time (handler w)))
  ∧ (∀ X Y ex t',
       _dependencies e = [X; Y] → _factors e = [1; -1] →
       heap w !! X = Some ex → _dependencies ex = [] →
       (Event_set_time X (VNum t') w).2 = Ok tt
       ∧ ∃ ty',
           Event_time fuel (Event_set_time X (VNum t') w).1 Y = Ok ty'
           ∧ Event_time (S fuel) (Event_set_time X (VNum t') w).1 r
             = Ok ((t' mod cycle_time (handler w) - ty')
                   mod cycle_time (handler w))).
Proof.
  intros Hr Hd Hlen Hts. split; [by apply Event_time_linear |]. split.
  - intros X Y tx ty HXY Hf ->.
    rewrite (Event_time_linear fuel w r e [tx; ty]) by done.
    rewrite Hf. simpl. do 2 f_equal. lia.
  - intros X Y ex t' HXY Hf HX Hdx.
    rewrite (Event_set_time_independent _ _ _ _ HX Hdx). cbn [fst snd].
    split; [done |].
    rewrite HXY in Hts.
    apply Forall2_cons_inv_l in Hts as (tx & ts1 & Htx & Hts & ->).
    apply Forall2_cons_inv_l in Hts as (ty & ts2 & Hty & Hts & ->).
    apply Forall2_nil_inv_l in Hts as ->.
    destruct (set_time_keeps_resolution fuel w X ex t' Y ty HX Hdx Hty)
      as [ty' Hty'].
    exists ty'. split; [done |].
    set (w' := store_event w X (with_time ex t')).
    assert (r ≠ X) as Hne.
    { intros ->. rewrite HX in Hr. injection Hr as ->. by rewrite Hdx in Hd. }
    assert (heap w' !! r = Some e) as Hr'.
    { subst w'. simpl. by rewrite lookup_insert_ne. }
    assert (Event_time fuel w' X = Ok (t' mod cycle_time (handler w))) as HtX.
    { destruct fuel as [|n]; [discriminate |].
      apply (Event_time_independent n w' X (with_time ex t')).
      - subst w'. simpl. apply lookup_insert_eq.
      - done.
      - by eapply Event_time_nonzero. }
    rewrite (Event_time_linear fuel w' r e [t' mod cycle_time (handler w); ty']).
    + rewrite Hf. subst w'. simpl. do 2 f_equal. lia.
    + done.
    + done.
    + done.
    + rewrite HXY. by repeat constructor.
Qed.

Lemma dependent_time_is_linear_combination_witness :
  Event_time 2 world_dependent 2%nat = Ok 7
  ∧ Event_time 2 (exec (Event_set_time 0%nat (VNum 29)) world_dependent) 2%nat
    = Ok 4.
Proof.
  pose proof (dependent_time_is_linear_combination 1 world_dependent 2%nat
    (mkEvent "D" "unit.c" None (VNum 3) 0 [0%nat; 1%nat] [1; -1]
             ["time"; "state"] None None)
    [2; 5] eq_refl ltac:(discriminate) eq_refl
    ltac:(repeat constructor)) as (H1 & _ & H3).
  split; [exact H1 |].
  destruct (H3 0%nat 1%nat
    (mkEvent "X" "unit.flow_rate" None (VNum 1) 12 [] []
             ["time"; "state"] None None) 29 eq_refl eq_refl eq_refl eq_refl)
    as (_ & ty' & Hy & Hr).
  vm_compute in Hy. injection Hy as <-. exact Hr.
Defined.

(** The remainder of floats is the remainder of integers on the integers of
    the examples: for the cycle times 1 to 12 and the stored times -40 to 40
    the getter on floats returns the float of the integer remainder. *)
Example float_time_agrees_on_small_integers :
  forallb (fun c =>
    forallb (fun t =>
      match Event_time_float (float_of_Z t) (float_of_Z c) with
      | Ok r => (r =? float_of_Z (t mod c))%float
      | Raise _ => false
      end) (seqZ (-40) 81)) (seqZ 1 12) = true.
Proof. by vm_compute. Qed.




(** C7. Assigning a number to the time of an event that has dependencies
    raises "Cannot set time for dependent events" and changes nothing: the
    store is the one before the attempt, and so are the resolved time and the
    stored state of the event. *)
Theorem set_time_of_dependent_fails
    (w : World) (self : ref) (e : Event) (t : Z) :
  heap w !! self = Some e →
  _dependencies e ≠ [] →
  Event_set_time self (VNum t) w
    = (w, Raise (CADETProcessError "Cannot set time for dependent events"))
  ∧ (∀ fuel, Event_time fuel (Event_set_time self (VNum t) w).1 self
             = Event_time fuel w self)
  ∧ _state <$> heap (Event_set_time self (VNum t) w).1 !! self = Some (_state e).
Proof.
  intros Hr Hd.
  assert (Event_set_time self (VNum t) w
    = (w, Raise (CADETProcessError "Cannot set time for dependent events"))) as ->.
  { unfold Event_set_time, sbind, sread. rewrite (deref_Some _ _ _ Hr).
    apply isIndependent_false in Hd. by rewrite Hd. }
  simpl. by rewrite Hr.
Qed.

Lemma set_time_of_dependent_fails_witness :
  Event_set_time 2%nat (VNum 4) world_dependent
    = (world_dependent,
       Raise (CADETProcessError "Cannot set time for dependent events")).
Proof.
  apply (set_time_of_dependent_fails world_dependent 2%nat
    (mkEvent "D" "unit.c" None (VNum 3) 0 [0%nat; 1%nat] [1; -1]
             ["time"; "state"] None None) 4 eq_refl ltac:(discriminate)).
Defined.

(** ** Dependencies *)

(** C6. [Event.remove_dependency] on the code: with the dependency [X]
    present in the list of [D] the call raises "Dependency not found" and
    removes nothing; with a dependency that is absent it raises a
    [TypeError], because the list is called like a function. No call
    succeeds. *)
Theorem remove_dependency_is_inverted :
  Event_remove_dependency 2%nat (ORef 0%nat) world_dependent
    = (world_dependent, Raise (CADETProcessError "Dependency not found"))
  ∧ Event_remove_dependency 0%nat (ORef 1%nat) world_dependent
    = (world_dependent, Raise (TypeError "'list' object is not callable"))
  ∧ ∀ w self dependency,
      (Event_remove_dependency self dependency w).1 = w
      ∧ (Event_remove_dependency self dependency w).2 ≠ Ok tt.
Proof.
  split; [reflexivity |]. split; [reflexivity |].
  intros w self dependency. unfold Event_remove_dependency, sbind, sread.
  destruct (deref w self) as [e|]; [|done].
  by destruct (py_in dependency (ORef <$> _dependencies e)).
Qed.

Lemma py_in_str_refs (s : string) (l : list ref) :
  py_in (OStr s) (ORef <$> l) = false.
Proof. induction l as [|r l IH]; [done |]. simpl. exact IH. Qed.

(** C10. [EventHandler.remove_event_dependency] with the name of the
    dependent event: whenever the events can be listed, the call raises
    "Cannot find dependent Event", whether or not an event of that name is
    registered, because a name is never a member of a list of events; and in
    every case the store is left as it was, so no dependency is removed. *)
Theorem remove_event_dependency_never_finds
    (fuel : nat) (w : World) (dependent_event : string)
    (independent_events : list string) (evs : list ref) :
  events fuel w = Ok evs →
  remove_event_dependency fuel (OStr dependent_event) independent_events w
    = (w, Raise (CADETProcessError "Cannot find dependent Event"))
  ∧ py_in (OStr dependent_event) (ORef <$> evs) = false
  ∧ ∀ fuel' names,
      (remove_event_dependency fuel' (OStr dependent_event) names w).1 = w
      ∧ (remove_event_dependency fuel' (OStr dependent_event) names w).2 ≠ Ok tt.
Proof.
  intros Hevs. split; [|split].
  - unfold remove_event_dependency, sbind, sread. rewrite Hevs.
    by rewrite py_in_str_refs.
  - apply py_in_str_refs.
  - intros fuel' names. unfold remove_event_dependency, sbind, sread.
    destruct (events fuel' w) as [evs'|]; [|done].
    by rewrite py_in_str_refs.
Qed.

Lemma remove_event_dependency_never_finds_witness :
  events_dict 2 world_dependent
    = Ok [("X", 0%nat); ("Y", 1%nat); ("D", 2%nat)]
  ∧ _dependencies <$> heap world_dependent !! 2%nat = Some [0%nat; 1%nat]
  ∧ remove_event_dependency 2 (OStr "D") ["X"] world_dependent
    = (world_dependent, Raise (CADETProcessError "Cannot find dependent Event")).
Proof.
  split; [reflexivity |]. split; [reflexivity |].
  apply (remove_event_dependency_never_finds 2 world_dependent "D" ["X"]
           [0%nat; 1%nat; 2%nat] eq_refl).
Defined.

(** C5, as the claim states it: a call that attaches one pair and then meets
    a duplicate raises and leaves the first pair attached. *)
Lemma add_event_dependency_not_atomic :
  ¬ add_event_dependency_atomic 5 "D" ["X"; "X"] None world_XYD.
Proof.
  intros H.
  specialize (H (CADETProcessError "Dependency already exists") eq_refl).
  apply (f_equal (fun w => _dependencies <$> heap w !! 2%nat)) in H.
  vm_compute in H. discriminate H.
Qed.

(** C5, amended. [add_event_dependency] resolves the dependent name and every
    independent name and compares the number of factors with the number of
    names before it attaches anything: when a name is missing or the numbers
    differ, the call raises and the store is the one it started from. *)
Theorem add_event_dependency_validates_first
    (fuel : nat) (w : World) (dependent_event : string)
    (independent_events : list string) (factors : option (list Z))
    (d : list (string * ref)) :
  events_dict fuel w = Ok d →
  (dict_get dependent_event d = None →
     add_event_dependency fuel dependent_event independent_events factors w
       = (w, Raise (CADETProcessError "Cannot find dependent Event")))
  ∧ (is_Some (dict_get dependent_event d) →
     ¬ Forall (fun indep => is_Some (dict_get indep d)) independent_events →
     add_event_dependency fuel dependent_event independent_events factors w
       = (w, Raise (CADETProcessError
                      "Cannot find one or more independent events")))
  ∧ (is_Some (dict_get dependent_event d) →
     Forall (fun indep => is_Some (dict_get indep d)) independent_events →
     length (effective_factors independent_events factors)
       ≠ length independent_events →
     add_event_dependency fuel dependent_event independent_events factors w
       = (w, Raise (CADETProcessError
            "Length of factors must be equal to length of independent Events"))).
Proof.
  intros Hd.
  assert (forallb (fun indep => dict_mem indep d) independent_events = true
          ↔ Forall (fun indep => is_Some (dict_get indep d)) independent_events)
    as Hall.
  { rewrite forallb_forall, Forall_forall. unfold dict_mem.
    split; intros H x Hx.
    - apply list_elem_of_In in Hx. apply H in Hx. by apply bool_decide_eq_true in Hx.
    - apply bool_decide_eq_true. apply H. by apply list_elem_of_In. }
  unfold add_event_dependency, sbind, sread, sraise. rewrite Hd. simpl.
  split; [|split].
  - intros Hnone. unfold dict_item. by rewrite Hnone.
  - intros [evt Hevt] Hnot. unfold dict_item. rewrite Hevt. simpl.
    assert (forallb (fun indep => dict_mem indep d) independent_events = false)
      as ->; [|done].
    apply not_true_iff_false. intros Hf. apply Hnot. by apply Hall.
  - intros [evt Hevt] Hforall Hlen. unfold dict_item. rewrite Hevt. simpl.
    apply Hall in Hforall. rewrite Hforall. simpl.
    fold (effective_factors independent_events factors).
    by rewrite bool_decide_true.
Qed.

Lemma add_event_dependency_validates_first_witness :
  add_event_dependency 5 "E" ["X"] None world_XYD
    = (world_XYD, Raise (CADETProcessError "Cannot find dependent Event"))
  ∧ add_event_dependency 5 "D" ["X"; "Z"] None world_XYD
    = (world_XYD,
       Raise (CADETProcessError "Cannot find one or more independent events"))
  ∧ add_event_dependency 5 "D" ["X"; "Y"] (Some [1]) world_XYD
    = (world_XYD,
       Raise (CADETProcessError
                "Length of factors must be equal to length of independent Events")).
Proof.
  pose proof (fun dep indeps fs =>
    add_event_dependency_validates_first 5 world_XYD dep indeps fs
      [("D", 2%nat); ("X", 0%nat); ("Y", 1%nat)] eq_refl) as H.
  split; [|split].
  - destruct (H "E" ["X"] None) as (H1 & _ & _). exact (H1 eq_refl).
  - destruct (H "D" ["X"; "Z"] None) as (_ & H2 & _).
    apply H2; [by eexists |].
    intros HF. apply Forall_cons in HF as [_ HF]. apply Forall_cons in HF as [HZ _].
    by destruct HZ.
  - destruct (H "D" ["X"; "Y"] (Some [1])) as (_ & _ & H3).
    apply H3; [by eexists | | simpl; lia].
    repeat constructor; by eexists.
Defined.

(** C9. The setter of [EventHandler.parameters] on the code: a key that names
    no event and no duration raises [KeyError], which the handler for
    [AttributeError] does not catch, and not the "Not a valid event" error; a
    key that names a dependent event is rejected with the "is not a valid
    event" error. *)
Theorem set_parameters_unknown_name_raises_KeyError :
  EventHandler_set_parameters 5 [("Z", PDict [("time", VNum 1)])] world_dependent
    = (world_dependent, Raise (KeyError "Z"))
  ∧ EventHandler_set_parameters 5 [("D", PDict [("time", VNum 1)])] world_dependent
    = (world_dependent, Raise (CADETProcessError "D is not a valid event")).
Proof. split; reflexivity. Qed.

(** ** Sorting *)

Section sorting.
Context {A : Type} (key : A → Z).

Lemma insert_by_Permutation (x : A) (l : list A) :
  insert_by key x l ≡ₚ x :: l.
Proof.
  induction l as [|y l IH]; simpl; [done |].
  destruct (key x <=? key y); [done |].
  rewrite IH. apply Permutation_swap.
Qed.

Lemma py_sorted_Permutation (l : list A) : py_sorted key l ≡ₚ l.
Proof.
  induction l as [|x l IH]; simpl; [done |].
  rewrite insert_by_Permutation. by rewrite IH.
Qed.

Lemma insert_by_sorted (x : A) (l : list A) :
  StronglySorted (key_le key) l → StronglySorted (key_le key) (insert_by key x l).
Proof.
  induction 1 as [|y l Hl IH Hy]; simpl.
  - repeat constructor.
  - destruct (Z.leb_spec (key x) (key y)) as [Hle | Hlt].
    + constructor; [by constructor |]. constructor; [done |].
      eapply Forall_impl; [exact Hy |]. unfold key_le. intros z Hz. lia.
    + constructor; [done |].
      rewrite insert_by_Permutation. constructor; [|done].
      unfold key_le. lia.
Qed.

Lemma py_sorted_sorted (l : list A) :
  StronglySorted (key_le key) (py_sorted key l).
Proof.
  induction l as [|x l IH]; simpl; [constructor |]. by apply insert_by_sorted.
Qed.

Lemma py_sorted_length (l : list A) : length (py_sorted key l) = length l.
Proof. apply Permutation_length, py_sorted_Permutation. Qed.

(** Sorting a list that is sorted already changes nothing. *)
Lemma py_sorted_id (l : list A) :
  StronglySorted (key_le key) l → py_sorted key l = l.
Proof.
  induction 1 as [|x l Hl IH Hx]; simpl; [done |]. rewrite IH.
  destruct Hx as [|y l' Hxy _]; simpl; [done |].
  unfold key_le in Hxy. by rewrite (proj2 (Z.leb_le _ _) Hxy).
Qed.
End sorting.

Lemma sorted_le_NoDup_lt (l : list Z) :
  StronglySorted Z.le l → NoDup l → StronglySorted Z.lt l.
Proof.
  induction 1 as [|x l Hl IH Hx]; intros Hnd; [constructor |].
  apply NoDup_cons in Hnd as [Hx' Hnd]. constructor; [by apply IH |].
  apply Forall_forall. intros y Hy.
  rewrite Forall_forall in Hx. specialize (Hx y Hy).
  assert (x ≠ y) by (by intros ->). lia.
Qed.

Lemma set_sorted_strict (ts : list Z) :
  StronglySorted Z.lt (py_sorted id (elements (list_to_set ts : gset Z))).
Proof.
  apply sorted_le_NoDup_lt.
  - apply (py_sorted_sorted id).
  - rewrite py_sorted_Permutation. apply NoDup_elements.
Qed.

Lemma set_sorted_elem_of (ts : list Z) (t : Z) :
  t ∈ py_sorted id (elements (list_to_set ts : gset Z)) ↔ t ∈ ts.
Proof.
  rewrite py_sorted_Permutation, elem_of_elements. apply elem_of_list_to_set.
Qed.

(** ** Aggregate views *)

Lemma mapR_total {A B} (f : A → result B) (l : list A) :
  Forall (fun x => ∃ y, f x = Ok y) l → ∃ k, mapR f l = Ok k.
Proof.
  induction 1 as [|x l [y Hy] _ [k IH]]; simpl.
  - by exists [].
  - exists (y :: k). by rewrite Hy, IH.
Qed.

Lemma mapR_elem_of {A B} (f : A → result B) (l : list A) (k : list B) (y : B) :
  mapR f l = Ok k → y ∈ k → ∃ x, x ∈ l ∧ f x = Ok y.
Proof.
  rewrite mapR_Ok. induction 1 as [|x y' l k Hxy _ IH]; intros Hy.
  - by apply elem_of_nil in Hy.
  - apply elem_of_cons in Hy as [-> | Hy].
    + exists x. split; [left | done].
    + destruct (IH Hy) as (x' & Hx' & Hf). exists x'. split; [by right | done].
Qed.

Lemma keyed_snd (fuel : nat) (w : World) (l : list ref) (keyed : list (Z * ref)) :
  mapR (fun evt => let* t := Event_time fuel w evt in Ok (t, evt)) l = Ok keyed →
  keyed.*2 = l ∧ Forall2 (fun r t => Event_time fuel w r = Ok t) l keyed.*1.
Proof.
  rewrite mapR_Ok. induction 1 as [|r kr l keyed Hr _ [IH1 IH2]]; [done |].
  apply rbind_Ok in Hr as (t & Ht & [= <-]). rewrite !fmap_cons. simpl. split.
  - by f_equal.
  - by constructor.
Qed.

Lemma events_Permutation (fuel : nat) (w : World) (evs : list ref) :
  events fuel w = Ok evs → evs ≡ₚ _events (handler w).
Proof.
  unfold events. intros H. apply rbind_Ok in H as (keyed & Hk & [= <-]).
  apply keyed_snd in Hk as [<- _]. by rewrite py_sorted_Permutation.
Qed.

Lemma events_resolve (fuel : nat) (w : World) (evs : list ref) :
  events fuel w = Ok evs →
  Forall (fun r => ∃ t, Event_time fuel w r = Ok t) evs.
Proof.
  intros H. rewrite (events_Permutation _ _ _ H).
  unfold events in H. apply rbind_Ok in H as (keyed & Hk & _).
  apply keyed_snd in Hk as [_ Hk].
  induction Hk as [|r t l ts Hr _ IH]; constructor; [by exists t | done].
Qed.

Lemma events_empty (fuel : nat) (w : World) :
  _events (handler w) = [] → events fuel w = Ok [].
Proof. unfold events. by intros ->. Qed.

Lemma event_times_Ok (fuel : nat) (w : World) (evs : list ref) :
  events fuel w = Ok evs →
  ∃ ts, mapR (Event_time fuel w) evs = Ok ts
        ∧ event_times fuel w
          = Ok (py_sorted id (elements (list_to_set ts : gset Z))).
Proof.
  intros H. destruct (mapR_total _ _ (events_resolve _ _ _ H)) as [ts Hts].
  exists ts. split; [done |]. unfold event_times. rewrite H. simpl.
  by rewrite Hts.
Qed.

Lemma strict_cons_bound (x : Z) (l : list Z) (c : Z) :
  Forall (fun t => t < c) l → StronglySorted Z.lt l →
  StronglySorted Z.lt (l ++ [c]).
Proof.
  intros Hc Hl. apply StronglySorted_app. split; [|split].
  - intros a b Ha Hb. apply list_elem_of_singleton in Hb as ->.
    rewrite Forall_forall in Hc. by apply Hc.
  - done.
  - repeat constructor.
Qed.

(** C2. With a positive cycle time and events whose times can be read,
    [section_times] returns a list that starts with [0], ends with the cycle
    time, increases strictly and has at least two elements; without events it
    is exactly [[0, cycle_time]]. *)
Theorem section_times_grid (fuel : nat) (w : World) (evs : list ref) :
  0 < cycle_time (handler w) →
  events fuel w = Ok evs →
  ∃ st,
    section_times fuel w = Ok st
    ∧ head st = Some 0
    ∧ last st = Some (cycle_time (handler w))
    ∧ StronglySorted Z.lt st
    ∧ (2 ≤ length st)%nat
    ∧ (_events (handler w) = [] → st = [0; cycle_time (handler w)]).
Proof.
  intros Hc Hevs. set (c := cycle_time (handler w)) in *.
  destruct (event_times_Ok _ _ _ Hevs) as (ts & Hts & Hets).
  set (ets := py_sorted id (elements (list_to_set ts : gset Z))) in *.
  assert (Forall (fun t => 0 ≤ t < c) ets) as Hrange.
  { apply Forall_forall. intros t Ht.
    apply (proj1 (set_sorted_elem_of ts t)) in Ht.
    destruct (mapR_elem_of _ _ _ _ Hts Ht) as (r & _ & Hr).
    by eapply Event_time_bounds. }
  pose proof (set_sorted_strict ts) as Hsorted. fold ets in Hsorted.
  assert (_events (handler w) = [] → ets = []) as Hnone.
  { intros Hnil. rewrite (events_empty _ _ Hnil) in Hevs. injection Hevs as <-.
    simpl in Hts. injection Hts as <-. done. }
  unfold section_times. rewrite Hets. simpl. fold c.
  destruct ets as [|t0 ets'] eqn:Hets'.
  { exists [0; c]. rewrite bool_decide_true by done.
    split; [done |]. split; [done |]. split; [done |].
    split; [by repeat constructor |]. split; [simpl; lia | done]. }
  rewrite bool_decide_false by done.
  apply Forall_cons in Hrange as [Ht0 Hrange'].
  apply StronglySorted_inv in Hsorted as Hinv. destruct Hinv as [Hs' Hlt'].
  set (st1 := if bool_decide (head (t0 :: ets') ≠ Some 0)
              then 0 :: t0 :: ets' else t0 :: ets').
  assert (head st1 = Some 0 ∧ StronglySorted Z.lt st1
          ∧ Forall (fun t => 0 ≤ t < c) st1 ∧ (1 ≤ length st1)%nat)
    as (Hhd & Hst1 & Hr1 & Hlen1).
  { subst st1. case_bool_decide as Hne; simpl in *.
    - assert (t0 ≠ 0) by congruence.
      split; [done |]. split; [|split; [|lia]].
      + constructor; [done |]. constructor; [lia |].
        eapply Forall_impl; [exact Hlt' |]. simpl. lia.
      + constructor; [lia |]. by constructor.
    - assert (t0 = 0) as -> by congruence.
      split; [done |]. split; [done |]. split; [by constructor | lia]. }
  assert (last st1 ≠ Some c) as Hlast.
  { intros Hl. apply last_Some_elem_of in Hl.
    rewrite Forall_forall in Hr1. specialize (Hr1 c Hl). lia. }
  rewrite bool_decide_true by done.
  exists (st1 ++ [c]). split; [done |]. split; [|split; [|split; [|split]]].
  - destruct st1; simpl in *; [lia | done].
  - by rewrite last_snoc.
  - apply (strict_cons_bound 0); [|done].
    eapply Forall_impl; [exact Hr1 |]. simpl. lia.
  - rewrite length_app. simpl. lia.
  - intros Hnil. by specialize (Hnone Hnil).
Qed.

Lemma section_times_grid_witness :
  ∃ st,
    section_times 2 world_dependent = Ok st
    ∧ head st = Some 0
    ∧ last st = Some 10
    ∧ StronglySorted Z.lt st
    ∧ (2 ≤ length st)%nat
    ∧ (_events (handler world_dependent) = [] → st = [0; 10]).
Proof.
  apply (section_times_grid 2 world_dependent [0%nat; 1%nat; 2%nat]).
  - reflexivity.
  - reflexivity.
Defined.

(** ** The timeline builder *)

(** The turns of the loop of [parameter_timelines] from position [k] on. *)
Lemma event_sections_from (cls : bool) (c : Z) (all : list (Z * pyval))
    (first : Z * pyval) (l : list (Z * pyval)) (k : nat) :
  head all = Some first →
  drop k all = l →
  concat (imap (fun index => section_step cls c all (k + index)) l)
  = match last l with
    | Some final =>
        pair_sections cls l
        ++ [mkSection cls final.1 c final.2]
        ++ (if bool_decide (first.1 ≠ 0)
            then [mkSection cls 0 first.1 final.2] else [])
    | None => []
    end.
Proof.
  intros Hfirst.
  assert (all !! 0%nat = Some first) as H0.
  { destruct all; [done |]. by injection Hfirst as ->. }
  revert k. induction l as [|evt l IH]; intros k Hdrop; [done |].
  assert (length all = (k + S (length l))%nat) as Hlen.
  { apply (f_equal length) in Hdrop. rewrite length_drop in Hdrop.
    simpl in Hdrop. lia. }
  rewrite imap_cons, concat_cons, Nat.add_0_r.
  destruct l as [|next l'].
  - unfold section_step. rewrite bool_decide_false by (simpl in Hlen; lia).
    rewrite H0. simpl. by rewrite app_nil_r.
  - assert (all !! S k = Some next) as Hnext.
    { replace (S k) with (k + 1)%nat by lia. rewrite <- (lookup_drop all k 1).
      by rewrite Hdrop. }
    assert (drop (S k) all = next :: l') as Hdrop'.
    { replace (S k) with (k + 1)%nat by lia.
      rewrite <- drop_drop. by rewrite Hdrop. }
    rewrite (imap_ext _ (fun index => section_step cls c all (S k + index))).
    + rewrite (IH (S k) Hdrop').
      change (last (evt :: next :: l')) with (last (next :: l')).
      destruct (last (next :: l')) as [final|] eqn:Hlast.
      * unfold section_step at 1.
        rewrite bool_decide_true by (simpl in Hlen; lia).
        by rewrite Hnext.
      * by apply last_None in Hlast.
    + intros i x _. simpl. f_equal. lia.
Qed.

Lemma event_sections_spec (cls : bool) (c : Z) (events : list (Z * pyval))
    (first final : Z * pyval) :
  head events = Some first →
  last events = Some final →
  event_sections cls c events
  = pair_sections cls events
    ++ [mkSection cls final.1 c final.2]
    ++ (if bool_decide (first.1 ≠ 0)
        then [mkSection cls 0 first.1 final.2] else []).
Proof.
  intros Hfirst Hfinal. unfold event_sections.
  pose proof (event_sections_from cls c events first events 0 Hfirst eq_refl)
    as H.
  rewrite Hfinal in H. exact H.
Qed.

Lemma insert_by_least {A} (key : A → Z) (x : A) (l : list A) :
  Forall (fun y => key x ≤ key y) l → insert_by key x l = x :: l.
Proof.
  destruct 1 as [|y l Hy _]; simpl; [done |].
  by rewrite (proj2 (Z.leb_le _ _) Hy).
Qed.

(** An element that is smaller than all the others goes to the front. *)
Lemma py_sorted_snoc_least {A} (key : A → Z) (x : A) (l : list A) :
  StronglySorted (key_le key) l →
  Forall (fun y => key x < key y) l →
  py_sorted key (l ++ [x]) = x :: l.
Proof.
  unfold py_sorted. rewrite foldr_snoc. simpl.
  induction 1 as [|y l Hl IH Hy]; intros Hx; simpl; [done |].
  apply Forall_cons in Hx as [Hxy Hx]. rewrite (IH Hx). simpl.
  rewrite (proj2 (Z.leb_gt _ _) Hxy). f_equal.
  by apply insert_by_least.
Qed.

(** Sections that arrive in the order of their starts stay in that order. *)
Lemma foldl_add_section_sorted (tl : TimeLine) (l : list Section) :
  StronglySorted (key_le start) (tl ++ l) →
  foldl add_section tl l = tl ++ l.
Proof.
  revert tl. induction l as [|s l IH]; intros tl Hs; simpl.
  - by rewrite app_nil_r.
  - replace (tl ++ s :: l) with ((tl ++ [s]) ++ l) in *
      by (by rewrite <- app_assoc).
    unfold add_section. rewrite py_sorted_id.
    + by apply IH.
    + by apply StronglySorted_app_1_l in Hs.
Qed.

Lemma pair_sections_starts (cls : bool) (c : Z) (events : list (Z * pyval))
    (final : Z * pyval) :
  last events = Some final →
  start <$> (pair_sections cls events ++ [mkSection cls final.1 c final.2])
  = events.*1.
Proof.
  induction events as [|evt events IH]; [done |].
  destruct events as [|next events'].
  - by intros [= ->].
  - intros Hlast. change (last (evt :: next :: events')) with
      (last (next :: events')) in Hlast.
    specialize (IH Hlast).
    change (pair_sections cls (evt :: next :: events')) with
      (mkSection cls evt.1 next.1 evt.2 :: pair_sections cls (next :: events')).
    rewrite <- app_comm_cons, !fmap_cons. by rewrite IH.
Qed.

Lemma sorted_by_key_fmap {A} (key : A → Z) (l : list A) :
  StronglySorted Z.le (key <$> l) ↔ StronglySorted (key_le key) l.
Proof.
  induction l as [|x l IH]; [split; constructor |].
  rewrite fmap_cons, !StronglySorted_cons, IH, Forall_fmap. done.
Qed.

(** The timeline that the loop of [parameter_timelines] builds from the
    events of one parameter, given in the order of their times, which are not
    negative. *)
Lemma timeline_of_sorted_events (cls : bool) (c : Z)
    (events : list (Z * pyval)) :
  events ≠ [] →
  StronglySorted (key_le fst) events →
  Forall (fun evt => 0 ≤ evt.1) events →
  foldl add_section [] (event_sections cls c events) = timeline_of cls c events.
Proof.
  intros Hne Hsorted Hpos.
  destruct (head events) as [first|] eqn:Hfirst;
    [|by apply head_None in Hfirst].
  destruct (last events) as [final|] eqn:Hfinal;
    [|by apply last_None in Hfinal].
  rewrite (event_sections_spec cls c events first final Hfirst Hfinal).
  unfold timeline_of. rewrite Hfirst, Hfinal.
  set (body := pair_sections cls events ++ [mkSection cls final.1 c final.2]).
  assert (start <$> body = events.*1) as Hstarts
    by by apply pair_sections_starts.
  assert (StronglySorted (key_le start) body) as Hbody.
  { apply sorted_by_key_fmap. rewrite Hstarts. by apply sorted_by_key_fmap. }
  rewrite (app_assoc (pair_sections cls events)). fold body.
  rewrite foldl_app, (foldl_add_section_sorted [] body) by done.
  case_bool_decide as Hz; simpl; [|done].
  unfold add_section. rewrite py_sorted_snoc_least; [done | done |].
  apply Forall_fmap with (f := start) (P := fun t => 0 < t).
  rewrite Hstarts. apply Forall_fmap.
  destruct events as [|evt events']; [done |]. injection Hfirst as ->.
  apply StronglySorted_inv in Hsorted as [_ Hle].
  apply Forall_cons in Hpos as [Hp _].
  constructor; [simpl; lia |].
  eapply Forall_impl; [exact Hle |]. unfold key_le. simpl. intros. lia.
Qed.

(** ** Dictionaries *)

Lemma dict_get_set {V} (k k' : string) (v : V) (d : list (string * V)) :
  dict_get k' (dict_set k v d) = if decide (k = k') then Some v else dict_get k' d.
Proof.
  induction d as [|[k0 v0] d IH]; simpl.
  - by destruct (decide (k = k')).
  - destruct (decide (k0 = k)) as [-> | Hne]; simpl.
    + by destruct (decide (k = k')).
    + rewrite IH. destruct (decide (k0 = k')) as [-> | Hne'].
      * by rewrite decide_False.
      * done.
Qed.

Lemma Forall_dict_set {V} (P : string * V → Prop) (k : string) (v : V)
    (d : list (string * V)) :
  Forall P d → P (k, v) → Forall P (dict_set k v d).
Proof.
  intros Hd Hkv. induction Hd as [|[k0 v0] d H0 Hd IH]; simpl.
  - by constructor.
  - destruct (decide (k0 = k)); by constructor.
Qed.

Lemma dict_get_elem_of {V} (k : string) (v : V) (d : list (string * V)) :
  dict_get k d = Some v → (k, v) ∈ d.
Proof.
  induction d as [|[k0 v0] d IH]; simpl; [done |].
  destruct (decide (k0 = k)) as [-> | Hne].
  - intros [= ->]. left.
  - intros H. right. by apply IH.
Qed.

(** A comprehension [{k: g(k, v) for k, v in d.items()}]. *)
Lemma mapR_dict_get {V V'} (g : string * V → result V')
    (d : list (string * V)) (d' : list (string * V')) (k : string) :
  mapR (fun kv => let* v' := g kv in Ok (kv.1, v')) d = Ok d' →
  match dict_get k d with
  | Some v => ∃ v', g (k, v) = Ok v' ∧ dict_get k d' = Some v'
  | None => dict_get k d' = None
  end.
Proof.
  rewrite mapR_Ok. induction 1 as [|[k0 v0] [k1 v1] d d' H0 _ IH]; [done |].
  apply rbind_Ok in H0 as (v' & Hv' & [= <- <-]). simpl.
  destruct (decide (k0 = k)) as [-> | Hne]; [by exists v' | done].
Qed.

(** ** Events of one parameter *)

Lemma group_event_lookup (es : list (ref * Event)) (d : list (string * list ref))
    (path : string) :
  dict_get path (foldl group_event d es)
  = match (filter (fun re => parameter_path re.2 = path) es).*1 with
    | [] => dict_get path d
    | new => Some (default [] (dict_get path d) ++ new)
    end.
Proof.
  revert d. induction es as [|re es IH]; intros d; [done |].
  simpl. rewrite IH. unfold group_event. rewrite !dict_get_set.
  rewrite filter_cons. destruct (decide (parameter_path re.2 = path)) as [<- | Hne].
  - rewrite fmap_cons. simpl.
    destruct ((filter _ es).*1) as [|r new].
    + done.
    + by rewrite <- app_assoc.
  - done.
Qed.

Lemma group_event_members (es : list (ref * Event))
    (d : list (string * list ref)) (P : ref → Prop) :
  Forall (fun pl => Forall P pl.2) d →
  Forall (fun re => P re.1) es →
  Forall (fun pl => Forall P pl.2) (foldl group_event d es).
Proof.
  intros Hd Hes. revert d Hd.
  induction Hes as [|re es Hre _ IH]; intros d Hd; [done |].
  simpl. apply IH. unfold group_event. apply Forall_dict_set; [done |].
  simpl. apply Forall_app. split; [|by repeat constructor].
  destruct (dict_get (parameter_path re.2) d) as [l|] eqn:Hl; [|constructor].
  apply dict_get_elem_of in Hl. rewrite Forall_forall in Hd.
  by apply (Hd _ Hl).
Qed.

Lemma Event_time_deref (fuel : nat) (w : World) (r : ref) (t : Z) :
  Event_time fuel w r = Ok t → ∃ e, heap w !! r = Some e.
Proof.
  destruct fuel as [|n]; [discriminate |]. rewrite Event_time_unfold.
  intros H. apply rbind_Ok in H as (e & He & _). exists e. by apply deref_Ok.
Qed.

Lemma events_deref (fuel : nat) (w : World) (evs : list ref) :
  events fuel w = Ok evs →
  ∃ es, mapR (fun r => let* e := deref w r in Ok (r, e)) evs = Ok es
        ∧ es.*1 = evs
        ∧ Forall (fun re => heap w !! re.1 = Some re.2) es.
Proof.
  intros H. apply events_resolve in H.
  induction H as [|r evs [t Hr] _ (es & Hes & Hfst & Hall)].
  - by exists [].
  - destruct (Event_time_deref _ _ _ _ Hr) as [e He].
    exists ((r, e) :: es). simpl. rewrite (deref_Some _ _ _ He). simpl.
    rewrite Hes. simpl. split; [done |]. split; [by f_equal | by constructor].
Qed.

Lemma events_of_parameter_filter (w : World) (path : string)
    (es : list (ref * Event)) :
  Forall (fun re => heap w !! re.1 = Some re.2) es →
  (filter (fun re => parameter_path re.2 = path) es).*1
  = events_of_parameter w path es.*1.
Proof.
  unfold events_of_parameter.
  induction 1 as [|re es Hre _ IH]; [done |].
  rewrite fmap_cons, !filter_cons, Hre. simpl.
  destruct (decide (parameter_path re.2 = path)) as [Hp | Hp].
  - rewrite decide_True by by f_equal. rewrite fmap_cons. by f_equal.
  - rewrite decide_False; [done |]. by intros [= ?].
Qed.

Lemma sorted_by_key_transfer {A B} (k1 : A → Z) (k2 : B → Z) (f : A → B)
    (l : list A) :
  StronglySorted (key_le k1) l →
  Forall (fun x => k1 x = k2 (f x)) l →
  StronglySorted (key_le k2) (f <$> l).
Proof.
  induction 1 as [|x l Hl IH Hx]; intros Hk; [constructor |].
  apply Forall_cons in Hk as [Hkx Hk]. rewrite fmap_cons.
  constructor; [by apply IH |]. apply Forall_fmap.
  rewrite Forall_forall in Hx, Hk. apply Forall_forall. intros y Hy.
  specialize (Hx y Hy). specialize (Hk y Hy). unfold key_le in *. simpl.
  by rewrite <- Hkx, <- Hk.
Qed.

Lemma sorted_filter {A} (R : relation A) (P : A → Prop)
    `{∀ x, Decision (P x)} (l : list A) :
  StronglySorted R l → StronglySorted R (filter P l).
Proof.
  induction 1 as [|x l Hl IH Hx]; [constructor |].
  rewrite filter_cons. destruct (decide (P x)); [|done].
  constructor; [done |]. apply Forall_forall. intros y Hy.
  apply list_elem_of_filter in Hy as [_ Hy].
  rewrite Forall_forall in Hx. by apply Hx.
Qed.

(** [events] is in the order of the resolved times. *)
Lemma events_sorted (fuel : nat) (w : World) (evs : list ref) :
  events fuel w = Ok evs → StronglySorted (key_le (time_of fuel w)) evs.
Proof.
  unfold events. intros H. apply rbind_Ok in H as (keyed & Hk & [= <-]).
  apply sorted_by_key_transfer with (k1 := fst); [apply py_sorted_sorted |].
  rewrite py_sorted_Permutation.
  apply mapR_Ok in Hk. clear -Hk.
  induction Hk as [|r kr l keyed Hr _ IH]; constructor; [|done].
  apply rbind_Ok in Hr as (t & Ht & [= <-]). simpl.
  unfold time_of. by rewrite Ht.
Qed.

(** What [parameter_timeline] reads of an event: its time and its state. *)
Lemma timeline_reads (fuel : nat) (w : World) (l : list ref) :
  Forall (fun r => ∃ t, Event_time fuel w r = Ok t) l →
  ∃ tes,
    mapR (fun r =>
            let* e := deref w r in
            let* t := Event_time fuel w r in
            Ok (t, _state e)) l = Ok tes
    ∧ Forall2 (fun r te =>
                 ∃ e, heap w !! r = Some e
                      ∧ Event_time fuel w r = Ok te.1 ∧ _state e = te.2) l tes.
Proof.
  induction 1 as [|r l [t Hr] _ (tes & Hmap & Hrel)].
  - exists []. split; [done | constructor].
  - destruct (Event_time_deref _ _ _ _ Hr) as [e He].
    exists ((t, _state e) :: tes). simpl.
    rewrite (deref_Some _ _ _ He). simpl. rewrite Hr. simpl. rewrite Hmap.
    split; [done |]. constructor; [by exists e | done].
Qed.

Lemma timeline_reads_times (fuel : nat) (w : World) (l : list ref)
    (tes : list (Z * pyval)) :
  Forall2 (fun r te =>
             ∃ e, heap w !! r = Some e
                  ∧ Event_time fuel w r = Ok te.1 ∧ _state e = te.2) l tes →
  tes.*1 = time_of fuel w <$> l.
Proof.
  induction 1 as [|r te l tes (e & _ & Ht & _) _ IH]; [done |].
  rewrite !fmap_cons, IH. f_equal. unfold time_of. by rewrite Ht.
Qed.

(** C3. With a positive cycle time and events whose times can be read,
    [parameter_timelines] holds, for every parameter path and the events of
    that path in the order of their times, one section
    [[evt_i.time, evt_{i+1}.time)] with the state of [evt_i] for each
    consecutive pair, a final section [[last.time, cycle_time)] with the state
    of the last event and, exactly when the time of the first event is not
    [0], a section [[0, first.time)] with the state of the last event; a path
    that no event changes has no timeline. Events at the times 2, 5 and 8
    with the states [a], [b] and [c] and a cycle time of 10 give the sections
    [[0,2)] with [c], [[2,5)] with [a], [[5,8)] with [b] and [[8,10)] with
    [c]. *)
Theorem parameter_timelines_sections (fuel : nat) (w : World) (evs : list ref) :
  0 < cycle_time (handler w) →
  events fuel w = Ok evs →
  ∃ tls,
    parameter_timelines fuel w = Ok tls
    ∧ (∀ path,
         ∃ tes,
           Forall2 (fun r te =>
                      ∃ e, heap w !! r = Some e
                           ∧ Event_time fuel w r = Ok te.1 ∧ _state e = te.2)
                   (events_of_parameter w path evs) tes
           ∧ dict_get path tls
             = match tes with
               | [] => None
               | _ =>
                   Some (timeline_of
                           (bool_decide
                              (path ∈ polynomial_parameters (handler w)))
                           (cycle_time (handler w)) tes)
               end)
    ∧ (∀ cls a b c,
         foldl add_section []
               (event_sections cls 10 [(2, a); (5, b); (8, c)])
         = [mkSection cls 0 2 c; mkSection cls 2 5 a;
            mkSection cls 5 8 b; mkSection cls 8 10 c]).
Proof.
  intros Hc Hevs.
  destruct (events_deref _ _ _ Hevs) as (es & Hes & Hfst & Hheap).
  pose proof (events_resolve _ _ _ Hevs) as Hres.
  pose proof (events_sorted _ _ _ Hevs) as Hsorted.
  set (pe := foldl group_event [] es).
  assert (parameter_events fuel w = Ok pe) as Hpe.
  { unfold parameter_events. rewrite Hevs. simpl. by rewrite Hes. }
  assert (Forall (fun pl =>
            Forall (fun r => ∃ t, Event_time fuel w r = Ok t) pl.2) pe) as Hmem.
  { apply group_event_members; [constructor |].
    apply Forall_forall. intros re Hre. rewrite Forall_forall in Hres.
    apply Hres. rewrite <- Hfst. apply list_elem_of_fmap. by exists re. }
  assert (∃ tls, mapR (fun pevs =>
            let* tl := parameter_timeline fuel w pevs.1 pevs.2 in
            Ok (pevs.1, tl)) pe = Ok tls) as [tls Htls].
  { apply mapR_total. eapply Forall_impl; [exact Hmem |].
    intros [p l] Hl. simpl in *.
    destruct (timeline_reads _ _ _ Hl) as (tes & Hmap & _).
    unfold parameter_timeline. rewrite Hmap. simpl. by eexists. }
  exists tls. split; [|split].
  - unfold parameter_timelines. by rewrite Hpe.
  - intros path.
    set (l := events_of_parameter w path evs).
    assert (Forall (fun r => ∃ t, Event_time fuel w r = Ok t) l) as Hl.
    { apply Forall_forall. intros r Hr. unfold l, events_of_parameter in Hr.
      apply list_elem_of_filter in Hr as [_ Hr].
      rewrite Forall_forall in Hres. by apply Hres. }
    destruct (timeline_reads _ _ _ Hl) as (tes & Hmap & Hrel).
    exists tes. split; [done |].
    pose proof (mapR_dict_get
      (fun pevs => parameter_timeline fuel w pevs.1 pevs.2) pe tls path Htls)
      as Hget.
    unfold pe in Hget at 1. rewrite group_event_lookup in Hget.
    rewrite (events_of_parameter_filter w path es Hheap), Hfst in Hget.
    fold l in Hget. simpl in Hget.
    destruct l as [|r l'] eqn:Hleq.
    + apply Forall2_nil_inv_l in Hrel as ->. exact Hget.
    + destruct Hget as (tl & Htl & ->).
      unfold parameter_timeline in Htl. rewrite Hmap in Htl. simpl in Htl.
      injection Htl as <-.
      destruct tes as [|te tes']; [by apply Forall2_nil_inv_r in Hrel |].
      f_equal. apply timeline_of_sorted_events; [done | |].
      * apply sorted_by_key_fmap.
        rewrite (timeline_reads_times _ _ _ _ Hrel).
        apply sorted_by_key_fmap. rewrite <- Hleq. unfold l, events_of_parameter.
        by apply sorted_filter.
      * apply Forall_forall. intros te' Hte'.
        apply list_elem_of_lookup in Hte' as [i Hi].
        destruct (Forall2_lookup_r _ _ _ _ _ Hrel Hi) as (r' & _ & e & _ & Ht & _).
        apply (Event_time_bounds _ _ _ _ Hc) in Ht. lia.
  - intros cls a b c. reflexivity.
Qed.

Lemma parameter_timelines_sections_witness :
  ∃ tls,
    parameter_timelines 2 world_258 = Ok tls
    ∧ (∀ path,
         ∃ tes,
           Forall2 (fun r te =>
                      ∃ e, heap world_258 !! r = Some e
                           ∧ Event_time 2 world_258 r = Ok te.1
                           ∧ _state e = te.2)
                   (events_of_parameter world_258 path [0%nat; 1%nat; 2%nat]) tes
           ∧ dict_get path tls
             = match tes with
               | [] => None
               | _ =>
                   Some (timeline_of
                           (bool_decide
                              (path ∈ polynomial_parameters (handler world_258)))
                           (cycle_time (handler world_258)) tes)
               end)
    ∧ (∀ cls a b c,
         foldl add_section []
               (event_sections cls 10 [(2, a); (5, b); (8, c)])
         = [mkSection cls 0 2 c; mkSection cls 2 5 a;
            mkSection cls 5 8 b; mkSection cls 8 10 c]).
Proof.
  apply (parameter_timelines_sections 2 world_258 [0%nat; 1%nat; 2%nat]).
  - reflexivity.
  - reflexivity.
Defined.

(** The timelines of the handler with events at 2, 5 and 8. *)
Example parameter_timelines_258 :
  parameter_timelines 2 world_258
  = Ok [("unit.flow_rate",
         [mkSection false 0 2 (VNum 30); mkSection false 2 5 (VNum 10);
          mkSection false 5 8 (VNum 20); mkSection false 8 10 (VNum 30)])].
Proof. reflexivity. Qed.

(** ** Dictionaries without repeated keys *)

Lemma dict_set_fresh {V} (k : string) (v : V) (d : list (string * V)) :
  k ∉ d.*1 → dict_set k v d = d ++ [(k, v)].
Proof.
  induction d as [|[k0 v0] d IH]; simpl; [done |].
  rewrite not_elem_of_cons. intros [Hne Hk].
  rewrite decide_False by done. by rewrite IH.
Qed.

Lemma dict_update_fresh {V} (d other : list (string * V)) :
  NoDup (d.*1 ++ other.*1) → dict_update d other = d ++ other.
Proof.
  unfold dict_update. revert d.
  induction other as [|[k v] other IH]; intros d Hnd; simpl.
  - by rewrite app_nil_r.
  - rewrite dict_set_fresh.
    + rewrite IH; [by rewrite <- app_assoc |].
      rewrite fmap_app. simpl. by rewrite <- app_assoc.
    + apply NoDup_app in Hnd as (_ & Hdis & _). intros Hk.
      apply (Hdis k Hk). left.
Qed.

Lemma dict_of_fresh {V} (kvs : list (string * V)) :
  NoDup kvs.*1 → dict_of kvs = kvs.
Proof. intros H. unfold dict_of. by rewrite dict_update_fresh. Qed.

Lemma dict_get_fresh {V} (k : string) (v : V) (d : list (string * V)) :
  NoDup d.*1 → (k, v) ∈ d → dict_get k d = Some v.
Proof.
  induction d as [|[k0 v0] d IH]; simpl; intros Hnd Hin.
  - by apply elem_of_nil in Hin.
  - apply NoDup_cons in Hnd as [Hk0 Hnd].
    apply elem_of_cons in Hin as [[= <- <-] | Hin].
    + by rewrite decide_True.
    + rewrite decide_False; [by apply IH |].
      intros ->. apply Hk0. apply list_elem_of_fmap. by exists (k, v).
Qed.

Lemma dict_get_absent {V} (k : string) (d : list (string * V)) :
  k ∉ d.*1 → dict_get k d = None.
Proof.
  induction d as [|[k0 v0] d IH]; simpl; [done |].
  rewrite not_elem_of_cons. intros [Hne Hk].
  rewrite decide_False by done. by apply IH.
Qed.



Lemma mapR_app {A B} (f : A → result B) (l1 l2 : list A) (k1 k2 : list B) :
  mapR f l1 = Ok k1 → mapR f l2 = Ok k2 → mapR f (l1 ++ l2) = Ok (k1 ++ k2).
Proof.
  rewrite !mapR_Ok. apply Forall2_app.
Qed.

(** ** Worlds that differ in stored times only *)

Lemma rbind_ext {A B} (m : result A) (k k' : A → result B) :
  (∀ a, k a = k' a) → rbind m k = rbind m k'.
Proof. intros H. destruct m; simpl; [apply H | done]. Qed.

Lemma with_time_id (e : Event) : with_time e (_time e) = e.
Proof. by destruct e. Qed.


Lemma normalise_with_time (c : Z) (S : list ref) (r : ref) (e : Event) :
  ∃ t, normalise c S r e = with_time e t ∧ t mod c = _time e mod c.
Proof.
  unfold normalise. case_bool_decide.
  - exists (_time e mod c). split; [done |]. apply Zmod_mod.
  - exists (_time e). split; [by rewrite with_time_id | done].
Qed.

Lemma lookup_norm (S : list ref) (m : gmap string pyval) (w : World) (r : ref) :
  heap (norm_world S m w) !! r
  = normalise (cycle_time (handler w)) S r <$> heap w !! r.
Proof. simpl. rewrite map_lookup_imap. by destruct (heap w !! r). Qed.

Lemma deref_norm_bind {B} (k : Event → result B) (S : list ref)
    (m : gmap string pyval) (w : World) (r : ref) :
  (∀ e t, k (with_time e t) = k e) →
  (let* e := deref (norm_world S m w) r in k e) = (let* e := deref w r in k e).
Proof.
  intros Hk. unfold deref. rewrite lookup_norm.
  destruct (heap w !! r) as [e|]; simpl; [|done].
  destruct (normalise_with_time (cycle_time (handler w)) S r e) as (t & -> & _).
  apply Hk.
Qed.

Lemma py_mod_congruent (a b c : Z) :
  a mod c = b mod c → py_mod a c = py_mod b c.
Proof. unfold py_mod. intros ->. done. Qed.

Section norm.
Context (S : list ref) (m : gmap string pyval) (w : World).

Lemma Event_time_norm (fuel : nat) (r : ref) :
  Event_time fuel (norm_world S m w) r = Event_time fuel w r.
Proof.
  revert r. induction fuel as [|n IH]; intros r; [done |].
  rewrite !Event_time_unfold. unfold deref. rewrite lookup_norm.
  destruct (heap w !! r) as [e|]; simpl; [|done].
  destruct (normalise_with_time (cycle_time (handler w)) S r e) as (t & -> & Ht).
  change (isIndependent (with_time e t)) with (isIndependent e).
  destruct (isIndependent e); simpl.
  - by apply py_mod_congruent.
  - by rewrite (mapR_ext _ (Event_time n w)).
Qed.

Lemma events_norm (fuel : nat) :
  events fuel (norm_world S m w) = events fuel w.
Proof.
  unfold events. simpl. f_equal. apply mapR_ext. intros r _.
  by rewrite Event_time_norm.
Qed.



Lemma filter_events_norm (p : Event → bool) (l : list ref) :
  (∀ e t, p (with_time e t) = p e) →
  filter_events p (norm_world S m w) l = filter_events p w l.
Proof.
  intros Hp. unfold filter_events.
  induction l as [|r l IH]; [done |]. simpl.
  unfold deref at 1 3. rewrite lookup_norm.
  destruct (heap w !! r) as [e|]; simpl; [|done].
  destruct (normalise_with_time (cycle_time (handler w)) S r e) as (t & -> & _).
  destruct (mapR _ l) as [es'|]; destruct (mapR _ l) as [es|];
    simpl in *; try done.
  injection IH as IH. rewrite !filter_cons. simpl. rewrite Hp.
  destruct (decide (p e = true)); [|by rewrite IH].
  rewrite !fmap_cons. simpl. by rewrite IH.
Qed.

Lemma independent_events_norm (fuel : nat) :
  independent_events fuel (norm_world S m w) = independent_events fuel w.
Proof.
  unfold independent_events. rewrite events_norm. apply rbind_ext. intros evs.
  by apply filter_events_norm.
Qed.

Lemma independent_durations_norm :
  independent_durations (norm_world S m w) = independent_durations w.
Proof. unfold independent_durations, durations. by apply filter_events_norm. Qed.

Lemma Event_getattr_norm (fuel : nat) (r : ref) (param : string) :
  Event_getattr fuel (norm_world S m w) r param = Event_getattr fuel w r param.
Proof.
  unfold Event_getattr. rewrite Event_time_norm.
  apply (deref_norm_bind (fun e =>
    if decide (param = "time") then let* t := Event_time fuel w r in Ok (VNum t)
    else if decide (param = "state") then Ok (_state e)
    else Raise (AttributeError param))).
  done.
Qed.

Lemma Event_parameters_norm (fuel : nat) (r : ref) :
  Event_parameters fuel (norm_world S m w) r = Event_parameters fuel w r.
Proof.
  unfold Event_parameters.
  rewrite <- (deref_norm_bind (fun e =>
    let* kvs :=
      mapR (fun param => let* v := Event_getattr fuel w r param in Ok (param, v))
           (_parameters e) in
    Ok (dict_of kvs)) S m w r) by done.
  apply rbind_ext. intros e. f_equal. apply mapR_ext. intros param _.
  by rewrite Event_getattr_norm.
Qed.

Lemma named_parameters_norm (fuel : nat) (l : list ref) :
  named_parameters fuel (norm_world S m w) l = named_parameters fuel w l.
Proof.
  unfold named_parameters. apply mapR_ext. intros r _.
  rewrite Event_parameters_norm.
  by apply (deref_norm_bind (fun e =>
    let* p := Event_parameters fuel w r in Ok (name e, PDict p))).
Qed.

Lemma EventHandler_parameters_norm (fuel : nat) :
  EventHandler_parameters fuel (norm_world S m w)
  = EventHandler_parameters fuel w.
Proof.
  unfold EventHandler_parameters.
  rewrite independent_events_norm, independent_durations_norm.
  apply rbind_ext. intros ievs. rewrite named_parameters_norm.
  apply rbind_ext. intros evs. apply rbind_ext. intros idurs.
  by rewrite named_parameters_norm.
Qed.


End norm.

Section norm_timelines.
Context (S : list ref) (m : gmap string pyval) (w : World).




End norm_timelines.




(** ** The steps of the round trip *)



Lemma sbind_Ok {A B} (m : M A) (k : A → M B) (w w' : World) (a : A) :
  m w = (w', Ok a) → sbind m k w = k a w'.
Proof. unfold sbind. by intros ->. Qed.





Section round_trip.
Context (fuel : nat) (w : World).
Context (d : list (string * ref)) (ievs idurs : list ref)
        (p : list (string * pyparam)).
Hypothesis Hdict : events_dict fuel w = Ok d.
Hypothesis Hievs : independent_events fuel w = Ok ievs.
Hypothesis Hidurs : independent_durations w = Ok idurs.
Hypothesis Hp : EventHandler_parameters fuel w = Ok p.


End round_trip.

(** ** What the views return on a registry with unique names *)

Lemma filter_events_Ok (p : Event → bool) (w : World) (l l' : list ref) :
  filter_events p w l = Ok l' →
  l' = filter (fun r => p <$> heap w !! r = Some true) l
  ∧ Forall (fun r => is_Some (heap w !! r)) l.
Proof.
  unfold filter_events. intros H. apply rbind_Ok in H as (es & Hes & [= <-]).
  apply mapR_Ok in Hes.
  induction Hes as [|r re l es Hr _ [IH1 IH2]]; [done |].
  apply rbind_Ok in Hr as (e & He & [= <-]). apply deref_Ok in He.
  rewrite !filter_cons, He. simpl. split; [|by constructor].
  destruct (decide (p e = true)) as [Hpe | Hpe].
  - rewrite decide_True by by rewrite Hpe.
    rewrite fmap_cons. simpl. by f_equal.
  - by rewrite decide_False by by intros [= ?].
Qed.

Lemma named_Ok (w : World) (l : list ref) :
  Forall (fun r => is_Some (heap w !! r)) l →
  named w l = Ok ((fun r => (name_of w r, r)) <$> l).
Proof.
  unfold named. induction 1 as [|r l [e He] _ IH]; [done |]. simpl.
  rewrite (deref_Some _ _ _ He), IH. simpl. unfold name_of. by rewrite He.
Qed.

Lemma named_parameters_Ok (fuel : nat) (w : World) (l : list ref)
    (E : list (string * pyparam)) :
  named_parameters fuel w l = Ok E →
  E.*1 = name_of w <$> l
  ∧ Forall2 (fun r entry =>
               ∃ e kvs, heap w !! r = Some e
                        ∧ Event_parameters fuel w r = Ok kvs
                        ∧ entry = (name e, PDict kvs)) l E.
Proof.
  unfold named_parameters. rewrite mapR_Ok.
  induction 1 as [|r entry l E Hr _ [IH1 IH2]]; [done |].
  apply rbind_Ok in Hr as (e & He & Hr). apply deref_Ok in He.
  apply rbind_Ok in Hr as (kvs & Hkvs & [= <-]).
  rewrite !fmap_cons. simpl. split.
  - unfold name_of at 1. rewrite He. simpl. by f_equal.
  - constructor; [by exists e, kvs | done].
Qed.

Lemma events_dict_unique (fuel : nat) (w : World) (evs : list ref) :
  events fuel w = Ok evs →
  Forall (fun r => is_Some (heap w !! r)) (durations w) →
  NoDup (name_of w <$> registered w) →
  events_dict fuel w
  = Ok ((fun r => (name_of w r, r)) <$> (evs ++ durations w))
  ∧ NoDup (name_of w <$> (evs ++ durations w)).
Proof.
  intros Hevs Hdurs Hnd.
  assert (NoDup (name_of w <$> (evs ++ durations w))) as Hnd'.
  { unfold registered in Hnd. unfold durations.
    by rewrite fmap_app, (events_Permutation _ _ _ Hevs), <- fmap_app. }
  split; [|done].
  assert (Forall (fun r => is_Some (heap w !! r)) evs) as Hevs'.
  { eapply Forall_impl; [exact (events_resolve _ _ _ Hevs) |].
    intros r [t Ht]. by apply Event_time_deref in Ht. }
  unfold events_dict. rewrite Hevs. simpl.
  rewrite (named_Ok _ _ Hevs'), (named_Ok _ _ Hdurs). simpl.
  rewrite fmap_app in Hnd'.
  assert (∀ l : list ref, ((fun r => (name_of w r, r)) <$> l).*1
                          = name_of w <$> l) as Hfst.
  { intros l. rewrite <- list_fmap_compose. done. }
  apply NoDup_app in Hnd' as Hparts. destruct Hparts as (Hn1 & _ & Hn2).
  rewrite !dict_of_fresh by by rewrite Hfst.
  rewrite dict_update_fresh by by rewrite !Hfst.
  by rewrite fmap_app.
Qed.

Lemma events_dict_item (w : World) (l : list ref) (r : ref) (e : Event) :
  NoDup (name_of w <$> l) →
  r ∈ l →
  heap w !! r = Some e →
  dict_get (name e) ((fun r => (name_of w r, r)) <$> l) = Some r.
Proof.
  intros Hnd Hr He. apply dict_get_fresh.
  - by rewrite <- list_fmap_compose.
  - apply list_elem_of_fmap. exists r. split; [|done].
    unfold name_of. by rewrite He.
Qed.





(** On floats the round trip can change what is read as well: the stored
    time [-2^-70] is read as [10.0], the cycle time, and [10.0], once written
    back, is read as [0.0]. *)
Lemma float_round_trip_changes_resolved_time :
  Event_time_float (-0x1p-70) 10 = Ok 10%float
  ∧ Event_time_float 10 10 = Ok 0%float.
Proof. split; by vm_compute. Qed.



(** * Further properties of the event code *)

(** ** The order of [events] *)

Lemma insert_by_with_key {A} (key : A → Z) (k : Z) (x : A) (l : list A) :
  with_key key k (insert_by key x l) = with_key key k (x :: l).
Proof.
  unfold with_key. induction l as [|y l IH]; simpl; [done |].
  destruct (Z.leb_spec (key x) (key y)) as [Hle | Hlt]; [done |].
  rewrite filter_cons, IH, !filter_cons.
  destruct (decide (key y = k)) as [Hy | Hy];
    destruct (decide (key x = k)) as [Hx | Hx]; try done.
  lia.
Qed.

(** [sorted] is stable: the elements of one key keep their order. *)
Lemma py_sorted_stable {A} (key : A → Z) (k : Z) (l : list A) :
  with_key key k (py_sorted key l) = with_key key k l.
Proof.
  induction l as [|x l IH]; simpl; [done |].
  rewrite insert_by_with_key. unfold with_key in *.
  by rewrite !filter_cons, IH.
Qed.

Lemma with_key_snd (key : ref → Z) (k : Z) (l : list (Z * ref)) :
  Forall (fun kr => key kr.2 = kr.1) l →
  with_key key k l.*2 = (with_key fst k l).*2.
Proof.
  unfold with_key. induction 1 as [|kr l Hkr _ IH]; [done |].
  rewrite fmap_cons, !filter_cons, Hkr.
  destruct (decide (kr.1 = k)); [rewrite fmap_cons |]; by rewrite IH.
Qed.

(** [EventHandler.events] returns every registered event once, in the order
    of the resolved times, and events with the same time in the order in
    which they were added. *)
Theorem events_sorted_stable (fuel : nat) (w : World) (evs : list ref) :
  events fuel w = Ok evs →
  evs ≡ₚ _events (handler w)
  ∧ StronglySorted (key_le (time_of fuel w)) evs
  ∧ ∀ t, with_key (time_of fuel w) t evs
         = with_key (time_of fuel w) t (_events (handler w)).
Proof.
  intros H. split; [by eapply events_Permutation |].
  split; [by apply events_sorted |].
  intros t. unfold events in H. apply rbind_Ok in H as (keyed & Hk & [= <-]).
  assert (Forall (fun kr => time_of fuel w kr.2 = kr.1) keyed) as Hkeys.
  { apply mapR_Ok in Hk. clear -Hk.
    induction Hk as [|r kr l keyed Hr _ IH]; constructor; [|done].
    apply rbind_Ok in Hr as (t & Ht & [= <-]). simpl.
    unfold time_of. by rewrite Ht. }
  apply keyed_snd in Hk as [Hsnd _].
  rewrite with_key_snd by by rewrite py_sorted_Permutation.
  rewrite py_sorted_stable, <- (with_key_snd (time_of fuel w)) by done.
  by rewrite Hsnd.
Qed.

Lemma events_sorted_stable_witness :
  events 2 world_dependent = Ok [0%nat; 1%nat; 2%nat]
  ∧ with_key (time_of 2 world_dependent) 5 [0%nat; 1%nat; 2%nat]
    = with_key (time_of 2 world_dependent) 5
               (_events (handler world_dependent)).
Proof.
  split; [reflexivity |].
  apply (events_sorted_stable 2 world_dependent [0%nat; 1%nat; 2%nat] eq_refl).
Defined.

(** ** Independent and dependent events *)

Lemma filter_events_total (p : Event → bool) (w : World) (l : list ref) :
  Forall (fun r => is_Some (heap w !! r)) l →
  filter_events p w l
  = Ok (filter (fun r => p <$> heap w !! r = Some true) l).
Proof.
  intros Hl.
  assert (∃ l', filter_events p w l = Ok l') as [l' Hl'].
  { unfold filter_events.
    destruct (mapR_total (fun r => let* e := deref w r in Ok (r, e)) l)
      as [es Hes].
    - eapply Forall_impl; [exact Hl |]. intros r [e He].
      exists (r, e). by rewrite (deref_Some _ _ _ He).
    - rewrite Hes. by eexists. }
  rewrite Hl'. f_equal. by apply filter_events_Ok in Hl' as [-> _].
Qed.

Lemma events_allocated (fuel : nat) (w : World) (evs : list ref) :
  events fuel w = Ok evs → Forall (fun r => is_Some (heap w !! r)) evs.
Proof.
  intros H. eapply Forall_impl; [exact (events_resolve _ _ _ H) |].
  intros r [t Ht]. by apply Event_time_deref in Ht.
Qed.

Lemma filter_partition {A} (P Q : A → Prop) `{∀ x, Decision (P x)}
    `{∀ x, Decision (Q x)} (l : list A) :
  (∀ x, x ∈ l → (P x ∨ Q x) ∧ ¬ (P x ∧ Q x)) →
  filter P l ++ filter Q l ≡ₚ l.
Proof.
  induction l as [|x l IH]; intros Hl; [done |].
  rewrite !filter_cons.
  destruct (Hl x ltac:(left)) as [Hor Hnot].
  assert (filter P l ++ filter Q l ≡ₚ l) as IH'
    by (apply IH; intros y Hy; apply Hl; by right).
  destruct (decide (P x)) as [HP | HP]; destruct (decide (Q x)) as [HQ | HQ].
  - destruct Hnot. done.
  - simpl. by rewrite IH'.
  - rewrite <- Permutation_middle. by rewrite IH'.
  - by destruct Hor.
Qed.

(** [independent_events] and [dependent_events] split [events]: an event is
    in the first list when it has no dependency and in the second one when it
    has some, and in no case in both. *)
Theorem independent_dependent_partition
    (fuel : nat) (w : World) (evs : list ref) :
  events fuel w = Ok evs →
  ∃ ievs devs,
    independent_events fuel w = Ok ievs
    ∧ dependent_events fuel w = Ok devs
    ∧ ievs ++ devs ≡ₚ evs
    ∧ (∀ r, r ∈ ievs
            ↔ r ∈ evs ∧ ∃ e, heap w !! r = Some e ∧ _dependencies e = [])
    ∧ (∀ r, r ∈ devs
            ↔ r ∈ evs ∧ ∃ e, heap w !! r = Some e ∧ _dependencies e ≠ [])
    ∧ (∀ r, r ∈ ievs → r ∉ devs).
Proof.
  intros Hevs. pose proof (events_allocated _ _ _ Hevs) as Halloc.
  eexists _, _. unfold independent_events, dependent_events. rewrite Hevs.
  simpl. rewrite !filter_events_total by done.
  split; [done |]. split; [done |].
  assert (∀ r, r ∈ filter (fun r => isIndependent <$> heap w !! r = Some true) evs
               ↔ r ∈ evs ∧ ∃ e, heap w !! r = Some e ∧ _dependencies e = [])
    as Hi.
  { intros r. rewrite list_elem_of_filter. split.
    - intros [Hp Hr]. split; [done |].
      destruct (heap w !! r) as [e|]; [|done]. exists e. split; [done |].
      injection Hp as Hp. by apply isIndependent_true.
    - intros [Hr (e & He & Hd)]. split; [|done]. rewrite He. simpl.
      f_equal. by apply isIndependent_true. }
  assert (∀ r, r ∈ filter (fun r => (fun e => negb (isIndependent e))
                                      <$> heap w !! r = Some true) evs
               ↔ r ∈ evs ∧ ∃ e, heap w !! r = Some e ∧ _dependencies e ≠ [])
    as Hd.
  { intros r. rewrite list_elem_of_filter. split.
    - intros [Hp Hr]. split; [done |].
      destruct (heap w !! r) as [e|]; [|done]. exists e. split; [done |].
      injection Hp as Hp. apply isIndependent_false.
      by apply negb_true_iff in Hp.
    - intros [Hr (e & He & Hd)]. split; [|done]. rewrite He. simpl.
      f_equal. apply negb_true_iff. by apply isIndependent_false. }
  split; [|split; [exact Hi | split; [exact Hd |]]].
  - apply filter_partition. intros r Hr.
    rewrite Forall_forall in Halloc. destruct (Halloc r Hr) as [e He].
    rewrite He. simpl. destruct (isIndependent e); simpl; split.
    + by left.
    + by intros [_ [=]].
    + by right.
    + by intros [[=] _].
  - intros r Hr1 Hr2. apply Hi in Hr1 as (_ & e & He & Hnil).
    apply Hd in Hr2 as (_ & e' & He' & Hne). congruence.
Qed.

Lemma independent_dependent_partition_witness :
  ∃ ievs devs,
    independent_events 2 world_dependent = Ok ievs
    ∧ dependent_events 2 world_dependent = Ok devs
    ∧ ievs ++ devs ≡ₚ [0%nat; 1%nat; 2%nat]
    ∧ (∀ r, r ∈ ievs
            ↔ r ∈ [0%nat; 1%nat; 2%nat]
              ∧ ∃ e, heap world_dependent !! r = Some e ∧ _dependencies e = [])
    ∧ (∀ r, r ∈ devs
            ↔ r ∈ [0%nat; 1%nat; 2%nat]
              ∧ ∃ e, heap world_dependent !! r = Some e ∧ _dependencies e ≠ [])
    ∧ (∀ r, r ∈ ievs → r ∉ devs).
Proof.
  apply (independent_dependent_partition 2 world_dependent
           [0%nat; 1%nat; 2%nat] eq_refl).
Defined.

(** ** Event times and sections *)

Lemma mapR_elem_of_r {A B} (f : A → result B) (l : list A) (k : list B)
    (x : A) (y : B) :
  mapR f l = Ok k → x ∈ l → f x = Ok y → y ∈ k.
Proof.
  rewrite mapR_Ok. induction 1 as [|x' y' l k Hxy _ IH]; intros Hx Hy.
  - by apply elem_of_nil in Hx.
  - apply elem_of_cons in Hx as [-> | Hx].
    + rewrite Hxy in Hy. injection Hy as ->. left.
    + right. by apply IH.
Qed.

(** [EventHandler.event_times] is the strictly increasing list of the
    resolved times of the registered events: every time occurs once, however
    many events share it. *)
Theorem event_times_distinct_sorted (fuel : nat) (w : World) (evs : list ref) :
  events fuel w = Ok evs →
  ∃ ets,
    event_times fuel w = Ok ets
    ∧ StronglySorted Z.lt ets
    ∧ (∀ t, t ∈ ets
            ↔ ∃ r, r ∈ _events (handler w) ∧ Event_time fuel w r = Ok t)
    ∧ (length ets ≤ length (_events (handler w)))%nat.
Proof.
  intros Hevs. destruct (event_times_Ok _ _ _ Hevs) as (ts & Hts & Hets).
  eexists. split; [exact Hets |]. split; [apply set_sorted_strict |].
  pose proof (events_Permutation _ _ _ Hevs) as Hperm. split.
  - intros t. rewrite set_sorted_elem_of. split.
    + intros Ht. destruct (mapR_elem_of _ _ _ _ Hts Ht) as (r & Hr & Hrt).
      exists r. split; [by rewrite <- Hperm | done].
    + intros (r & Hr & Hrt). rewrite <- Hperm in Hr.
      by eapply mapR_elem_of_r.
  - rewrite py_sorted_length, <- Hperm, <- (mapR_length _ _ _ Hts).
    apply submseteq_length, NoDup_submseteq; [apply NoDup_elements |].
    intros t Ht. apply elem_of_elements in Ht.
    by apply elem_of_list_to_set in Ht.
Qed.

Lemma event_times_distinct_sorted_witness :
  ∃ ets,
    event_times 2 world_dependent = Ok ets
    ∧ StronglySorted Z.lt ets
    ∧ (∀ t, t ∈ ets
            ↔ ∃ r, r ∈ _events (handler world_dependent)
                   ∧ Event_time 2 world_dependent r = Ok t)
    ∧ (length ets ≤ length (_events (handler world_dependent)))%nat.
Proof.
  apply (event_times_distinct_sorted 2 world_dependent
           [0%nat; 1%nat; 2%nat] eq_refl).
Defined.

(** With a positive cycle time and numbers that are integers which floats
    hold exactly, no event time equals the cycle time, so [section_times]
    always appends it: the list is [0], unless it is an event time, then the
    event times, then the cycle time; and [n_sections] is the number of event
    times, plus one when no event is at time [0]. (A float that is no such
    integer can resolve to the cycle time itself.) *)
Theorem section_times_closed_form (fuel : nat) (w : World) (evs : list ref) :
  exact_world w →
  0 < cycle_time (handler w) →
  events fuel w = Ok evs →
  ∃ ets,
    event_times fuel w = Ok ets
    ∧ section_times fuel w
      = Ok ((if bool_decide (head ets = Some 0) then [] else [0])
            ++ ets ++ [cycle_time (handler w)])
    ∧ n_sections fuel w
      = Ok (Z.of_nat (length ets)
            + (if bool_decide (head ets = Some 0) then 0 else 1))
    ∧ (length ets ≤ length (_events (handler w)))%nat.
Proof.
  intros _ Hc Hevs.
  destruct (event_times_distinct_sorted _ _ _ Hevs)
    as (ets & Hets & _ & Hmem & Hlen).
  exists ets. split; [done |].
  assert (section_times fuel w
          = Ok ((if bool_decide (head ets = Some 0) then [] else [0])
                ++ ets ++ [cycle_time (handler w)])) as Hst.
  { unfold section_times. rewrite Hets. simpl.
    destruct ets as [|t0 ets'].
    { rewrite bool_decide_true by done. by rewrite bool_decide_false. }
    rewrite bool_decide_false by done.
    set (st1 := if bool_decide (head (t0 :: ets') ≠ Some 0)
                then 0 :: t0 :: ets' else t0 :: ets').
    assert (st1 = (if bool_decide (head (t0 :: ets') = Some 0) then [] else [0])
                  ++ t0 :: ets') as Hst1.
    { subst st1. simpl. destruct (decide (t0 = 0)) as [-> | Hne].
      - rewrite bool_decide_false by (intros H; by apply H).
        by rewrite bool_decide_true.
      - rewrite bool_decide_true by congruence.
        by rewrite bool_decide_false by congruence. }
    assert (last st1 ≠ Some (cycle_time (handler w))) as Hlast.
    { intros Hl. apply last_Some_elem_of in Hl. rewrite Hst1 in Hl.
      apply elem_of_app in Hl as [Hl | Hl].
      - case_bool_decide; [by apply elem_of_nil in Hl |].
        apply list_elem_of_singleton in Hl. lia.
      - apply Hmem in Hl as (r & _ & Hr).
        apply (Event_time_bounds _ _ _ _ Hc) in Hr. lia. }
    rewrite bool_decide_true by done. rewrite Hst1. by rewrite <- app_assoc. }
  split; [done |]. split; [|done].
  unfold n_sections. rewrite Hst. simpl. f_equal.
  rewrite !length_app. simpl. case_bool_decide; simpl; lia.
Qed.

Lemma section_times_closed_form_witness :
  ∃ ets,
    event_times 2 world_dependent = Ok ets
    ∧ section_times 2 world_dependent
      = Ok ((if bool_decide (head ets = Some 0) then [] else [0])
            ++ ets ++ [cycle_time (handler world_dependent)])
    ∧ n_sections 2 world_dependent
      = Ok (Z.of_nat (length ets)
            + (if bool_decide (head ets = Some 0) then 0 else 1))
    ∧ (length ets ≤ length (_events (handler world_dependent)))%nat.
Proof.
  apply (section_times_closed_form 2 world_dependent [0%nat; 1%nat; 2%nat]).
  - split; [by vm_compute | apply (bool_decide_unpack _); by vm_compute].
  - reflexivity.
  - reflexivity.
Defined.

(** A cycle time of zero, which the descriptor accepts, leaves no time
    readable: with an event registered [section_times] raises, and without
    one it is [[0, 0]]. *)
Theorem zero_cycle_time_blocks_views (fuel : nat) (w : World) :
  cycle_time (handler w) = 0 →
  (∀ r t, Event_time fuel w r ≠ Ok t)
  ∧ (_events (handler w) ≠ [] → ∀ st, section_times fuel w ≠ Ok st)
  ∧ (_events (handler w) = [] → section_times fuel w = Ok [0; 0]).
Proof.
  intros Hz.
  assert (∀ r t, Event_time fuel w r ≠ Ok t) as Hno.
  { intros r t Ht. by apply Event_time_nonzero in Ht. }
  split; [done |]. split.
  - intros Hne st Hst. unfold section_times, event_times in Hst.
    apply rbind_Ok in Hst as (ets & Hets & _).
    apply rbind_Ok in Hets as (evs & Hevs & _).
    pose proof (events_resolve _ _ _ Hevs) as Hres.
    rewrite (events_Permutation _ _ _ Hevs) in Hres.
    destruct (_events (handler w)) as [|r l]; [done |].
    apply Forall_cons in Hres as [[t Ht] _]. by apply Hno in Ht.
  - intros Hnil. unfold section_times, event_times.
    rewrite (events_empty _ _ Hnil). simpl. by rewrite Hz.
Qed.

Lemma zero_cycle_time_blocks_views_witness :
  section_times 3
    (exec (set_cycle_time (PVal (VNum 0))) empty_world) = Ok [0; 0]
  ∧ ∀ st, section_times 3
            (exec (set_cycle_time (PVal (VNum 0))) world_dependent) ≠ Ok st.
Proof.
  split.
  - destruct (zero_cycle_time_blocks_views 3
                (exec (set_cycle_time (PVal (VNum 0))) empty_world) eq_refl)
      as (_ & _ & H).
    exact (H eq_refl).
  - destruct (zero_cycle_time_blocks_views 3
                (exec (set_cycle_time (PVal (VNum 0))) world_dependent) eq_refl)
      as (_ & H & _).
    apply H. intros Hnil. vm_compute in Hnil. discriminate Hnil.
Defined.

(** ** Events by parameter *)

Lemma NoDup_dict_set {V} (k : string) (v : V) (d : list (string * V)) :
  NoDup d.*1 → NoDup (dict_set k v d).*1.
Proof.
  induction d as [|[k0 v0] d IH]; simpl; intros Hnd.
  - repeat constructor. apply not_elem_of_nil.
  - apply NoDup_cons in Hnd as [Hk0 Hnd].
    destruct (decide (k0 = k)) as [-> | Hne]; simpl.
    + by constructor.
    + constructor; [|by apply IH].
      intros Hin. apply list_elem_of_fmap in Hin as ([k1 v1] & -> & Hin).
      simpl in *. assert (is_Some (dict_get k1 d)) as [v2 Hv2].
      { assert (dict_get k1 (dict_set k v d) = Some v1) as Hget.
        { apply dict_get_fresh; [by apply IH | done]. }
        rewrite dict_get_set in Hget. rewrite decide_False in Hget by done.
        by eexists. }
      apply Hk0. apply dict_get_elem_of in Hv2.
      apply list_elem_of_fmap. by exists (k1, v2).
Qed.

Lemma NoDup_group_events (es : list (ref * Event))
    (d : list (string * list ref)) :
  NoDup d.*1 → NoDup (foldl group_event d es).*1.
Proof.
  revert d. induction es as [|re es IH]; intros d Hd; [done |].
  simpl. apply IH. unfold group_event. by apply NoDup_dict_set.
Qed.

Lemma dict_get_is_Some {V} (k : string) (d : list (string * V)) :
  is_Some (dict_get k d) ↔ k ∈ d.*1.
Proof.
  induction d as [|[k0 v0] d IH]; simpl.
  - split; [by intros [? ?] | by intros ?%elem_of_nil].
  - destruct (decide (k0 = k)) as [-> | Hne].
    + split; [intros _; left | by eexists].
    + rewrite IH, elem_of_cons. split; [by right |].
      intros [Heq | Hin]; [by symmetry in Heq | done].
Qed.

(** [parameter_events] has one entry for each parameter path that some event
    changes, and the entry lists the events of that path in the order of
    [events]; [event_parameters] lists the same paths, each once. *)
Theorem parameter_events_groups (fuel : nat) (w : World) (evs : list ref) :
  events fuel w = Ok evs →
  ∃ pe ps,
    parameter_events fuel w = Ok pe
    ∧ event_parameters fuel w = Ok ps
    ∧ NoDup pe.*1
    ∧ NoDup ps
    ∧ (∀ path,
         dict_get path pe
         = match events_of_parameter w path evs with
           | [] => None
           | l => Some l
           end)
    ∧ (∀ path, path ∈ ps ↔ path ∈ pe.*1)
    ∧ (∀ path, path ∈ ps ↔ events_of_parameter w path evs ≠ []).
Proof.
  intros Hevs.
  destruct (events_deref _ _ _ Hevs) as (es & Hes & Hfst & Hheap).
  assert (∀ path,
            dict_get path (foldl group_event [] es)
            = match events_of_parameter w path evs with
              | [] => None
              | l => Some l
              end) as Hget.
  { intros path. rewrite group_event_lookup.
    rewrite (events_of_parameter_filter w path es Hheap), Hfst.
    by destruct (events_of_parameter w path evs). }
  assert (∀ path,
            path ∈ elements (list_to_set ((fun re => parameter_path re.2) <$> es)
                             : gset string)
            ↔ events_of_parameter w path evs ≠ []) as Hps.
  { intros path. rewrite elem_of_elements, elem_of_list_to_set.
    rewrite <- Hfst, <- (events_of_parameter_filter w path es Hheap).
    rewrite list_elem_of_fmap. split.
    - intros (re & -> & Hre) Hnil.
      assert (re ∈ filter (fun re0 : ref * Event =>
                             parameter_path re0.2 = parameter_path re.2) es)
        as Hin by by apply list_elem_of_filter.
      apply (list_elem_of_fmap_2 fst) in Hin. rewrite Hnil in Hin.
      by apply elem_of_nil in Hin.
    - intros Hne.
      destruct (filter (fun re : ref * Event => parameter_path re.2 = path) es)
        as [|re l] eqn:Hf; [done |].
      assert (re ∈ filter (fun re : ref * Event => parameter_path re.2 = path) es)
        as Hin by (rewrite Hf; left).
      apply list_elem_of_filter in Hin as [Hp Hin]. by exists re. }
  eexists _, _. unfold parameter_events, event_parameters.
  rewrite Hevs. simpl. rewrite Hes. simpl.
  split; [done |]. split; [done |].
  split; [apply NoDup_group_events; constructor |].
  split; [apply NoDup_elements |]. split; [exact Hget |]. split; [|exact Hps].
  intros path. rewrite Hps, <- dict_get_is_Some, Hget.
  destruct (events_of_parameter w path evs) as [|r l].
  - split; [done | by intros [? ?]].
  - split; [by eexists | done].
Qed.

Lemma parameter_events_groups_witness :
  ∃ pe ps,
    parameter_events 2 world_dependent = Ok pe
    ∧ event_parameters 2 world_dependent = Ok ps
    ∧ NoDup pe.*1
    ∧ NoDup ps
    ∧ (∀ path,
         dict_get path pe
         = match events_of_parameter world_dependent path
                   [0%nat; 1%nat; 2%nat] with
           | [] => None
           | l => Some l
           end)
    ∧ (∀ path, path ∈ ps ↔ path ∈ pe.*1)
    ∧ (∀ path, path ∈ ps
               ↔ events_of_parameter world_dependent path
                   [0%nat; 1%nat; 2%nat] ≠ []).
Proof.
  exact (parameter_events_groups 2 world_dependent [0%nat; 1%nat; 2%nat]
           eq_refl).
Defined.

(** ** What adding dependencies changes *)

Lemma extends_refl (e : Event) : extends e e.
Proof.
  exists [], []. split; [done |]. split; [|done].
  rewrite !app_nil_r. by destruct e.
Qed.

Lemma extends_trans (e1 e2 e3 : Event) :
  extends e1 e2 → extends e2 e3 → extends e1 e3.
Proof.
  intros (ds & fs & Hlen & -> & Hnd) (ds' & fs' & Hlen' & -> & Hnd').
  exists (ds ++ ds'), (fs ++ fs'). split; [rewrite !length_app; lia |].
  split; [simpl; by rewrite !app_assoc |]. auto.
Qed.

Lemma grows_refl (w : World) : grows w w.
Proof.
  split; [done |]. split; [done |]. intros r.
  destruct (heap w !! r); constructor. apply extends_refl.
Qed.

Lemma grows_trans (w1 w2 w3 : World) : grows w1 w2 → grows w2 w3 → grows w1 w3.
Proof.
  intros (Hh & Hm & He) (Hh' & Hm' & He'). split; [congruence |].
  split; [congruence |]. intros r. specialize (He r). specialize (He' r).
  destruct He as [e1 e2 H12|]; inversion He' as [e2' e3 H23|]; subst;
    constructor. by eapply extends_trans.
Qed.

Lemma Event_add_dependency_grows (self dependency : ref) (factor : Z)
    (w : World) :
  grows w (Event_add_dependency self dependency factor w).1.
Proof.
  unfold Event_add_dependency, sbind, sread, sraise, deref.
  destruct (heap w !! self) as [e|] eqn:He; simpl; [|apply grows_refl].
  case_bool_decide as Hin; simpl; [apply grows_refl |].
  split; [done |]. split; [done |]. intros r.
  unfold store_event, with_heap. simpl.
  destruct (decide (self = r)) as [<- | Hne].
  - rewrite lookup_insert_eq, He. constructor.
    exists [dependency], [factor]. split; [done |]. split; [done |].
    simpl. intros Hnd. apply NoDup_app. split; [done |].
    split; [|apply NoDup_singleton].
    intros x Hx Hx'. apply list_elem_of_singleton in Hx' as ->. done.
  - rewrite lookup_insert_ne by done.
    destruct (heap w !! r); constructor. apply extends_refl.
Qed.

Lemma sfor_grows {A} (l : list A) (body : A → M unit) (w : World) :
  (∀ x w0, grows w0 (body x w0).1) → grows w (sfor l body w).1.
Proof.
  intros Hbody. revert w. induction l as [|x l IH]; intros w; simpl.
  - apply grows_refl.
  - unfold sbind. specialize (Hbody x w).
    destruct (body x w) as [w1 [[]|err]]; simpl in *; [|done].
    eapply grows_trans; [exact Hbody | apply IH].
Qed.

Lemma add_event_dependency_grows (fuel : nat) (dependent_event : string)
    (independent_events : list string) (factors : option (list Z))
    (w : World) :
  grows w
    (add_event_dependency fuel dependent_event independent_events factors w).1.
Proof.
  unfold add_event_dependency, sbind at 1, sread at 1.
  destruct (except_KeyError _ _) as [evt|]; simpl; [|apply grows_refl].
  unfold sbind at 1, sread at 1.
  destruct (events_dict fuel w) as [d|]; simpl; [|apply grows_refl].
  destruct (negb _); [apply grows_refl |].
  case_bool_decide; [apply grows_refl |].
  apply sfor_grows. intros [indep fac] w0. unfold sbind, sread. simpl.
  destruct (let* d0 := events_dict fuel w0 in dict_item d0 indep)
    as [r|]; simpl; [|apply grows_refl].
  apply Event_add_dependency_grows.
Qed.

Lemma grows_paired (w w' : World) : grows w w' → paired w → paired w'.
Proof.
  intros (_ & _ & He) Hp r e' He'. specialize (He r). rewrite He' in He.
  inversion He as [e e2 Hext Heq1 Heq2|]; subst. symmetry in Heq1.
  destruct (Hp r e Heq1) as [Hlen Hnd].
  destruct Hext as (ds & fs & Hl & -> & Hnd'). simpl.
  split; [rewrite !length_app; lia | by apply Hnd'].
Qed.

(** Whatever [add_event_dependency] is called with and however it ends, it
    leaves the handler and the process model alone and changes events only by
    adding dependencies with their factors at the end: no dependency is
    dropped or reordered, no time or state is touched, dependencies stay
    paired with factors and no event names a dependency twice. *)
Theorem add_event_dependency_only_appends
    (fuel : nat) (dependent_event : string) (independent_events : list string)
    (factors : option (list Z)) (w : World) :
  paired w →
  grows w
    (add_event_dependency fuel dependent_event independent_events factors w).1
  ∧ paired
      (add_event_dependency fuel dependent_event independent_events factors w).1.
Proof.
  intros Hp. pose proof (add_event_dependency_grows fuel dependent_event
    independent_events factors w) as Hg.
  split; [done | by eapply grows_paired].
Qed.

Lemma add_event_dependency_only_appends_witness :
  paired (exec (add_event_dependency 5 "D" ["X"; "X"] None) world_XYD).
Proof.
  apply (add_event_dependency_only_appends 5 "D" ["X"; "X"] None world_XYD).
  apply (bool_decide_unpack _). by vm_compute.
Defined.

(** ** Dependency cycles *)

Lemma mapR_Ok_elem_of {A B} (f : A → result B) (l : list A) (k : list B)
    (x : A) :
  mapR f l = Ok k → x ∈ l → ∃ y, f x = Ok y.
Proof.
  rewrite mapR_Ok. induction 1 as [|x' y' l k Hxy _ IH]; intros Hx.
  - by apply elem_of_nil in Hx.
  - apply elem_of_cons in Hx as [-> | Hx]; [by exists y' | by apply IH].
Qed.

Lemma Event_time_dependency (fuel : nat) (w : World) (r d : ref) (t : Z) :
  Event_time fuel w r = Ok t →
  depends_on w r d →
  ∃ n t', (n < fuel)%nat ∧ Event_time n w d = Ok t'.
Proof.
  intros Ht (e & He & Hd). destruct fuel as [|n]; [discriminate |].
  rewrite Event_time_unfold, (deref_Some _ _ _ He) in Ht. simpl in Ht.
  assert (isIndependent e = false) as Hi.
  { apply isIndependent_false. intros Hnil. rewrite Hnil in Hd.
    by apply elem_of_nil in Hd. }
  rewrite Hi in Ht. apply rbind_Ok in Ht as (time & Htime & _).
  apply rbind_Ok in Htime as (ts & Hts & _).
  destruct (mapR_Ok_elem_of _ _ _ _ Hts Hd) as [t' Ht'].
  exists n, t'. split; [lia | done].
Qed.

Lemma Event_time_reachable (w : World) (r d : ref) :
  tc (depends_on w) r d →
  ∀ fuel t,
    Event_time fuel w r = Ok t →
    ∃ n t', (n < fuel)%nat ∧ Event_time n w d = Ok t'.
Proof.
  induction 1 as [r d Hrd | r x d Hrx _ IH]; intros fuel t Ht.
  - by eapply Event_time_dependency.
  - destruct (Event_time_dependency _ _ _ _ _ Ht Hrx) as (n & t' & Hn & Ht').
    destruct (IH n t' Ht') as (n' & t'' & Hn' & Ht'').
    exists n', t''. split; [lia | done].
Qed.

(** Nothing guards against cycles: an event that depends on itself, directly
    or through other events, has a time that no read returns, at any
    recursion limit; and [events] with it raises whenever the event is
    registered. *)
Theorem cyclic_dependency_unreadable (w : World) (r : ref) :
  tc (depends_on w) r r →
  (∀ fuel t, Event_time fuel w r ≠ Ok t)
  ∧ (r ∈ _events (handler w) → ∀ fuel evs, events fuel w ≠ Ok evs).
Proof.
  intros Hcycle.
  assert (∀ fuel t, Event_time fuel w r ≠ Ok t) as Hno.
  { intros fuel. induction (lt_wf fuel) as [fuel _ IH]. intros t Ht.
    destruct (Event_time_reachable w r r Hcycle fuel t Ht)
      as (n & t' & Hn & Ht').
    by apply (IH n Hn t'). }
  split; [done |]. intros Hr fuel evs Hevs.
  pose proof (events_resolve _ _ _ Hevs) as Hres.
  rewrite (events_Permutation _ _ _ Hevs) in Hres.
  rewrite Forall_forall in Hres. destruct (Hres r Hr) as [t Ht].
  by apply Hno in Ht.
Qed.

Lemma cyclic_dependency_unreadable_witness :
  (add_event_dependency 5 "X" ["D"] None world_dependent).2 = Ok tt
  ∧ ∀ fuel evs,
      events fuel (exec (add_event_dependency 5 "X" ["D"] None) world_dependent)
      ≠ Ok evs.
Proof.
  split; [by vm_compute |].
  set (w := exec (add_event_dependency 5 "X" ["D"] None) world_dependent).
  assert (depends_on w 0%nat 2%nat) as HXD.
  { exists (mkEvent "X" "unit.flow_rate" None (VNum 1) 12 [2%nat] [1]
                    ["time"; "state"] None None).
    split; [by vm_compute | left]. }
  assert (depends_on w 2%nat 0%nat) as HDX.
  { exists (mkEvent "D" "unit.c" None (VNum 3) 0 [0%nat; 1%nat] [1; -1]
                    ["time"; "state"] None None).
    split; [by vm_compute | left]. }
  destruct (cyclic_dependency_unreadable w 0%nat) as [_ H].
  - eapply tc_l; [exact HXD | by apply tc_once].
  - apply H.
    assert (_events (handler w) = [0%nat; 1%nat; 2%nat]) as ->
      by by vm_compute.
    left.
Defined.

(** ** The setters of an event *)

Lemma norm_world_nil (m : gmap string pyval) (w : World) :
  norm_world [] m w = with_model w m.
Proof.
  unfold norm_world, with_model. f_equal. apply map_eq. intros r.
  rewrite map_lookup_imap. destruct (heap w !! r) as [e|]; simpl; [|done].
  unfold normalise. by rewrite bool_decide_false by apply not_elem_of_nil.
Qed.

Lemma EventHandler_parameters_model (fuel : nat) (m : gmap string pyval)
    (w : World) :
  EventHandler_parameters fuel (with_model w m) = EventHandler_parameters fuel w.
Proof. rewrite <- norm_world_nil. apply EventHandler_parameters_norm. Qed.

(** Reads look at the objects and at the cycle time, at nothing else. *)
Lemma Event_time_ext (fuel : nat) (w w' : World) (r : ref) :
  heap w' = heap w →
  cycle_time (handler w') = cycle_time (handler w) →
  Event_time fuel w' r = Event_time fuel w r.
Proof.
  intros Hh Hc. revert r. induction fuel as [|n IH]; intros r; [done |].
  rewrite !Event_time_unfold. unfold deref. rewrite Hh, Hc.
  destruct (heap w !! r) as [e|]; simpl; [|done].
  by rewrite (mapR_ext _ (Event_time n w)).
Qed.

(** On floats a time and the same time plus the cycle time can be told
    apart: [2^-60] is read as it is, and [2^-60 + 10.0], which is rounded to
    [10.0] when it is computed, is read as [0.0]. *)
Lemma float_time_not_periodic :
  Event_time_float 0x1p-60 10 = Ok 0x1p-60%float
  ∧ Event_time_float (0x1p-60 + 1 * 10) 10 = Ok 0%float.
Proof. split; by vm_compute. Qed.

(** The time of an independent event: what is set is read back modulo the
    cycle time, and the other independent events keep their times. Where the
    numbers are integers which floats hold exactly, times that differ by a
    multiple of the cycle time cannot be told apart by any read. *)
Theorem set_time_then_read
    (fuel : nat) (w : World) (r : ref) (e : Event) (t : Z) :
  heap w !! r = Some e →
  _dependencies e = [] →
  cycle_time (handler w) ≠ 0 →
  (Event_set_time r (VNum t) w).2 = Ok tt
  ∧ Event_time (S fuel) (Event_set_time r (VNum t) w).1 r
    = Ok (t mod cycle_time (handler w))
  ∧ (∀ k n x,
       exact_world w →
       exact t = true →
       exact (t + k * cycle_time (handler w)) = true →
       Event_time n
         (Event_set_time r (VNum (t + k * cycle_time (handler w))) w).1 x
       = Event_time n (Event_set_time r (VNum t) w).1 x)
  ∧ (∀ r' e',
       r' ≠ r → heap w !! r' = Some e' → _dependencies e' = [] →
       Event_time (S fuel) (Event_set_time r (VNum t) w).1 r'
       = Event_time (S fuel) w r').
Proof.
  intros He Hd Hc. rewrite (Event_set_time_independent w r e t He Hd).
  cbn [fst snd]. split; [done |]. split; [|split].
  - apply (Event_time_independent fuel (store_event w r (with_time e t)) r
             (with_time e t)); [apply lookup_insert_eq | done | done].
  - intros k n x _ _ _.
    rewrite (Event_set_time_independent w r e
               (t + k * cycle_time (handler w)) He Hd).
    cbn [fst]. set (c := cycle_time (handler w)).
    rewrite <- (Event_time_norm [r] (model w)
                  (store_event w r (with_time e (t + k * c)))).
    rewrite <- (Event_time_norm [r] (model w)
                  (store_event w r (with_time e t))).
    f_equal. unfold norm_world. simpl. f_equal. apply map_eq. intros r'.
    rewrite !map_lookup_imap, !lookup_insert.
    destruct (decide (r = r')) as [<- | Hne]; simpl; [|done].
    unfold normalise. rewrite !bool_decide_true by left. simpl.
    fold c. by rewrite Z_mod_plus_full.
  - intros r' e' Hne He' Hd'.
    rewrite (Event_time_independent fuel w r' e' He' Hd' Hc).
    apply (Event_time_independent fuel (store_event w r (with_time e t)) r' e');
      [|done | done].
    simpl. by rewrite lookup_insert_ne.
Qed.

Lemma set_time_then_read_witness :
  Event_time 1 (exec (Event_set_time 0%nat (VNum 29)) world_dependent) 0%nat
  = Ok 9
  ∧ Event_time 5
      (exec (Event_set_time 0%nat
               (VNum (29 + (-2) * cycle_time (handler world_dependent))))
            world_dependent) 2%nat
    = Event_time 5 (exec (Event_set_time 0%nat (VNum 29)) world_dependent)
        2%nat.
Proof.
  assert (exact_world world_dependent) as Hexact.
  { split; [by vm_compute | apply (bool_decide_unpack _); by vm_compute]. }
  destruct (set_time_then_read 0 world_dependent 0%nat
    (mkEvent "X" "unit.flow_rate" None (VNum 1) 12 [] []
             ["time"; "state"] None None) 29 eq_refl eq_refl
    ltac:(by vm_compute)) as (_ & H & Hper & _).
  split; [exact H |].
  apply (Hper (-2) 5%nat 2%nat Hexact); by vm_compute.
Defined.

(** Setting the state of an event writes the value through to the process
    model and records it in the event, and in that event only: another event
    on the same parameter keeps the state that it recorded before. *)
Theorem set_state_writes_through
    (fuel : nat) (w : World) (r : ref) (e : Event) (state : pyval)
    (p : list (string * pyparam)) :
  heap w !! r = Some e →
  component_index e = None →
  is_Some (model w !! parameter_path e) →
  EventHandler_parameters fuel w = Ok p →
  Event_set_state fuel r state w
  = (mkWorld (<[r := with_state e state]> (heap w)) (handler w)
             (<[parameter_path e := state]> (model w)), Ok tt)
  ∧ ∀ r',
      r' ≠ r →
      heap (Event_set_state fuel r state w).1 !! r' = heap w !! r'.
Proof.
  intros He Hci [v0 Hv0] Hp.
  assert (Event_set_state fuel r state w
          = (mkWorld (<[r := with_state e state]> (heap w)) (handler w)
                     (<[parameter_path e := state]> (model w)), Ok tt)) as Heq.
  { unfold Event_set_state, sbind at 1, sread at 1.
    rewrite (deref_Some _ _ _ He), Hci.
    unfold write_state, model_get, model_set, sbind, sread.
    rewrite Hp, Hv0, EventHandler_parameters_model, Hp.
    change (model (with_model w (<[parameter_path e:=state]> (model w))))
      with (<[parameter_path e:=state]> (model w)).
    rewrite lookup_insert_eq.
    assert (deref (with_model w (<[parameter_path e:=state]> (model w))) r
            = Ok e) as -> by by apply deref_Some.
    done. }
  split; [done |]. intros r' Hne. rewrite Heq. simpl.
  by rewrite lookup_insert_ne.
Qed.

Lemma set_state_writes_through_witness :
  (Event_set_state 5 0%nat (VNum 7) world_XYD).2 = Ok tt
  ∧ heap (Event_set_state 5 0%nat (VNum 7) world_XYD).1 !! 1%nat
    = heap world_XYD !! 1%nat.
Proof.
  destruct (set_state_writes_through 5 world_XYD 0%nat
    (mkEvent "X" "unit.flow_rate" None (VNum 1) 12 [] []
             ["time"; "state"] None None) (VNum 7)
    [("D", PDict [("time", VNum 0); ("state", VNum 3)]);
     ("X", PDict [("time", VNum 2); ("state", VNum 1)]);
     ("Y", PDict [("time", VNum 5); ("state", VNum 2)]);
     ("cycle_time", PVal (VNum 10))]
    eq_refl eq_refl ltac:(by eexists) eq_refl) as [H1 H2].
  split.
  - exact (f_equal snd H1).
  - apply H2. discriminate.
Defined.

Lemma sbind_Raise {A B} (m : M A) (k : A → M B) (w w' : World) (e : exn) :
  m w = (w', Raise e) → sbind m k w = (w', Raise e).
Proof. unfold sbind. by intros ->. Qed.

Lemma check_component_index_reads (fuel : nat) (path : string)
    (ci : option nat) (w : World) :
  (check_component_index fuel path ci w).1 = w.
Proof.
  destruct ci as [i|]; [|done].
  unfold check_component_index, model_get, sbind, sread, sraise, sret.
  destruct (EventHandler_parameters fuel w); simpl; [|done].
  destruct (model w !! path) as [[z|l]|]; simpl; try done.
  by case_bool_decide.
Qed.

Lemma write_state_component_index (fuel : nat) (path : string) (i : nat)
    (state : pyval) (w : World) :
  ∃ err, write_state fuel path (Some i) state w = (w, Raise err).
Proof.
  unfold write_state, model_get, sbind, sread, sraise.
  destruct (EventHandler_parameters fuel w); simpl; [|by eexists].
  destruct (model w !! path); by eexists.
Qed.

Lemma Event_init_component_index (fuel : nat) (name path : string)
    (state time : pyval) (i : nat) (w : World) :
  ∃ err, Event_init fuel name path state time (Some i) w = (w, Raise err).
Proof.
  unfold Event_init, sbind at 1, sread at 1.
  destruct (negb _); [by eexists |].
  pose proof (check_component_index_reads fuel path (Some i) w) as Hc.
  destruct (check_component_index fuel path (Some i) w) as [w1 [[]|err]] eqn:Hci;
    simpl in Hc; subst w1.
  - rewrite (sbind_Ok _ _ _ _ _ Hci).
    destruct (write_state_component_index fuel path i state w) as [err Hws].
    exists err. by apply sbind_Raise.
  - exists err. by apply sbind_Raise.
Qed.

(** An event with a component index cannot be written: the setter of [state]
    reads the attribute [current_state], which nothing defines, so it raises
    whatever the value and changes nothing; and as the constructor sets the
    state, [add_event] with a component index never returns an event and
    leaves the registry as it was. *)
Theorem component_index_never_works
    (fuel : nat) (w : World) (i : nat) :
  (∀ r e state,
     heap w !! r = Some e → component_index e = Some i →
     (Event_set_state fuel r state w).1 = w
     ∧ (Event_set_state fuel r state w).2 ≠ Ok tt)
  ∧ (∀ name parameter_path state time,
       (add_event fuel name parameter_path state time (Some i) w).1 = w
       ∧ ∀ r, (add_event fuel name parameter_path state time (Some i) w).2
              ≠ Ok r).
Proof.
  split.
  - intros r e state He Hci.
    assert (∃ err, Event_set_state fuel r state w = (w, Raise err))
      as [err ->]; [|by split].
    unfold Event_set_state, sbind at 1, sread at 1.
    rewrite (deref_Some _ _ _ He), Hci.
    destruct (write_state_component_index fuel (parameter_path e) i state w)
      as [err Hws].
    exists err. by apply sbind_Raise.
  - intros name path state time.
    assert (∃ err, add_event fuel name path state time (Some i) w
                   = (w, Raise err)) as [err ->]; [|by split].
    unfold add_event, sbind at 1, sread at 1.
    destruct (events_dict fuel w) as [d|]; [|by eexists].
    destruct (dict_mem name d); [by eexists |].
    destruct (Event_init_component_index fuel name path state time i w)
      as [err Hinit].
    exists err. by apply sbind_Raise.
Qed.

(** ** Removal *)

Lemma remove_first_elem_of (x : ref) (l : list ref) :
  x ∈ l → ∃ l', remove_first x l = Some l' ∧ x :: l' ≡ₚ l.
Proof.
  induction l as [|y l IH]; intros Hx; [by apply elem_of_nil in Hx |].
  simpl. destruct (decide (y = x)) as [-> | Hne]; [by eexists |].
  apply elem_of_cons in Hx as [-> | Hx]; [done |].
  destruct (IH Hx) as (l' & -> & Hperm). exists (y :: l'). split; [done |].
  by rewrite Permutation_swap, Hperm.
Qed.

Lemma remove_first_not_elem_of (x : ref) (l : list ref) :
  x ∉ l → remove_first x l = None.
Proof.
  induction l as [|y l IH]; [done |]. rewrite not_elem_of_cons.
  intros [Hne Hx]. simpl. rewrite decide_False by done. by rewrite IH.
Qed.

Lemma remove_first_split (x : ref) (l1 l2 : list ref) :
  x ∉ l1 → remove_first x (l1 ++ x :: l2) = Some (l1 ++ l2).
Proof.
  induction l1 as [|y l1 IH]; simpl; intros Hx.
  - by rewrite decide_True.
  - apply not_elem_of_cons in Hx as [Hne Hx].
    rewrite decide_False by done. by rewrite (IH Hx).
Qed.

Lemma dict_pop_bound (name : string) (w : World) (x : ref) :
  name ∉ instance_attributes →
  __dict__ (handler w) !! name = Some x →
  dict_pop name w
  = (with_handler w
       (mkHandler (cycle_time (handler w)) (_events (handler w))
                  (_durations (handler w))
                  (section_dependent_parameters (handler w))
                  (polynomial_parameters (handler w))
                  (delete name (__dict__ (handler w)))), Ok tt).
Proof.
  intros Hname Hx. unfold dict_pop. rewrite bool_decide_false by done.
  by rewrite Hx.
Qed.

Lemma dict_pop_unbound (name : string) (w : World) :
  name ∉ instance_attributes →
  __dict__ (handler w) !! name = None →
  dict_pop name w = (w, Raise (KeyError name)).
Proof.
  intros Hname Hx. unfold dict_pop. rewrite bool_decide_false by done.
  by rewrite Hx.
Qed.

(** [remove_event]: a name that is not registered raises "Event does not
    exist"; the name of a duration is found, but [_events.remove] raises
    [ValueError]; in both cases nothing changes. For the name of an event,
    the first occurrence of the event leaves [_events] and the other events
    keep their places; then the attribute of that name leaves the instance
    dictionary. The object stays, and every read of every time, those of the
    events that depend on the removed one included, returns what it returned
    before. When the handler has no attribute of that name, [KeyError] is
    raised after the event has left [_events]. *)
Theorem remove_event_outcomes
    (fuel : nat) (w : World) (evt_name : string) (d : list (string * ref)) :
  events_dict fuel w = Ok d →
  (dict_get evt_name d = None →
     remove_event fuel evt_name w
     = (w, Raise (CADETProcessError "Event does not exist")))
  ∧ (∀ r, dict_get evt_name d = Some r → r ∉ _events (handler w) →
       remove_event fuel evt_name w
       = (w, Raise (ValueError "list.remove(x): x not in list")))
  ∧ (∀ r l1 l2,
       dict_get evt_name d = Some r →
       _events (handler w) = l1 ++ r :: l2 → r ∉ l1 →
       evt_name ∉ instance_attributes →
       (__dict__ (handler w) !! evt_name = None →
          remove_event fuel evt_name w
          = (exec (set_events (l1 ++ l2)) w, Raise (KeyError evt_name)))
       ∧ (is_Some (__dict__ (handler w) !! evt_name) →
          ∃ w',
            remove_event fuel evt_name w = (w', Ok tt)
            ∧ _events (handler w') = l1 ++ l2
            ∧ __dict__ (handler w') = delete evt_name (__dict__ (handler w))
            ∧ _durations (handler w') = _durations (handler w)
            ∧ cycle_time (handler w') = cycle_time (handler w)
            ∧ heap w' = heap w
            ∧ model w' = model w
            ∧ ∀ n x, Event_time n w' x = Event_time n w x)).
Proof.
  intros Hd.
  assert (∀ r, dict_get evt_name d = Some r →
               sread (fun w0 =>
                        except_KeyError
                          (let* d0 := events_dict fuel w0
                           in dict_item d0 evt_name)
                          (CADETProcessError "Event does not exist")) w
               = (w, Ok r)) as Hfind.
  { intros r Hr. unfold sread. rewrite Hd. simpl. unfold dict_item.
    by rewrite Hr. }
  split; [|split].
  - intros Hget. unfold remove_event. apply sbind_Raise.
    unfold sread. rewrite Hd. simpl. unfold dict_item. by rewrite Hget.
  - intros r Hget Hr. unfold remove_event.
    rewrite (sbind_Ok _ _ _ _ _ (Hfind r Hget)). apply sbind_Raise.
    unfold sread, py_list_remove.
    by rewrite (remove_first_not_elem_of _ _ Hr).
  - intros r l1 l2 Hget Hsplit Hr Hname.
    assert (sread (fun w0 => py_list_remove r (_events (handler w0))) w
            = (w, Ok (l1 ++ l2))) as Hrem.
    { unfold sread, py_list_remove.
      by rewrite Hsplit, (remove_first_split _ _ _ Hr). }
    assert (set_events (l1 ++ l2) w = (exec (set_events (l1 ++ l2)) w, Ok tt))
      as Hset by done.
    split.
    + intros Hattr. unfold remove_event.
      rewrite (sbind_Ok _ _ _ _ _ (Hfind r Hget)).
      rewrite (sbind_Ok _ _ _ _ _ Hrem), (sbind_Ok _ _ _ _ _ Hset).
      by apply dict_pop_unbound.
    + intros [x Hattr]. eexists. split.
      { unfold remove_event.
        rewrite (sbind_Ok _ _ _ _ _ (Hfind r Hget)).
        rewrite (sbind_Ok _ _ _ _ _ Hrem), (sbind_Ok _ _ _ _ _ Hset).
        by apply (dict_pop_bound _ _ x). }
      repeat split. intros n x'. by apply Event_time_ext.
Qed.

Lemma remove_event_outcomes_witness :
  remove_event 5 "Z" world_dependent
  = (world_dependent, Raise (CADETProcessError "Event does not exist"))
  ∧ ∃ w',
      remove_event 5 "X" world_dependent = (w', Ok tt)
      ∧ _events (handler w') = [1%nat; 2%nat]
      ∧ Event_time 5 w' 2%nat = Ok 7.
Proof.
  assert (events_dict 5 world_dependent
          = Ok [("X", 0%nat); ("Y", 1%nat); ("D", 2%nat)]) as Hd
    by by vm_compute.
  assert (_events (handler world_dependent) = [] ++ 0%nat :: [1%nat; 2%nat])
    as Hev by by vm_compute.
  assert (__dict__ (handler world_dependent) !! "X" = Some 0%nat) as Hattr
    by by vm_compute.
  assert (Event_time 5 world_dependent 2%nat = Ok 7) as HD by by vm_compute.
  assert ("X" ∉ instance_attributes) as Hname.
  { apply (bool_decide_unpack _). by vm_compute. }
  destruct (remove_event_outcomes 5 world_dependent "Z" _ Hd) as (H1 & _ & _).
  destruct (remove_event_outcomes 5 world_dependent "X" _ Hd) as (_ & _ & H3).
  split; [apply H1; by vm_compute |].
  destruct (H3 0%nat [] [1%nat; 2%nat] ltac:(by vm_compute) Hev
              ltac:(apply not_elem_of_nil) Hname) as [_ H].
  destruct (H ltac:(by eexists))
    as (w' & Heq & Hevs & _ & _ & _ & _ & _ & Hread).
  exists w'. split; [exact Heq |]. split; [exact Hevs |].
  by rewrite Hread.
Defined.

(** [remove_duration] looks the name up among events and durations alike:
    with the name of an event it raises [ValueError] from [_durations.remove]
    and with an unknown name "Duration does not exist", without any change;
    with the name of a duration it takes the first occurrence of the duration
    out of [_durations], where the others keep their places, and then the
    attribute of that name out of the instance dictionary, and leaves the
    events, the objects and every time as they were. When the handler has no
    attribute of that name, [KeyError] is raised after the duration has left
    [_durations]. *)
Theorem remove_duration_outcomes
    (fuel : nat) (w : World) (duration_name : string)
    (d : list (string * ref)) :
  events_dict fuel w = Ok d →
  (dict_get duration_name d = None →
     remove_duration fuel duration_name w
     = (w, Raise (CADETProcessError "Duration does not exist")))
  ∧ (∀ r, dict_get duration_name d = Some r → r ∉ _durations (handler w) →
       remove_duration fuel duration_name w
       = (w, Raise (ValueError "list.remove(x): x not in list")))
  ∧ (∀ r l1 l2,
       dict_get duration_name d = Some r →
       _durations (handler w) = l1 ++ r :: l2 → r ∉ l1 →
       duration_name ∉ instance_attributes →
       (__dict__ (handler w) !! duration_name = None →
          remove_duration fuel duration_name w
          = (exec (set_durations (l1 ++ l2)) w,
             Raise (KeyError duration_name)))
       ∧ (is_Some (__dict__ (handler w) !! duration_name) →
          ∃ w',
            remove_duration fuel duration_name w = (w', Ok tt)
            ∧ _durations (handler w') = l1 ++ l2
            ∧ __dict__ (handler w')
              = delete duration_name (__dict__ (handler w))
            ∧ _events (handler w') = _events (handler w)
            ∧ cycle_time (handler w') = cycle_time (handler w)
            ∧ heap w' = heap w
            ∧ model w' = model w
            ∧ events fuel w' = events fuel w)).
Proof.
  intros Hd.
  assert (∀ r, dict_get duration_name d = Some r →
               sread (fun w0 =>
                        except_KeyError
                          (let* d0 := events_dict fuel w0
                           in dict_item d0 duration_name)
                          (CADETProcessError "Duration does not exist")) w
               = (w, Ok r)) as Hfind.
  { intros r Hr. unfold sread. rewrite Hd. simpl. unfold dict_item.
    by rewrite Hr. }
  split; [|split].
  - intros Hget. unfold remove_duration. apply sbind_Raise.
    unfold sread. rewrite Hd. simpl. unfold dict_item. by rewrite Hget.
  - intros r Hget Hr. unfold remove_duration.
    rewrite (sbind_Ok _ _ _ _ _ (Hfind r Hget)). apply sbind_Raise.
    unfold sread, py_list_remove.
    by rewrite (remove_first_not_elem_of _ _ Hr).
  - intros r l1 l2 Hget Hsplit Hr Hname.
    assert (sread (fun w0 => py_list_remove r (_durations (handler w0))) w
            = (w, Ok (l1 ++ l2))) as Hrem.
    { unfold sread, py_list_remove.
      by rewrite Hsplit, (remove_first_split _ _ _ Hr). }
    assert (set_durations (l1 ++ l2) w
            = (exec (set_durations (l1 ++ l2)) w, Ok tt)) as Hset by done.
    split.
    + intros Hattr. unfold remove_duration.
      rewrite (sbind_Ok _ _ _ _ _ (Hfind r Hget)).
      rewrite (sbind_Ok _ _ _ _ _ Hrem), (sbind_Ok _ _ _ _ _ Hset).
      by apply dict_pop_unbound.
    + intros [x Hattr]. eexists. split.
      { unfold remove_duration.
        rewrite (sbind_Ok _ _ _ _ _ (Hfind r Hget)).
        rewrite (sbind_Ok _ _ _ _ _ Hrem), (sbind_Ok _ _ _ _ _ Hset).
        by apply (dict_pop_bound _ _ x). }
      repeat split. unfold events. simpl. f_equal. apply mapR_ext.
      intros y _. by rewrite (Event_time_ext fuel w).
Qed.

Lemma remove_duration_outcomes_witness :
  remove_duration 5 "X" world_duration
  = (world_duration, Raise (ValueError "list.remove(x): x not in list"))
  ∧ ∃ w',
      remove_duration 5 "span" world_duration = (w', Ok tt)
      ∧ _durations (handler w') = [].
Proof.
  assert (events_dict 5 world_duration
          = Ok [("D", 2%nat); ("X", 0%nat); ("Y", 1%nat); ("span", 3%nat)])
    as Hd by by vm_compute.
  assert (_durations (handler world_duration) = [] ++ 3%nat :: []) as Hdur
    by by vm_compute.
  assert (__dict__ (handler world_duration) !! "span" = Some 3%nat) as Hattr
    by by vm_compute.
  assert ("span" ∉ instance_attributes) as Hname.
  { apply (bool_decide_unpack _). by vm_compute. }
  destruct (remove_duration_outcomes 5 world_duration "X" _ Hd)
    as (_ & H2 & _).
  destruct (remove_duration_outcomes 5 world_duration "span" _ Hd)
    as (_ & _ & H3).
  split.
  - apply (H2 0%nat); [by vm_compute |]. rewrite Hdur.
    intros Hin. apply list_elem_of_singleton in Hin. discriminate Hin.
  - destruct (H3 3%nat [] [] ltac:(by vm_compute) Hdur
                ltac:(apply not_elem_of_nil) Hname) as [_ H].
    destruct (H ltac:(by eexists)) as (w' & Heq & Hdurs & _).
    exists w'. split; [exact Heq | exact Hdurs].
Defined.

(** ** Construction *)

Lemma write_state_Ok (fuel : nat) (w : World) (path : string) (state v : pyval)
    (p : list (string * pyparam)) :
  EventHandler_parameters fuel w = Ok p →
  model w !! path = Some v →
  write_state fuel path None state w
  = (with_model w (<[path := state]> (model w)), Ok state).
Proof.
  intros Hp Hv. unfold write_state, model_get, model_set, sbind, sread.
  rewrite Hp, Hv, EventHandler_parameters_model, Hp.
  change (model (with_model w (<[path:=state]> (model w))))
    with (<[path:=state]> (model w)).
  by rewrite lookup_insert_eq.
Qed.

Lemma Event_init_None (fuel : nat) (w : World) (name path : string)
    (state time v : pyval) (p : list (string * pyparam)) :
  path ∈ section_dependent_parameters (handler w) →
  EventHandler_parameters fuel w = Ok p →
  model w !! path = Some v →
  Event_init fuel name path state time None w
  = (with_model w (<[path := state]> (model w)),
     match time with
     | VNum t => Ok (new_event name path state t)
     | VSeq _ => Raise (TypeError "Expected <class 'float'>")
     end).
Proof.
  intros Hpath Hp Hv. unfold Event_init, sbind at 1, sread at 1.
  rewrite bool_decide_true by done. simpl.
  unfold sbind at 1, sret at 1.
  rewrite (sbind_Ok _ _ _ _ _ (write_state_Ok _ _ _ state _ _ Hp Hv)).
  by destruct time.
Qed.

(** A read that returns does not see objects that are created later. *)
Lemma Event_time_subseteq (fuel : nat) (w w' : World) (r : ref) (t : Z) :
  heap w ⊆ heap w' →
  cycle_time (handler w') = cycle_time (handler w) →
  Event_time fuel w r = Ok t → Event_time fuel w' r = Ok t.
Proof.
  intros Hh Hc. revert r t.
  induction fuel as [|n IH]; intros r t; [discriminate |].
  rewrite !Event_time_unfold. intros H.
  apply rbind_Ok in H as (e & He & H). apply deref_Ok in He.
  rewrite (deref_Some w' r e) by by eapply lookup_weaken.
  simpl. rewrite Hc. apply rbind_Ok in H as (time & Htime & H).
  destruct (isIndependent e).
  - by rewrite Htime.
  - apply rbind_Ok in Htime as (ts & Hts & Hdot).
    assert (mapR (Event_time n w') (_dependencies e) = Ok ts) as ->.
    { apply mapR_Ok. apply mapR_Ok in Hts.
      eapply Forall2_impl; [exact Hts |]. intros d t' Hd. by apply IH. }
    simpl. by rewrite Hdot.
Qed.

Lemma events_total (fuel : nat) (w : World) :
  Forall (fun r => ∃ t, Event_time fuel w r = Ok t) (_events (handler w)) →
  ∃ evs, events fuel w = Ok evs.
Proof.
  intros H. unfold events.
  destruct (mapR_total
              (fun evt => let* t := Event_time fuel w evt in Ok (t, evt))
              (_events (handler w))) as [keyed Hk].
  - eapply Forall_impl; [exact H |]. intros r [t Ht].
    exists (t, r). by rewrite Ht.
  - rewrite Hk. by eexists.
Qed.

Lemma events_dict_parts (fuel : nat) (w : World) (d : list (string * ref)) :
  events_dict fuel w = Ok d →
  ∃ evs, events fuel w = Ok evs
         ∧ Forall (fun r => is_Some (heap w !! r)) (durations w).
Proof.
  unfold events_dict. intros H. apply rbind_Ok in H as (evs & Hevs & H).
  exists evs. split; [done |].
  apply rbind_Ok in H as (evts & _ & H).
  apply rbind_Ok in H as (durs & Hdurs & _).
  unfold named in Hdurs. apply mapR_Ok in Hdurs.
  induction Hdurs as [|r x l k Hr _ IH]; constructor; [|done].
  apply rbind_Ok in Hr as (e & He & _). exists e. by apply deref_Ok.
Qed.

Lemma dict_get_NoDup_ext {V} (k : string) (d d' : list (string * V)) :
  NoDup d.*1 → NoDup d'.*1 →
  (∀ v, (k, v) ∈ d ↔ (k, v) ∈ d') →
  dict_get k d = dict_get k d'.
Proof.
  intros Hd Hd' Hiff. destruct (dict_get k d) as [v|] eqn:Hg.
  - symmetry. apply dict_get_fresh; [done |].
    apply Hiff. by apply dict_get_elem_of.
  - destruct (dict_get k d') as [v|] eqn:Hg'; [|done].
    apply dict_get_elem_of, Hiff in Hg'.
    apply (dict_get_fresh _ _ _ Hd) in Hg'. congruence.
Qed.

Lemma name_of_insert_ne (w w' : World) (r x : ref) (e : Event) :
  heap w' = <[r := e]> (heap w) → x ≠ r → name_of w' x = name_of w x.
Proof. intros Hh Hne. unfold name_of. by rewrite Hh, lookup_insert_ne. Qed.

Lemma name_of_fmap_insert (w w' : World) (r : ref) (e : Event) (l : list ref) :
  heap w' = <[r := e]> (heap w) →
  heap w !! r = None →
  Forall (fun x => is_Some (heap w !! x)) l →
  name_of w' <$> l = name_of w <$> l.
Proof.
  intros Hh Hr Hl. apply list_fmap_ext. intros i x Hx.
  apply (name_of_insert_ne _ _ r _ e Hh). intros ->.
  rewrite Forall_lookup in Hl. destruct (Hl _ _ Hx) as [e' He'].
  congruence.
Qed.

(** The names after one object was created and registered: the new name
    leads to the new object, the other names lead where they led, and the
    names stay unique. *)
Lemma events_dict_after_insert (fuel : nat) (w w' : World) (r : ref)
    (e : Event) (d : list (string * ref)) :
  events_dict fuel w = Ok d →
  NoDup (name_of w <$> registered w) →
  dict_get (name e) d = None →
  heap w !! r = None →
  heap w' = <[r := e]> (heap w) →
  registered w' ≡ₚ r :: registered w →
  Forall (fun x => ∃ t, Event_time fuel w' x = Ok t) (_events (handler w')) →
  ∃ d',
    events_dict fuel w' = Ok d'
    ∧ dict_get (name e) d' = Some r
    ∧ (∀ k, k ≠ name e → dict_get k d' = dict_get k d)
    ∧ NoDup (name_of w' <$> registered w').
Proof.
  intros Hd Hnd Hname Hr Hheap Hreg Hres.
  destruct (events_dict_parts _ _ _ Hd) as (evs & Hevs & Hdurs).
  destruct (events_dict_unique _ _ _ Hevs Hdurs Hnd) as [Hd0 Hnd0].
  rewrite Hd in Hd0. injection Hd0 as ->.
  pose proof (events_Permutation _ _ _ Hevs) as Hperm.
  assert (heap w ⊆ heap w') as Hsub by (rewrite Hheap; by apply insert_subseteq).
  assert (Forall (fun x => is_Some (heap w !! x)) (evs ++ durations w))
    as Halloc.
  { apply Forall_app. split; [by eapply events_allocated | done]. }
  assert (name e ∉ name_of w <$> (evs ++ durations w)) as Hfresh.
  { intros Hin.
    assert (is_Some (dict_get (name e)
                       ((fun r => (name_of w r, r)) <$> (evs ++ durations w))))
      as [x Hx]; [|congruence].
    apply dict_get_is_Some. by rewrite <- list_fmap_compose. }
  destruct (events_total _ _ Hres) as [evs' Hevs'].
  pose proof (events_Permutation _ _ _ Hevs') as Hperm'.
  assert (evs' ++ durations w' ≡ₚ r :: (evs ++ durations w)) as Hall.
  { rewrite Hperm', Hperm. exact Hreg. }
  assert (name_of w' r = name e) as Hnr.
  { unfold name_of. by rewrite Hheap, lookup_insert_eq. }
  assert (name_of w' <$> (evs ++ durations w)
          = name_of w <$> (evs ++ durations w)) as Hold.
  { by apply (name_of_fmap_insert w w' r e). }
  assert (NoDup (name_of w' <$> (evs' ++ durations w'))) as Hnd'.
  { rewrite Hall, fmap_cons, Hnr, Hold. by constructor. }
  assert (NoDup (name_of w' <$> registered w')) as Hndr.
  { unfold registered. unfold durations in Hnd'. by rewrite <- Hperm'. }
  assert (Forall (fun x => is_Some (heap w' !! x)) (durations w')) as Hdurs'.
  { apply Forall_forall. intros x Hx.
    assert (x ∈ evs' ++ durations w') as Hin
      by (apply elem_of_app; by right).
    rewrite Hall in Hin. apply elem_of_cons in Hin as [-> | Hin].
    - exists e. by rewrite Hheap, lookup_insert_eq.
    - rewrite Forall_forall in Halloc. destruct (Halloc _ Hin) as [ex Hex].
      exists ex. by eapply lookup_weaken. }
  destruct (events_dict_unique _ _ _ Hevs' Hdurs' Hndr) as [Hd' _].
  eexists. split; [exact Hd' |]. split.
  - apply (events_dict_item w' _ r e);
      [done | | by rewrite Hheap, lookup_insert_eq].
    rewrite Hall. left.
  - split; [|done]. intros k Hk. apply dict_get_NoDup_ext.
    + by rewrite <- list_fmap_compose.
    + by rewrite <- list_fmap_compose.
    + intros x. rewrite !list_elem_of_fmap. split.
      * intros (y & [= -> ->] & Hy). rewrite Hall in Hy.
        apply elem_of_cons in Hy as [-> | Hy]; [by rewrite Hnr in Hk |].
        exists y. split; [|done]. f_equal.
        apply (name_of_insert_ne w w' r y e Hheap). intros ->.
        rewrite Forall_forall in Halloc. destruct (Halloc _ Hy). congruence.
      * intros (y & [= -> ->] & Hy). exists y. split.
        -- f_equal. symmetry.
           apply (name_of_insert_ne w w' r y e Hheap). intros ->.
           rewrite Forall_forall in Halloc. destruct (Halloc _ Hy). congruence.
        -- rewrite Hall. by right.
Qed.

Lemma object_setattr_plain (name : string) (value : ref) (w : World) :
  name ∉ reserved_names →
  object_setattr name value w
  = (with_handler w
       (mkHandler (cycle_time (handler w)) (_events (handler w))
                  (_durations (handler w))
                  (section_dependent_parameters (handler w))
                  (polynomial_parameters (handler w))
                  (<[name := value]> (__dict__ (handler w)))), Ok tt).
Proof.
  unfold reserved_names, object_attributes.
  rewrite !not_elem_of_app, !not_elem_of_cons.
  intros (Hro & (Hp & Hc & _) & Hown & Hcls & Hdict & Hweak & _).
  unfold object_setattr.
  rewrite bool_decide_false by done. rewrite !decide_False by done.
  by rewrite bool_decide_false.
Qed.

(** [add_event] with a free name that the handler does not use for itself, a
    valid parameter path and a number as time, on a registry whose names are
    unique: it creates one independent event at a new place, appends it to
    [_events], binds it to its name in the instance dictionary, and writes
    the state to the process model; every time that could be read before
    reads the same, the new event reads its time modulo the cycle time; the
    name then leads to the new event, every other name leads where it led
    before, and the names are unique again. *)
Theorem add_event_registers
    (n : nat) (w : World) (name path : string) (state v : pyval) (t : Z)
    (d : list (string * ref)) (p : list (string * pyparam)) :
  events_dict (S n) w = Ok d →
  NoDup (name_of w <$> registered w) →
  dict_get name d = None →
  name ∉ reserved_names →
  path ∈ section_dependent_parameters (handler w) →
  EventHandler_parameters (S n) w = Ok p →
  model w !! path = Some v →
  cycle_time (handler w) ≠ 0 →
  ∃ r w' d',
    heap w !! r = None
    ∧ w' = constructed w r (new_event name path state t)
             (mkHandler (cycle_time (handler w)) (_events (handler w) ++ [r])
                        (_durations (handler w))
                        (section_dependent_parameters (handler w))
                        (polynomial_parameters (handler w))
                        (<[name := r]> (__dict__ (handler w))))
             path state
    ∧ add_event (S n) name path state (VNum t) None w = (w', Ok r)
    ∧ Event_time (S n) w' r = Ok (t mod cycle_time (handler w))
    ∧ (∀ m x t', Event_time m w x = Ok t' → Event_time m w' x = Ok t')
    ∧ events_dict (S n) w' = Ok d'
    ∧ dict_get name d' = Some r
    ∧ (∀ k, k ≠ name → dict_get k d' = dict_get k d)
    ∧ NoDup (name_of w' <$> registered w').
Proof.
  intros Hd Hnd Hname Hplain Hpath Hp Hv Hc.
  set (r := fresh (dom (heap w))).
  assert (heap w !! r = None) as Hr by (apply not_elem_of_dom, is_fresh).
  set (e := new_event name path state t).
  set (w' := constructed w r e
               (mkHandler (cycle_time (handler w)) (_events (handler w) ++ [r])
                          (_durations (handler w))
                          (section_dependent_parameters (handler w))
                          (polynomial_parameters (handler w))
                          (<[name := r]> (__dict__ (handler w))))
               path state).
  assert (heap w' = <[r := e]> (heap w)) as Hheap by done.
  assert (∀ m x t', Event_time m w x = Ok t' → Event_time m w' x = Ok t')
    as Hframe.
  { intros m x t'. apply Event_time_subseteq; [|done].
    by apply insert_subseteq. }
  assert (Event_time (S n) w' r = Ok (t mod cycle_time (handler w))) as Hnew.
  { apply (Event_time_independent n w' r e); [|done|done].
    rewrite Hheap. apply lookup_insert_eq. }
  destruct (events_dict_parts _ _ _ Hd) as (evs & Hevs & _).
  destruct (events_dict_after_insert (S n) w w' r e d Hd Hnd Hname Hr Hheap)
    as (d' & Hd' & Hget & Hother & Hnd').
  { unfold registered.
    change (_events (handler w')) with (_events (handler w) ++ [r]).
    change (_durations (handler w')) with (_durations (handler w)).
    rewrite <- app_assoc. simpl. by rewrite <- Permutation_middle. }
  { change (_events (handler w')) with (_events (handler w) ++ [r]).
    apply Forall_app. split.
    - rewrite <- (events_Permutation _ _ _ Hevs).
      eapply Forall_impl; [exact (events_resolve _ _ _ Hevs) |].
      intros x [t' Hx]. exists t'. by apply Hframe.
    - constructor; [by eexists | constructor]. }
  exists r, w', d'. split; [done |]. split; [done |]. split.
  { unfold add_event, sbind at 1, sread at 1. rewrite Hd.
    unfold dict_mem. rewrite Hname.
    rewrite bool_decide_false by by intros [? ?].
    rewrite (sbind_Ok _ _ _ _ _
               (Event_init_None _ _ name _ state (VNum t) _ _ Hpath Hp Hv)).
    unfold sbind at 1, alloc. unfold sbind at 1, append_event.
    by rewrite (sbind_Ok _ _ _ _ _ (object_setattr_plain name _ _ Hplain)). }
  done.
Qed.

Lemma add_event_registers_witness :
  ∃ r w',
    add_event 5 "Z" "unit.c" (VNum 4) (VNum 27) None world_XYD = (w', Ok r)
    ∧ Event_time 5 w' r = Ok 7
    ∧ Event_time 5 w' 0%nat = Ok 2.
Proof.
  assert (events_dict 5 world_XYD
          = Ok [("D", 2%nat); ("X", 0%nat); ("Y", 1%nat)]) as Hd
    by by vm_compute.
  assert (NoDup (name_of world_XYD <$> registered world_XYD)) as Hnd.
  { apply (bool_decide_unpack _). by vm_compute. }
  assert ("unit.c" ∈ section_dependent_parameters (handler world_XYD))
    as Hpath.
  { apply (bool_decide_unpack _). by vm_compute. }
  assert (EventHandler_parameters 5 world_XYD
          = Ok [("D", PDict [("time", VNum 0); ("state", VNum 3)]);
                ("X", PDict [("time", VNum 2); ("state", VNum 1)]);
                ("Y", PDict [("time", VNum 5); ("state", VNum 2)]);
                ("cycle_time", PVal (VNum 10))]) as Hp
    by by vm_compute.
  assert (model world_XYD !! "unit.c" = Some (VNum 3)) as Hv by by vm_compute.
  assert (cycle_time (handler world_XYD) = 10) as Hc by by vm_compute.
  assert (Event_time 5 world_XYD 0%nat = Ok 2) as HX by by vm_compute.
  assert ("Z" ∉ reserved_names) as Hplain.
  { apply (bool_decide_unpack _). by vm_compute. }
  destruct (add_event_registers 4 world_XYD "Z" "unit.c" (VNum 4) (VNum 3) 27
              _ _ Hd Hnd eq_refl Hplain Hpath Hp Hv ltac:(by rewrite Hc))
    as (r & w' & d' & _ & _ & Hadd & Hnew & Hframe & _).
  exists r, w'. split; [exact Hadd |]. split.
  - rewrite Hc in Hnew. exact Hnew.
  - by apply Hframe.
Defined.

(** What [add_event] refuses, and what it leaves behind. A name that is
    taken, by an event or by a duration, and a parameter path that the
    process model does not list, are refused before anything is written. A
    time that is not a number is refused only after the state has been
    written: the call raises [TypeError] and registers nothing, but the
    process model keeps the new state. *)
Theorem add_event_rejections
    (fuel : nat) (w : World) (name path : string) (state : pyval)
    (d : list (string * ref)) :
  events_dict fuel w = Ok d →
  (is_Some (dict_get name d) →
     ∀ time ci,
       add_event fuel name path state time ci w
       = (w, Raise (CADETProcessError "Event already exists")))
  ∧ (dict_get name d = None →
     path ∉ section_dependent_parameters (handler w) →
     ∀ time ci,
       add_event fuel name path state time ci w
       = (w, Raise (CADETProcessError "Not a valid event parameter")))
  ∧ (dict_get name d = None →
     path ∈ section_dependent_parameters (handler w) →
     ∀ p v l,
       EventHandler_parameters fuel w = Ok p →
       model w !! path = Some v →
       add_event fuel name path state (VSeq l) None w
       = (with_model w (<[path := state]> (model w)),
          Raise (TypeError "Expected <class 'float'>"))).
Proof.
  intros Hd. split; [|split].
  - intros Hin time ci. unfold add_event, sbind at 1, sread at 1.
    rewrite Hd. unfold dict_mem. by rewrite bool_decide_true.
  - intros Hname Hpath time ci. unfold add_event, sbind at 1, sread at 1.
    rewrite Hd. unfold dict_mem. rewrite Hname.
    rewrite bool_decide_false by by intros [? ?].
    apply sbind_Raise. unfold Event_init, sbind at 1, sread at 1.
    by rewrite bool_decide_false.
  - intros Hname Hpath p v l Hp Hv. unfold add_event, sbind at 1, sread at 1.
    rewrite Hd. unfold dict_mem. rewrite Hname.
    rewrite bool_decide_false by by intros [? ?].
    apply sbind_Raise.
    by rewrite (Event_init_None _ _ name _ state (VSeq l) _ _ Hpath Hp Hv).
Qed.

Lemma add_event_rejections_witness :
  add_event 5 "X" "unit.c" (VNum 4) (VNum 1) None world_XYD
  = (world_XYD, Raise (CADETProcessError "Event already exists"))
  ∧ add_event 5 "Z" "unit.volume" (VNum 4) (VNum 1) None world_XYD
    = (world_XYD, Raise (CADETProcessError "Not a valid event parameter"))
  ∧ (add_event 5 "Z" "unit.c" (VNum 4) (VSeq [1]) None world_XYD).2
    = Raise (TypeError "Expected <class 'float'>")
  ∧ model (exec (add_event 5 "Z" "unit.c" (VNum 4) (VSeq [1]) None) world_XYD)
      !! "unit.c" = Some (VNum 4).
Proof.
  assert (events_dict 5 world_XYD
          = Ok [("D", 2%nat); ("X", 0%nat); ("Y", 1%nat)]) as Hd
    by by vm_compute.
  assert ("unit.c" ∈ section_dependent_parameters (handler world_XYD))
    as Hpath.
  { apply (bool_decide_unpack _). by vm_compute. }
  assert ("unit.volume" ∉ section_dependent_parameters (handler world_XYD))
    as Hpath'.
  { apply (bool_decide_unpack _). by vm_compute. }
  assert (EventHandler_parameters 5 world_XYD
          = Ok [("D", PDict [("time", VNum 0); ("state", VNum 3)]);
                ("X", PDict [("time", VNum 2); ("state", VNum 1)]);
                ("Y", PDict [("time", VNum 5); ("state", VNum 2)]);
                ("cycle_time", PVal (VNum 10))]) as Hp
    by by vm_compute.
  assert (model world_XYD !! "unit.c" = Some (VNum 3)) as Hv by by vm_compute.
  destruct (add_event_rejections 5 world_XYD "X" "unit.c" (VNum 4) _ Hd)
    as (H1 & _ & _).
  destruct (add_event_rejections 5 world_XYD "Z" "unit.volume" (VNum 4) _ Hd)
    as (_ & H2 & _).
  destruct (add_event_rejections 5 world_XYD "Z" "unit.c" (VNum 4) _ Hd)
    as (_ & _ & H3).
  split; [apply H1; by eexists |]. split; [by apply H2 |].
  unfold exec. rewrite (H3 eq_refl Hpath _ _ [1] Hp Hv). split; [done |].
  apply lookup_insert_eq.
Defined.

(** What [add_duration] refuses, in the order in which it checks: a name that
    is taken, a start event and an end event that do not exist, and two
    events that change different parameters. Nothing is written in any of
    these cases. *)
Theorem add_duration_rejections
    (fuel : nat) (w : World) (name start_name end_name : string) (time : pyval)
    (d : list (string * ref)) :
  events_dict fuel w = Ok d →
  (is_Some (dict_get name d) →
     add_duration fuel name start_name end_name time w
     = (w, Raise (CADETProcessError "Duration already exists")))
  ∧ (dict_get name d = None → dict_get start_name d = None →
     add_duration fuel name start_name end_name time w
     = (w, Raise (CADETProcessError "Start event does not exist")))
  ∧ (dict_get name d = None → is_Some (dict_get start_name d) →
     dict_get end_name d = None →
     add_duration fuel name start_name end_name time w
     = (w, Raise (CADETProcessError "End event does not exist")))
  ∧ (∀ rs re s e,
       dict_get name d = None →
       dict_get start_name d = Some rs → dict_get end_name d = Some re →
       heap w !! rs = Some s → heap w !! re = Some e →
       parameter_path s ≠ parameter_path e →
       add_duration fuel name start_name end_name time w
       = (w, Raise (CADETProcessError "Event parameters don't match"))).
Proof.
  intros Hd. split; [|split; [|split]].
  - intros Hin. unfold add_duration, sbind at 1, sread at 1.
    rewrite Hd. unfold dict_mem. by rewrite bool_decide_true.
  - intros Hname Hstart. unfold add_duration, sbind at 1, sread at 1.
    rewrite Hd. unfold dict_mem. rewrite Hname.
    rewrite bool_decide_false by by intros [? ?].
    unfold sbind at 1, sread at 1. rewrite Hd. simpl.
    unfold dict_item. by rewrite Hstart.
  - intros Hname [rs Hstart] Hend.
    unfold add_duration, sbind at 1, sread at 1.
    rewrite Hd. unfold dict_mem. rewrite Hname.
    rewrite bool_decide_false by by intros [? ?].
    unfold sbind at 1, sread at 1. rewrite Hd. simpl.
    unfold dict_item at 1. rewrite Hstart. simpl.
    unfold sbind at 1, sread at 1. rewrite Hd. simpl.
    unfold dict_item. by rewrite Hend.
  - intros rs re s e Hname Hstart Hend Hs He Hne.
    unfold add_duration, sbind at 1, sread at 1.
    rewrite Hd. unfold dict_mem. rewrite Hname.
    rewrite bool_decide_false by by intros [? ?].
    unfold sbind at 1, sread at 1. rewrite Hd. simpl.
    unfold dict_item at 1. rewrite Hstart. simpl.
    unfold sbind at 1, sread at 1. rewrite Hd. simpl.
    unfold dict_item at 1. rewrite Hend. simpl.
    unfold sbind at 1, sread at 1. rewrite (deref_Some _ _ _ Hs).
    unfold sbind at 1, sread at 1. rewrite (deref_Some _ _ _ He).
    by rewrite bool_decide_true.
Qed.

Lemma add_duration_rejections_witness :
  add_duration 5 "X" "X" "Y" (VNum 3) world_XYD
  = (world_XYD, Raise (CADETProcessError "Duration already exists"))
  ∧ add_duration 5 "span" "Z" "Y" (VNum 3) world_XYD
    = (world_XYD, Raise (CADETProcessError "Start event does not exist"))
  ∧ add_duration 5 "span" "X" "Z" (VNum 3) world_XYD
    = (world_XYD, Raise (CADETProcessError "End event does not exist"))
  ∧ add_duration 5 "span" "X" "D" (VNum 3) world_XYD
    = (world_XYD, Raise (CADETProcessError "Event parameters don't match")).
Proof.
  assert (events_dict 5 world_XYD
          = Ok [("D", 2%nat); ("X", 0%nat); ("Y", 1%nat)]) as Hd
    by by vm_compute.
  assert (heap world_XYD !! 0%nat
          = Some (mkEvent "X" "unit.flow_rate" None (VNum 1) 12 [] []
                          ["time"; "state"] None None)) as HX
    by by vm_compute.
  assert (heap world_XYD !! 2%nat
          = Some (mkEvent "D" "unit.c" None (VNum 3) 0 [] []
                          ["time"; "state"] None None)) as HD
    by by vm_compute.
  destruct (add_duration_rejections 5 world_XYD "X" "X" "Y" (VNum 3) _ Hd)
    as (H1 & _).
  destruct (add_duration_rejections 5 world_XYD "span" "Z" "Y" (VNum 3) _ Hd)
    as (_ & H2 & _).
  destruct (add_duration_rejections 5 world_XYD "span" "X" "Z" (VNum 3) _ Hd)
    as (_ & _ & H3 & _).
  destruct (add_duration_rejections 5 world_XYD "span" "X" "D" (VNum 3) _ Hd)
    as (_ & _ & _ & H4).
  split; [apply H1; by eexists |]. split; [by apply H2 |].
  split; [apply H3; [done | by eexists | done] |].
  apply (H4 0%nat 2%nat _ _ eq_refl eq_refl eq_refl HX HD). discriminate.
Defined.

Lemma Duration_init_None (fuel : nat) (w : World) (name : string)
    (rs re : ref) (s : Event) (t : Z) (v : pyval)
    (p : list (string * pyparam)) :
  heap w !! rs = Some s →
  component_index s = None →
  parameter_path s ∈ section_dependent_parameters (handler w) →
  EventHandler_parameters fuel w = Ok p →
  model w !! parameter_path s = Some v →
  Duration_init fuel name rs re (VNum t) w
  = (with_model w (<[parameter_path s := _state s]> (model w)),
     Ok (as_duration (new_event name (parameter_path s) (_state s) t) rs re)).
Proof.
  intros Hs Hci Hpath Hp Hv. unfold Duration_init, sbind at 1, sread at 1.
  rewrite (deref_Some _ _ _ Hs), Hci.
  by rewrite (sbind_Ok _ _ _ _ _
                (Event_init_None _ _ name _ (_state s) (VNum t) _ _
                                 Hpath Hp Hv)).
Qed.

(** [add_duration] with a free name that the handler does not use for
    itself, between two events of one parameter, on a registry with unique
    names: the duration is one new object that copies the parameter path and
    the state of the start event, lists [time] as its only parameter, joins
    [_durations] and is bound to its name in the instance dictionary. As the
    constructor of [Event] runs, the state of the start event is written to
    the process model. The events, their times and the section times are
    what they were; the name leads to the duration and the names stay
    unique. *)
Theorem add_duration_registers
    (fuel : nat) (w : World) (name start_name end_name : string) (t : Z)
    (d : list (string * ref)) (rs re : ref) (s e : Event)
    (p : list (string * pyparam)) (v : pyval) :
  events_dict fuel w = Ok d →
  NoDup (name_of w <$> registered w) →
  dict_get name d = None →
  name ∉ reserved_names →
  dict_get start_name d = Some rs →
  dict_get end_name d = Some re →
  heap w !! rs = Some s →
  heap w !! re = Some e →
  parameter_path s = parameter_path e →
  component_index s = None →
  parameter_path s ∈ section_dependent_parameters (handler w) →
  EventHandler_parameters fuel w = Ok p →
  model w !! parameter_path s = Some v →
  ∃ r w' d',
    heap w !! r = None
    ∧ w' = constructed w r
             (as_duration (new_event name (parameter_path s) (_state s) t)
                          rs re)
             (mkHandler (cycle_time (handler w)) (_events (handler w))
                        (_durations (handler w) ++ [r])
                        (section_dependent_parameters (handler w))
                        (polynomial_parameters (handler w))
                        (<[name := r]> (__dict__ (handler w))))
             (parameter_path s) (_state s)
    ∧ add_duration fuel name start_name end_name (VNum t) w = (w', Ok tt)
    ∧ events fuel w' = events fuel w
    ∧ section_times fuel w' = section_times fuel w
    ∧ events_dict fuel w' = Ok d'
    ∧ dict_get name d' = Some r
    ∧ (∀ k, k ≠ name → dict_get k d' = dict_get k d)
    ∧ NoDup (name_of w' <$> registered w').
Proof.
  intros Hd Hnd Hname Hplain Hstart Hend Hs He Hpe Hci Hpath Hp Hv.
  set (r := fresh (dom (heap w))).
  assert (heap w !! r = None) as Hr by (apply not_elem_of_dom, is_fresh).
  set (dur := as_duration (new_event name (parameter_path s) (_state s) t)
                          rs re).
  set (w' := constructed w r dur
               (mkHandler (cycle_time (handler w)) (_events (handler w))
                          (_durations (handler w) ++ [r])
                          (section_dependent_parameters (handler w))
                          (polynomial_parameters (handler w))
                          (<[name := r]> (__dict__ (handler w))))
               (parameter_path s) (_state s)).
  assert (heap w' = <[r := dur]> (heap w)) as Hheap by done.
  destruct (events_dict_parts _ _ _ Hd) as (evs & Hevs & _).
  pose proof (events_Permutation _ _ _ Hevs) as Hperm.
  assert (∀ x, x ∈ _events (handler w) →
               Event_time fuel w' x = Event_time fuel w x) as Hsame.
  { intros x Hx. rewrite <- Hperm in Hx.
    pose proof (events_resolve _ _ _ Hevs) as Hres.
    rewrite Forall_forall in Hres. destruct (Hres _ Hx) as [t' Ht'].
    rewrite Ht'. apply (Event_time_subseteq fuel w w'); [|done|done].
    by apply insert_subseteq. }
  assert (events fuel w' = events fuel w) as Hevents.
  { unfold events. change (_events (handler w')) with (_events (handler w)).
    rewrite (mapR_ext _ (fun evt => let* t := Event_time fuel w evt
                                    in Ok (t, evt))); [done |].
    intros x Hx. by rewrite Hsame. }
  assert (section_times fuel w' = section_times fuel w) as Hsections.
  { unfold section_times, event_times. rewrite Hevents, Hevs. simpl.
    rewrite (mapR_ext _ (Event_time fuel w)); [done |].
    intros x Hx. apply Hsame. by rewrite <- Hperm. }
  destruct (events_dict_after_insert fuel w w' r dur d Hd Hnd Hname Hr Hheap)
    as (d' & Hd' & Hget & Hother & Hnd').
  { unfold registered.
    change (_events (handler w')) with (_events (handler w)).
    change (_durations (handler w')) with (_durations (handler w) ++ [r]).
    rewrite app_assoc. by rewrite <- Permutation_cons_append. }
  { change (_events (handler w')) with (_events (handler w)).
    apply Forall_forall. intros x Hx. rewrite (Hsame _ Hx).
    rewrite <- Hperm in Hx.
    pose proof (events_resolve _ _ _ Hevs) as Hres.
    rewrite Forall_forall in Hres. by apply Hres. }
  exists r, w', d'. split; [done |]. split; [done |]. split.
  { unfold add_duration, sbind at 1, sread at 1. rewrite Hd.
    unfold dict_mem. rewrite Hname.
    rewrite bool_decide_false by by intros [? ?].
    unfold sbind at 1, sread at 1. rewrite Hd. simpl.
    unfold dict_item at 1. rewrite Hstart. simpl.
    unfold sbind at 1, sread at 1. rewrite Hd. simpl.
    unfold dict_item at 1. rewrite Hend. simpl.
    unfold sbind at 1, sread at 1. rewrite (deref_Some _ _ _ Hs).
    unfold sbind at 1, sread at 1. rewrite (deref_Some _ _ _ He).
    rewrite bool_decide_false by by intros H; apply H.
    rewrite (sbind_Ok _ _ _ _ _
               (Duration_init_None _ _ name _ re _ t _ _ Hs Hci Hpath Hp Hv)).
    unfold sbind at 1, alloc. unfold sbind at 1, append_duration.
    by rewrite (object_setattr_plain name _ _ Hplain). }
  done.
Qed.

Lemma constructed_model (w : World) (r : ref) (obj : Event) (h : EventHandler)
    (path : string) (state : pyval) :
  model (constructed w r obj h path state) !! path = Some state.
Proof. apply lookup_insert_eq. Qed.

Lemma constructed_heap (w : World) (r : ref) (obj : Event) (h : EventHandler)
    (path : string) (state : pyval) :
  heap (constructed w r obj h path state) !! r = Some obj.
Proof. apply lookup_insert_eq. Qed.

Lemma add_duration_registers_witness :
  model world_XYD !! "unit.flow_rate" = Some (VNum 2)
  ∧ ∃ r w',
      add_duration 5 "span" "X" "Y" (VNum 3) world_XYD = (w', Ok tt)
      ∧ section_times 5 w' = section_times 5 world_XYD
      ∧ model w' !! "unit.flow_rate" = Some (VNum 1)
      ∧ _parameters <$> heap w' !! r = Some ["time"].
Proof.
  assert (events_dict 5 world_XYD
          = Ok [("D", 2%nat); ("X", 0%nat); ("Y", 1%nat)]) as Hd
    by by vm_compute.
  assert (NoDup (name_of world_XYD <$> registered world_XYD)) as Hnd.
  { apply (bool_decide_unpack _). by vm_compute. }
  assert (heap world_XYD !! 0%nat
          = Some (mkEvent "X" "unit.flow_rate" None (VNum 1) 12 [] []
                          ["time"; "state"] None None)) as HX
    by by vm_compute.
  assert (heap world_XYD !! 1%nat
          = Some (mkEvent "Y" "unit.flow_rate" None (VNum 2) 5 [] []
                          ["time"; "state"] None None)) as HY
    by by vm_compute.
  assert ("unit.flow_rate" ∈ section_dependent_parameters (handler world_XYD))
    as Hpath.
  { apply (bool_decide_unpack _). by vm_compute. }
  assert (EventHandler_parameters 5 world_XYD
          = Ok [("D", PDict [("time", VNum 0); ("state", VNum 3)]);
                ("X", PDict [("time", VNum 2); ("state", VNum 1)]);
                ("Y", PDict [("time", VNum 5); ("state", VNum 2)]);
                ("cycle_time", PVal (VNum 10))]) as Hp
    by by vm_compute.
  assert (model world_XYD !! "unit.flow_rate" = Some (VNum 2)) as Hv
    by by vm_compute.
  split; [exact Hv |].
  assert ("span" ∉ reserved_names) as Hplain.
  { apply (bool_decide_unpack _). by vm_compute. }
  destruct (add_duration_registers 5 world_XYD "span" "X" "Y" 3 _ 0%nat 1%nat
              _ _ _ _ Hd Hnd eq_refl Hplain eq_refl eq_refl HX HY eq_refl
              eq_refl Hpath Hp Hv)
    as (r & w' & d' & _ & Hw' & Hadd & _ & Hsec & _).
  exists r, w'. split; [exact Hadd |]. split; [exact Hsec |].
  rewrite Hw'. split; [apply constructed_model |].
  by rewrite constructed_heap.
Defined.

(** ** The positions of the carousel *)

(** [unit_index] with a positive number of columns: in every state of the
    carousel the positions [0 .. n_columns - 1] are mapped one-to-one onto
    the columns [0 .. n_columns - 1], so no two positions share a column and
    no column is left out; in state [0] every position holds the column of
    its own number, and after [n_columns] switches the carousel is back where
    it was. *)
Theorem unit_index_rotation (n_columns carousel_state : Z) :
  0 < n_columns →
  (∀ p, ∃ u, unit_index n_columns p carousel_state = Ok u ∧ 0 ≤ u < n_columns)
  ∧ (∀ p p',
       0 ≤ p < n_columns → 0 ≤ p' < n_columns →
       unit_index n_columns p carousel_state
       = unit_index n_columns p' carousel_state →
       p = p')
  ∧ (∀ u, 0 ≤ u < n_columns →
          ∃ p, 0 ≤ p < n_columns
               ∧ unit_index n_columns p carousel_state = Ok u)
  ∧ (∀ p, 0 ≤ p < n_columns → unit_index n_columns p 0 = Ok p)
  ∧ (∀ p, unit_index n_columns p (carousel_state + n_columns)
          = unit_index n_columns p carousel_state).
Proof.
  intros Hn.
  assert (∀ p s, unit_index n_columns p s = Ok ((p + s) mod n_columns))
    as Hmod.
  { intros p s. unfold unit_index, py_mod. by rewrite decide_False by lia. }
  split; [|split; [|split; [|split]]].
  - intros p. rewrite Hmod. eexists. split; [done |].
    by apply Z.mod_pos_bound.
  - intros p p' Hp Hp'. rewrite !Hmod. intros [= Heq].
    pose proof (Z.div_mod (p + carousel_state) n_columns ltac:(lia)) as H1.
    pose proof (Z.div_mod (p' + carousel_state) n_columns ltac:(lia)) as H2.
    rewrite Heq in H1.
    set (q := (p + carousel_state) `div` n_columns) in H1.
    set (q' := (p' + carousel_state) `div` n_columns) in H2.
    assert (p - p' = n_columns * (q - q')) as Hdiff by lia.
    assert (q - q' = 0) as Hq; [|lia].
    destruct (Z.lt_trichotomy (q - q') 0) as [Hlt | [Heq0 | Hgt]];
      [nia | done | nia].
  - intros u Hu. exists ((u - carousel_state) mod n_columns). split.
    + by apply Z.mod_pos_bound.
    + rewrite Hmod. f_equal. rewrite Zplus_mod_idemp_l.
      replace (u - carousel_state + carousel_state) with u by lia.
      by apply Z.mod_small.
  - intros p Hp. rewrite Hmod. f_equal. rewrite Z.add_0_r.
    by apply Z.mod_small.
  - intros p. rewrite !Hmod. f_equal.
    replace (p + (carousel_state + n_columns))
      with (p + carousel_state + 1 * n_columns) by lia.
    apply Z_mod_plus_full.
Qed.

Lemma unit_index_rotation_witness :
  unit_index 4 3 0 = Ok 3
  ∧ unit_index 4 3 (2 + 4) = unit_index 4 3 2.
Proof.
  destruct (unit_index_rotation 4 2 ltac:(lia)) as (_ & _ & _ & H0 & Hper).
  split; [apply H0; lia | apply Hper].
Defined.

(** ** The entries of [parameters] *)

Lemma elem_of_dict_set {V} (x : string * V) (k : string) (v : V)
    (d : list (string * V)) :
  x ∈ dict_set k v d → x = (k, v) ∨ x ∈ d.
Proof.
  induction d as [|[k0 v0] d IH]; simpl.
  - intros Hx. apply list_elem_of_singleton in Hx. by left.
  - destruct (decide (k0 = k)) as [-> | Hne]; intros Hx;
      apply elem_of_cons in Hx as [-> | Hx].
    + by left.
    + right. by right.
    + right. left.
    + destruct (IH Hx) as [-> | Hin]; [by left | right; by right].
Qed.

Lemma elem_of_dict_update {V} (x : string * V) (d other : list (string * V)) :
  x ∈ dict_update d other → x ∈ d ∨ x ∈ other.
Proof.
  unfold dict_update. revert d.
  induction other as [|[k v] other IH]; intros d; simpl; [by left |].
  intros Hx. destruct (IH _ Hx) as [Hin | Hin]; [|right; by right].
  apply elem_of_dict_set in Hin as [-> | Hin]; [right; left | by left].
Qed.

Lemma NoDup_dict_update {V} (d other : list (string * V)) :
  NoDup d.*1 → NoDup (dict_update d other).*1.
Proof.
  unfold dict_update. revert d.
  induction other as [|[k v] other IH]; intros d Hd; [done |].
  simpl. apply IH. by apply NoDup_dict_set.
Qed.

Lemma named_parameters_elem_of (fuel : nat) (w : World) (l : list ref)
    (E : list (string * pyparam)) (k : string) (v : pyparam) :
  named_parameters fuel w l = Ok E →
  (k, v) ∈ E →
  ∃ r e kvs,
    r ∈ l ∧ heap w !! r = Some e ∧ name e = k ∧ v = PDict kvs
    ∧ Event_parameters fuel w r = Ok kvs.
Proof.
  intros HE Hin. apply named_parameters_Ok in HE as [_ HE].
  apply list_elem_of_lookup in Hin as [i Hi].
  destruct (Forall2_lookup_r _ _ _ _ _ HE Hi)
    as (r & Hr & e & kvs & He & Hkvs & [= -> ->]).
  exists r, e, kvs. split; [by eapply list_elem_of_lookup_2 | done].
Qed.

Lemma filter_events_independent (w : World) (l l' : list ref) (r : ref)
    (e : Event) :
  filter_events isIndependent w l = Ok l' →
  r ∈ l' → heap w !! r = Some e →
  r ∈ l ∧ _dependencies e = [].
Proof.
  intros Hl Hr He. apply filter_events_Ok in Hl as [-> _].
  apply list_elem_of_filter in Hr as [Hind Hr]. split; [done |].
  rewrite He in Hind. simpl in Hind. injection Hind as Hind.
  by apply isIndependent_true.
Qed.

(** [EventHandler.parameters] (getter) has one entry for each key; the entry
    [cycle_time] is the cycle time, also when an event bears that name; and
    every other entry is the dictionary of the parameters of a registered
    event or duration that has no dependencies and bears the key as its
    name. An event with dependencies is not listed. *)
Theorem parameters_entries
    (fuel : nat) (w : World) (p : list (string * pyparam)) :
  EventHandler_parameters fuel w = Ok p →
  NoDup p.*1
  ∧ dict_get "cycle_time" p = Some (PVal (VNum (cycle_time (handler w))))
  ∧ ∀ k v,
      k ≠ "cycle_time" → dict_get k p = Some v →
      ∃ r e kvs,
        r ∈ registered w
        ∧ heap w !! r = Some e
        ∧ _dependencies e = []
        ∧ name e = k
        ∧ v = PDict kvs
        ∧ Event_parameters fuel w r = Ok kvs.
Proof.
  unfold EventHandler_parameters. intros H.
  apply rbind_Ok in H as (ievs & Hievs & H).
  apply rbind_Ok in H as (E & HE & H).
  apply rbind_Ok in H as (idurs & Hidurs & H).
  apply rbind_Ok in H as (D & HD & [= <-]).
  split; [|split].
  - apply NoDup_dict_set, NoDup_dict_update, NoDup_dict_update. constructor.
  - rewrite dict_get_set. by rewrite decide_True.
  - intros k v Hk Hget. rewrite dict_get_set in Hget.
    rewrite decide_False in Hget by done.
    apply dict_get_elem_of, elem_of_dict_update in Hget as [Hin | Hin].
    + apply elem_of_dict_update in Hin as [Hin | Hin];
        [by apply elem_of_nil in Hin |].
      apply elem_of_dict_update in Hin as [Hin | Hin];
        [by apply elem_of_nil in Hin |].
      destruct (named_parameters_elem_of _ _ _ _ _ _ HE Hin)
        as (r & e & kvs & Hr & He & Hname & -> & Hkvs).
      unfold independent_events in Hievs.
      apply rbind_Ok in Hievs as (evs & Hevs & Hievs).
      destruct (filter_events_independent _ _ _ _ _ Hievs Hr He)
        as [Hrevs Hdeps].
      exists r, e, kvs. split; [|done].
      unfold registered. apply elem_of_app. left.
      by rewrite <- (events_Permutation _ _ _ Hevs).
    + apply elem_of_dict_update in Hin as [Hin | Hin];
        [by apply elem_of_nil in Hin |].
      destruct (named_parameters_elem_of _ _ _ _ _ _ HD Hin)
        as (r & e & kvs & Hr & He & Hname & -> & Hkvs).
      destruct (filter_events_independent _ _ _ _ _ Hidurs Hr He)
        as [Hrdurs Hdeps].
      exists r, e, kvs. split; [|done].
      unfold registered. apply elem_of_app. by right.
Qed.

Lemma parameters_entries_witness :
  ∃ p,
    EventHandler_parameters 5 world_dependent = Ok p
    ∧ dict_get "cycle_time" p = Some (PVal (VNum 10))
    ∧ dict_get "D" p = None.
Proof.
  assert (EventHandler_parameters 5 world_dependent
          = Ok [("X", PDict [("time", VNum 2); ("state", VNum 1)]);
                ("Y", PDict [("time", VNum 5); ("state", VNum 2)]);
                ("cycle_time", PVal (VNum 10))]) as Hp
    by by vm_compute.
  assert (cycle_time (handler world_dependent) = 10) as Hc by by vm_compute.
  destruct (parameters_entries 5 world_dependent _ Hp) as (_ & Hct & _).
  eexists. split; [exact Hp |]. split; [by rewrite <- Hc | done].
Defined.

(** ** What the setters of [parameters] refuse *)

Lemma sbind_unit (m : M unit) (w : World) :
  sbind m (fun _ => sret tt) w = m w.
Proof. unfold sbind, sret. by destruct (m w) as [w' [[]|err]]. Qed.

(** [Event.parameters] (setter): a number stands for the dictionary with the
    one entry [time]; a key that the event does not list among its
    parameters, such as [state] for a duration, is refused; and the entries
    in front of such a key have been written when it is refused. *)
Theorem Event_set_parameters_outcomes
    (fuel : nat) (w : World) (r : ref) (e : Event) :
  heap w !! r = Some e →
  (∀ t, "time" ∈ _parameters e →
        Event_set_parameters fuel r (PDict [("time", VNum t)]) w
        = Event_set_parameters fuel r (PVal (VNum t)) w)
  ∧ (∀ k v rest,
       k ∉ _parameters e →
       Event_set_parameters fuel r (PDict ((k, v) :: rest)) w
       = (w, Raise (CADETProcessError "Not a valid parameter")))
  ∧ (∀ t k v rest,
       "time" ∈ _parameters e → k ∉ _parameters e → _dependencies e = [] →
       Event_set_parameters fuel r (PDict (("time", VNum t) :: (k, v) :: rest)) w
       = (store_event w r (with_time e t),
          Raise (CADETProcessError "Not a valid parameter"))).
Proof.
  intros He.
  assert (∀ t, "time" ∈ _parameters e →
               set_parameter fuel r ("time", VNum t) w
               = Event_set_time r (VNum t) w) as Htime.
  { intros t Hin. unfold set_parameter, sbind at 1, sread at 1.
    rewrite (deref_Some _ _ _ He). simpl. by rewrite bool_decide_true. }
  assert (∀ w1 e1 k v,
            heap w1 !! r = Some e1 → k ∉ _parameters e1 →
            set_parameter fuel r (k, v) w1
            = (w1, Raise (CADETProcessError "Not a valid parameter")))
    as Hrefuse.
  { intros w1 e1 k v He1 Hk. unfold set_parameter, sbind at 1, sread at 1.
    rewrite (deref_Some _ _ _ He1). simpl. by rewrite bool_decide_false. }
  split; [|split].
  - intros t Hin.
    change (sbind (set_parameter fuel r ("time", VNum t)) (fun _ => sret tt) w
            = Event_set_time r (VNum t) w).
    rewrite sbind_unit. by apply Htime.
  - intros k v rest Hk. simpl. apply sbind_Raise. by apply (Hrefuse w e).
  - intros t k v rest Hin Hk Hdeps. simpl.
    assert (set_parameter fuel r ("time", VNum t) w
            = (store_event w r (with_time e t), Ok tt)) as Hset.
    { rewrite (Htime t Hin). by apply Event_set_time_independent. }
    rewrite (sbind_Ok _ _ _ _ _ Hset). apply sbind_Raise.
    apply (Hrefuse _ (with_time e t)); [|done].
    apply lookup_insert_eq.
Qed.

Lemma Event_set_parameters_outcomes_witness :
  Event_set_parameters 5 3%nat (PDict [("state", VNum 9)]) world_duration
  = (world_duration, Raise (CADETProcessError "Not a valid parameter"))
  ∧ (Event_set_parameters 5 3%nat
       (PDict [("time", VNum 4); ("state", VNum 9)]) world_duration).2
    = Raise (CADETProcessError "Not a valid parameter")
  ∧ _time <$> heap (exec (Event_set_parameters 5 3%nat
                            (PDict [("time", VNum 4); ("state", VNum 9)]))
                      world_duration) !! 3%nat
    = Some 4.
Proof.
  assert (heap world_duration !! 3%nat
          = Some (mkEvent "span" "unit.flow_rate" None (VNum 1) 3 [] []
                          ["time"] (Some 0%nat) (Some 1%nat))) as He
    by by vm_compute.
  destruct (Event_set_parameters_outcomes 5 world_duration 3%nat _ He)
    as (_ & H2 & H3).
  assert ("state" ∉ ["time"]) as Hk.
  { apply (bool_decide_unpack _). by vm_compute. }
  split; [exact (H2 "state" (VNum 9) [] Hk) |].
  unfold exec.
  rewrite (H3 4 "state" (VNum 9) [] ltac:(left) Hk eq_refl).
  cbn [fst snd]. split; [reflexivity |].
  unfold store_event, with_heap. cbn [heap].
  by rewrite lookup_insert_eq.
Defined.



(** ** The performer of an event *)

Lemma py_split_nonempty (sep : Ascii.ascii) (s : string) : py_split sep s ≠ [].
Proof.
  destruct s as [|c s]; simpl; [done |].
  destruct (decide (c = sep)); [done |]. by destruct (py_split sep s).
Qed.

Lemma py_split_absent (sep : Ascii.ascii) (s : string) :
  occurs sep s = false → py_split sep s = [s].
Proof.
  induction s as [|c s IH]; simpl; [done |].
  intros H. apply orb_false_iff in H as [Hc Hs].
  apply bool_decide_eq_false in Hc. rewrite decide_False by done.
  by rewrite (IH Hs).
Qed.

Lemma py_split_app (sep : Ascii.ascii) (p a : string) :
  py_split sep (p +:+ String sep a) = py_split sep p ++ py_split sep a.
Proof.
  induction p as [|c p IH]; simpl.
  - by rewrite decide_True.
  - destruct (decide (c = sep)); [by rewrite IH |].
    rewrite IH. pose proof (py_split_nonempty sep p) as Hne.
    by destruct (py_split sep p).
Qed.

Lemma py_join_split (sep : Ascii.ascii) (s : string) :
  py_join (String sep EmptyString) (py_split sep s) = s.
Proof.
  induction s as [|c s IH]; simpl; [done |].
  pose proof (py_split_nonempty sep s) as Hne.
  destruct (decide (c = sep)) as [-> | Hc].
  - destruct (py_split sep s) as [|x l]; [done |]. simpl in *. by rewrite IH.
  - destruct (py_split sep s) as [|x l]; [done |].
    destruct l as [|y l]; simpl in *; [by rewrite IH |].
    by rewrite <- IH.
Qed.

(** [Event.performer] is the parameter path up to its last dot, and the whole
    path when it has no dot. *)
Theorem performer_is_path_prefix (e : Event) :
  (occurs "."%char (parameter_path e) = false → performer e = parameter_path e)
  ∧ (∀ p a,
       parameter_path e = p +:+ "." +:+ a → occurs "."%char a = false →
       performer e = p).
Proof.
  unfold performer, parameter_sequence. split.
  - intros H. by rewrite (py_split_absent _ _ H).
  - intros p a -> Ha.
    change (p +:+ "." +:+ a) with (p +:+ String "."%char a).
    rewrite py_split_app, (py_split_absent _ _ Ha).
    pose proof (py_split_nonempty "." p) as Hne.
    rewrite bool_decide_false.
    + rewrite removelast_last. apply py_join_split.
    + rewrite length_app. simpl. destruct (py_split "."%char p); [done |].
      simpl. lia.
Qed.

Lemma performer_is_path_prefix_witness :
  performer (new_event "E" "flow_sheet.column_1.flow_direction" (VNum 1) 0)
  = "flow_sheet.column_1"
  ∧ performer (new_event "E" "cycle" (VNum 1) 0) = "cycle".
Proof.
  destruct (performer_is_path_prefix
              (new_event "E" "flow_sheet.column_1.flow_direction" (VNum 1) 0))
    as [_ H2].
  destruct (performer_is_path_prefix (new_event "E" "cycle" (VNum 1) 0))
    as [H1 _].
  split.
  - by apply (H2 "flow_sheet.column_1" "flow_direction").
  - by apply H1.
Defined.

(** ** Names that the handler uses itself *)

(** [add_event] with a free name that is a property of the handler without a
    setter, such as [events]: the event is created, the state is written and
    the event is appended to [_events] before the binding of the attribute
    raises [AttributeError]. The call fails, and the event is registered all
    the same, without an attribute of its name. *)
Theorem add_event_property_name
    (fuel : nat) (w : World) (name path : string) (state v : pyval) (t : Z)
    (d : list (string * ref)) (p : list (string * pyparam)) :
  events_dict fuel w = Ok d →
  dict_get name d = None →
  name ∈ read_only_properties →
  path ∈ section_dependent_parameters (handler w) →
  EventHandler_parameters fuel w = Ok p →
  model w !! path = Some v →
  ∃ r,
    heap w !! r = None
    ∧ add_event fuel name path state (VNum t) None w
      = (constructed w r (new_event name path state t)
           (mkHandler (cycle_time (handler w)) (_events (handler w) ++ [r])
                      (_durations (handler w))
                      (section_dependent_parameters (handler w))
                      (polynomial_parameters (handler w))
                      (__dict__ (handler w)))
           path state,
         Raise (AttributeError "can't set attribute")).
Proof.
  intros Hd Hname Hprop Hpath Hp Hv.
  exists (fresh (dom (heap w))). split; [apply not_elem_of_dom, is_fresh |].
  unfold add_event, sbind at 1, sread at 1. rewrite Hd.
  unfold dict_mem. rewrite Hname.
  rewrite bool_decide_false by by intros [? ?].
  rewrite (sbind_Ok _ _ _ _ _
             (Event_init_None _ _ name _ state (VNum t) _ _ Hpath Hp Hv)).
  unfold sbind at 1, alloc. unfold sbind at 1, append_event.
  apply sbind_Raise. unfold object_setattr.
  by rewrite bool_decide_true.
Qed.

Lemma constructed_handler (w : World) (r : ref) (obj : Event)
    (h : EventHandler) (path : string) (state : pyval) :
  handler (constructed w r obj h path state) = h.
Proof. reflexivity. Qed.

Lemma add_event_property_name_witness :
  ∃ w',
    add_event 5 "events" "unit.c" (VNum 4) (VNum 1) None world_XYD
    = (w', Raise (AttributeError "can't set attribute"))
    ∧ length (_events (handler w')) = 4%nat
    ∧ __dict__ (handler w') = __dict__ (handler world_XYD).
Proof.
  assert (events_dict 5 world_XYD
          = Ok [("D", 2%nat); ("X", 0%nat); ("Y", 1%nat)]) as Hd
    by by vm_compute.
  assert ("events" ∈ read_only_properties) as Hprop.
  { apply (bool_decide_unpack _). by vm_compute. }
  assert ("unit.c" ∈ section_dependent_parameters (handler world_XYD))
    as Hpath.
  { apply (bool_decide_unpack _). by vm_compute. }
  assert (EventHandler_parameters 5 world_XYD
          = Ok [("D", PDict [("time", VNum 0); ("state", VNum 3)]);
                ("X", PDict [("time", VNum 2); ("state", VNum 1)]);
                ("Y", PDict [("time", VNum 5); ("state", VNum 2)]);
                ("cycle_time", PVal (VNum 10))]) as Hp
    by by vm_compute.
  assert (model world_XYD !! "unit.c" = Some (VNum 3)) as Hv by by vm_compute.
  assert (_events (handler world_XYD) = [0%nat; 1%nat; 2%nat]) as Hev
    by by vm_compute.
  assert (dict_get "events" [("D", 2%nat); ("X", 0%nat); ("Y", 1%nat)] = None)
    as Hfree by by vm_compute.
  destruct (add_event_property_name 5 world_XYD "events" "unit.c" (VNum 4)
              (VNum 3) 1 _ _ Hd Hfree Hprop Hpath Hp Hv) as (r & _ & Heq).
  rewrite Heq. eexists. split; [reflexivity |].
  rewrite constructed_handler. cbn [_events __dict__].
  rewrite Hev. by split.
Defined.
